(** * AUI: the computer-use agent execution core

    A shallow embedding of the retry gateway ([utils/model_client.py]),
    the operator action decoder and continuation state
    ([agents/operator_cua_policy.py]), the prompt builders
    ([agents/cua_policy.py], [agents/operator_cua_policy.py],
    [agents/prompts/cua_prompts.py]), the browser pool and the failure
    analysis ([agents/base_commenter.py]), the task matrix runner and
    its progress files ([utils/parallel_runner.py]), the progress
    tracker ([utils/progress_tracker.py]), the screenshot verifier
    ([agents/vlm_verifier.py]), the run keys ([utils/run_key.py]), the
    key presses of the browser controller ([utils/browser.py]) and the
    storyboard layout ([utils/storyboard_generator.py]), followed by
    the properties proved about them. *)

From Stdlib Require Import ZArith QArith Qminmax Lia.
From Stdlib Require Import Ascii String DecimalString.
From Stdlib Require Import Floats.
From stdpp Require Import gmap strings list fin_maps.

Local Open Scope string_scope.

(** * Python values *)

Module Py.

(** The values that travel through the dictionaries and duck-typed
    objects of the modelled code: [None], booleans, integers, strings
    and lists of those. *)
#[warnings="-register-all"]
Inductive pyval : Type :=
| VNone
| VBool (b : bool)
| VInt (z : Z)
| VStr (s : string)
| VList (l : list pyval).

(** [bool(v)]. *)
Definition truthy (v : pyval) : bool :=
  match v with
  | VNone => false
  | VBool b => b
  | VInt z => negb (z =? 0)%Z
  | VStr s => negb (String.eqb s EmptyString)
  | VList l => match l with [] => false | _ => true end
  end.

(** [a == b]. Booleans compare as the integers 0 and 1. *)
Fixpoint py_eq (a b : pyval) : bool :=
  match a, b with
  | VNone, VNone => true
  | VBool x, VBool y => Bool.eqb x y
  | VBool x, VInt z => (Z.b2z x =? z)%Z
  | VInt z, VBool x => (z =? Z.b2z x)%Z
  | VInt x, VInt y => (x =? y)%Z
  | VStr s, VStr t => String.eqb s t
  | VList l, VList m =>
      (fix go (l m : list pyval) : bool :=
         match l, m with
         | [], [] => true
         | x :: l', y :: m' => py_eq x y && go l' m'
         | _, _ => false
         end) l m
  | _, _ => false
  end.

(** [v == "literal"]: only a string equals a string literal. *)
Definition eq_str (v : pyval) (s : string) : bool := py_eq v (VStr s).

(** [v in (s1, s2, ...)] for a tuple of string literals. *)
Definition in_strs (v : pyval) (ss : list string) : bool :=
  existsb (eq_str v) ss.

(** [needle in hay] on strings. *)
Fixpoint py_in (needle hay : string) : bool :=
  String.prefix needle hay
  || match hay with
     | EmptyString => false
     | String _ rest => py_in needle rest
     end.

(** [str(z)] for an integer. *)
Definition str_int (z : Z) : string := NilZero.string_of_int (Z.to_int z).

Definition str_nat (n : nat) : string := str_int (Z.of_nat n).

(** [", ".join(parts)]. *)
Fixpoint join (sep : string) (parts : list string) : string :=
  match parts with
  | [] => EmptyString
  | [p] => p
  | p :: rest => p ++ sep ++ join sep rest
  end.

Section Render.

(** [repr] of a [str] is the interpreter's (quote choice, escapes,
    Unicode printability); the renderers take it as given. *)
Variable repr_str : string -> string.

Fixpoint py_repr (v : pyval) : string :=
  match v with
  | VNone => "None"
  | VBool true => "True"
  | VBool false => "False"
  | VInt z => str_int z
  | VStr s => repr_str s
  | VList l => "[" ++ join ", " (map py_repr l) ++ "]"
  end.

(** [str(v)], which is what an f-string placeholder [{v}] renders. *)
Definition py_str (v : pyval) : string :=
  match v with
  | VStr s => s
  | _ => py_repr v
  end.

End Render.

(** [s.lower()] on the ASCII letters; bytes of other characters are
    left alone. *)
Definition lower_ascii (c : ascii) : ascii :=
  let n := nat_of_ascii c in
  if (65 <=? n)%nat && (n <=? 90)%nat then ascii_of_nat (n + 32) else c.

Fixpoint lower (s : string) : string :=
  match s with
  | EmptyString => EmptyString
  | String c rest => String (lower_ascii c) (lower rest)
  end.

(** [d.get(k)] and [d.get(k, dflt)] on a dictionary, [getattr(o, k, dflt)]
    and [hasattr(o, k)] on an object seen as its attribute dictionary. *)
Definition get (d : gmap string pyval) (k : string) : pyval :=
  default VNone (d !! k).

Definition get_or (d : gmap string pyval) (k : string) (dflt : pyval) : pyval :=
  default dflt (d !! k).

Definition getattr (o : gmap string pyval) (k : string) (dflt : pyval) : pyval :=
  default dflt (o !! k).

Definition hasattr (o : gmap string pyval) (k : string) : bool :=
  bool_decide (is_Some (o !! k)).

(** The double quote character, as a string. *)
Definition dquote : string := String (ascii_of_nat 34) EmptyString.

(** [bool(s)] for a string. *)
Definition nonempty_str (s : string) : bool := negb (String.eqb s EmptyString).

(** [v is None]. *)
Definition py_is_none (v : pyval) : bool :=
  match v with
  | VNone => true
  | _ => false
  end.

(** What a raised exception carries: its class and [str(e)]. *)
Inductive exn_class := RuntimeError | TypeError | IndexError | AttributeError | OtherError.

Record Exception := mkExn { exn_class_of : exn_class; exn_str : string }.

(** [repr] of a string of plain characters (no quote, no backslash,
    nothing unprintable): the string between single quotes. *)
Definition quote_repr (s : string) : string := "'" ++ s ++ "'".

(** [len(s)]: the number of characters, which in UTF-8 is the number
    of bytes that do not continue a character (those not of the form
    [10xxxxxx]). *)
Definition is_continuation (c : ascii) : bool :=
  let n := nat_of_ascii c in (128 <=? n)%nat && (n <? 192)%nat.

Fixpoint py_len (s : string) : nat :=
  match s with
  | EmptyString => 0
  | String c rest => if is_continuation c then py_len rest else S (py_len rest)
  end.

(** The characters of a string, each as a string of its own: in UTF-8
    a character is a byte that does not continue one, with the
    continuation bytes that follow it. *)
Definition starts_with_continuation (s : string) : bool :=
  match s with
  | String c _ => is_continuation c
  | EmptyString => false
  end.

Fixpoint chars (s : string) : list string :=
  match s with
  | EmptyString => []
  | String c rest =>
      match chars rest with
      | ch :: more =>
          if starts_with_continuation rest then String c ch :: more
          else String c EmptyString :: ch :: more
      | [] => [String c EmptyString]
      end
  end.

(** [type(v).__name__], as the messages of the interpreter quote it. *)
Definition type_name (v : pyval) : string :=
  match v with
  | VNone => "NoneType"
  | VBool _ => "bool"
  | VInt _ => "int"
  | VStr _ => "str"
  | VList _ => "list"
  end.

(** The backslash character, as a string. *)
Definition backslash : string := String (ascii_of_nat 92) EmptyString.

(** [s.startswith((p1, p2, ...))]. *)
Definition startswith_any (s : string) (prefixes : list string) : bool :=
  existsb (fun p => String.prefix p s) prefixes.

(** Raising code as a computation that yields [inl] of the exception;
    [x ← m; k] runs [k] on what [m] returns and passes on what it
    raises. *)
#[global] Instance exn_bind : MBind (sum Exception) :=
  fun A B k m => match m with inl e => inl e | inr a => k a end.

End Py.

Import Py.

(** * The model call gateway: [ModelClient.call_model] *)

Module ModelClient.

(** One request to the inference service either returns the response
    content or raises. *)
Inductive outcome :=
| Responds (content : string)
| Raises (e : Exception).

(** What the retry loop does, in order: a request, or a sleep of the
    given number of seconds. *)
Inductive event :=
| Request
| Sleep (seconds : Q).

Inductive result :=
| Returned (content : string)
| Raised (e : Exception).

(** [_is_rate_limit_error]: ['429' in str(error)]. *)
Definition _is_rate_limit_error (error : Exception) : bool :=
  py_in "429" (exn_str error).

(** [is_local = model_config.get('provider') == 'local']. *)
Definition is_local (model_config : gmap string pyval) : bool :=
  eq_str (get model_config "provider") "local".

(** [max_retries = float('inf') if is_local else 5]; [None] is infinity. *)
Definition max_retries (model_config : gmap string pyval) : option nat :=
  if is_local model_config then None else Some 5%nat.

Definition le_max (attempt : nat) (m : option nat) : bool :=
  match m with
  | None => true
  | Some k => (attempt <=? k)%nat
  end.

(** [retry_delay = min(2 + attempt * 0.5, 10)].  The halves are exact in
    binary floating point, so the rational is the float's value. *)
Definition retry_delay (attempt : nat) : Q :=
  Qmin (2 + inject_Z (Z.of_nat attempt) * (1 # 2)) 10.

(** The [while True] loop of [call_model].  [service k] is the outcome of
    the request made after [k] failures, that is of the [k]-th call of
    [_make_request] counted from 0; [attempt] is the loop's counter.
    [None] means the fuel ran out before the loop ended. *)
Fixpoint retry_loop (fuel : nat) (model_config : gmap string pyval)
    (service : nat -> outcome) (attempt : nat) : option (list event * result) :=
  match fuel with
  | O => None
  | S fuel' =>
      match service attempt with
      | Responds response_content => Some ([Request], Returned response_content)
      | Raises e =>
          let attempt := S attempt in
          if is_local model_config then
            '(evs, r) ← retry_loop fuel' model_config service attempt;
            Some (Request :: Sleep (retry_delay attempt) :: evs, r)
          else if _is_rate_limit_error e && le_max attempt (max_retries model_config) then
            '(evs, r) ← retry_loop fuel' model_config service attempt;
            Some (Request :: Sleep 2 :: evs, r)
          else Some ([Request], Raised e)
      end
  end.

(** [call_model], from the point where its retry loop starts
    ([attempt = 0]); the client and the messages built before the loop
    play no part in it. *)
Definition call_model (fuel : nat) (model_config : gmap string pyval)
    (service : nat -> outcome) : option (list event * result) :=
  retry_loop fuel model_config service 0.

(** The number of requests and the sleeps of a run. *)
Fixpoint requests (evs : list event) : nat :=
  match evs with
  | [] => 0
  | Request :: evs' => S (requests evs')
  | Sleep _ :: evs' => requests evs'
  end.

Fixpoint sleeps (evs : list event) : list Q :=
  match evs with
  | [] => []
  | Request :: evs' => sleeps evs'
  | Sleep d :: evs' => d :: sleeps evs'
  end.

(** A service that raises the errors of [errs] in turn and then responds. *)
Definition script (errs : list Exception) (content : string) : nat -> outcome :=
  fun k => match errs !! k with
           | Some e => Raises e
           | None => Responds content
           end.

(** What the specification counts as a failed call of a local model:
    a request that raises an error, or one that returns an empty
    response. *)
Inductive failed_call :=
| RaisedError (e : Exception)
| EmptyResponse.

Definition outcome_of (f : failed_call) : outcome :=
  match f with
  | RaisedError e => Raises e
  | EmptyResponse => Responds EmptyString
  end.

(** A service whose calls fail as [failures] say, in turn, and that
    then responds. *)
Definition failing_script (failures : list failed_call) (content : string) : nat -> outcome :=
  fun k => match failures !! k with
           | Some f => outcome_of f
           | None => Responds content
           end.

(** What a request's outcome becomes when the loop ends on it. *)
Definition final_result (o : outcome) : result :=
  match o with
  | Responds content => Returned content
  | Raises e => Raised e
  end.

(** Configurations and errors to run the loop on: a cloud model and a
    local one, a rate-limit error and two others. *)
Definition remote_config : gmap string pyval :=
  {[ "provider" := VStr "azure_openai"; "deployment" := VStr "gpt-5" ]}.

Definition local_config : gmap string pyval :=
  {[ "provider" := VStr "local"; "model" := VStr "ui-tars" ]}.

Definition rate_limit_error : Exception :=
  mkExn OtherError "Error code: 429 - Too Many Requests".

Definition transport_error : Exception := mkExn OtherError "Connection error.".

Definition server_error : Exception :=
  mkExn OtherError "Error code: 500 - Internal Server Error".

(** ** The other retry loops of the client *)




(** [call_model_with_gpt5_params]: the loop [for attempt in range(5)]
    around the call; [service attempt] is what the body of the [try]
    does on that attempt.  The loop that runs out raises
    [Exception("Max retries exceeded")]. *)
Definition max_retries_exceeded : Exception := mkExn OtherError "Max retries exceeded".

Fixpoint gpt5_loop (remaining : nat) (service : nat -> outcome) (attempt : nat)
    : list event * result :=
  match remaining with
  | O => ([], Raised max_retries_exceeded)
  | S remaining' =>
      match service attempt with
      | Responds content => ([Request], Returned content)
      | Raises e =>
          if _is_rate_limit_error e then
            let '(evs, r) := gpt5_loop remaining' service (S attempt) in
            (Request :: Sleep (inject_Z (2 ^ Z.of_nat attempt)) :: evs, r)
          else if (attempt =? 4)%nat then ([Request], Raised e)
          else
            let '(evs, r) := gpt5_loop remaining' service (S attempt) in
            (Request :: Sleep 1 :: evs, r)
      end
  end.

Definition call_model_with_gpt5_params (service : nat -> outcome) : list event * result :=
  gpt5_loop 5 service 0.


(** ** Images *)

Section Images.

(** [open(img_path, "rb")], [read] and [base64.b64encode(...).decode()]:
    the file system is a parameter. *)
Variable read_base64 : string -> Exception + string.

(** Whether [call_model] takes [img_path] for the path of a file. *)
Definition is_file_path (img_path : string) : bool :=
  (py_in "/" img_path || py_in backslash img_path)
  && negb (startswith_any img_path ["iVBOR"; "/9j"; "UklG"])
  && (py_len img_path <? 1000)%nat.

(** The [url] that [call_model] sends for an element of [images]. *)
Definition image_url (img_path : string) : Exception + string :=
  if String.prefix "data:image" img_path then inr img_path
  else if is_file_path img_path then
    base64_data ← read_base64 img_path;
    inr ("data:image/png;base64," ++ base64_data)
  else inr ("data:image/png;base64," ++ img_path).



End Images.


End ModelClient.

(** * The prompt templates: [agents/prompts/cua_prompts.py] *)

Module Prompts.

Definition doubao_header : string :=
  "You are a GUI agent. You are given a task and your action history, with screenshots. You need to perform the next action to complete the task.

## Output Format
```
Thought: ...
Action: ...
```

## Action Space

click(point='<point>x1 y1</point>')
left_double(point='<point>x1 y1</point>')
right_single(point='<point>x1 y1</point>')
drag(start_point='<point>x1 y1</point>', end_point='<point>x2 y2</point>')
hotkey(key='ctrl c') # Split keys with a space and use lowercase. Also, do not use more than 3 keys in one hotkey action.
type(content='xxx') # Use escape characters \\, \\\" ++ dquote ++ ", and \\\
 in content part to ensure we can parse the content in normal python string format. If you want to submit your input, use \\\
 at the end of content. 
scroll(point='<point>x1 y1</point>', direction='down or up or right or left') # Show more information on the `direction` side.
wait() #Sleep for 5s and take a screenshot to check for any changes.
finished(content='xxx') # Use escape characters \\, \\\" ++ dquote ++ ", and \\\
 in content part to ensure we can parse the content in normal python string format.


## Note
- Use English in `Thought` part.
- Write a small plan and finally summarize your next action (with its target element) in one sentence in `Thought` part.

## User Instruction
".

(** [build_doubao_prompt]. *)
Definition build_doubao_prompt (instruction : string) : string :=
  doubao_header ++ instruction.

(** [build_operator_prompt]. *)
Definition build_operator_prompt (task_description repeat_warning history_context : string)
    (current_step max_steps : Z) : string :=
  "Complete this task: " ++ task_description ++ "

" ++ repeat_warning ++ "

Context from previous actions:
" ++ history_context ++ "

Current step: " ++ str_int current_step ++ "/" ++ str_int max_steps ++ "

Please analyze the current state and take the next action to complete the task. If the task appears to be completed successfully, you may finish.".

End Prompts.

(** * Trajectories and what both prompt builders share *)

Module Trajectory.

(** A step of the trajectory is a dictionary; the builders read its
    ['action'] and ['result'] entries, which are dictionaries. *)
Abbreviation step := (gmap string (gmap string pyval)).

(** [t.get('action', {})] and [t.get('result', {})]. *)
Definition action_of (t : step) : gmap string pyval := default ∅ (t !! "action").
Definition result_of (t : step) : gmap string pyval := default ∅ (t !! "result").

(** [trajectory[-n:]]. *)
Definition last_n {A} (n : nat) (l : list A) : list A := drop (length l - n) l.

(** [l[-k]] for [1 <= k <= len(l)]. *)
Definition from_end {A} (k : nat) (l : list A) : option A := l !! (length l - k)%nat.

(** [v[i]]: an element of a list, a character of a string; other values
    are not subscriptable. *)
Definition py_index (v : pyval) (i : nat) : Exception + pyval :=
  match v with
  | VList l =>
      match l !! i with
      | Some x => inr x
      | None => inl (mkExn IndexError "list index out of range")
      end
  | VStr s =>
      match chars s !! i with
      | Some ch => inr (VStr ch)
      | None => inl (mkExn IndexError "string index out of range")
      end
  | _ => inl (mkExn TypeError ("'" ++ type_name v ++ "' object is not subscriptable"))
  end.

(** [v < 0]. *)
Definition lt_zero (v : pyval) : Exception + bool :=
  match v with
  | VInt z => inr (z <? 0)%Z
  | VBool _ => inr false
  | _ =>
      inl (mkExn TypeError
             ("'<' not supported between instances of '" ++ type_name v ++ "' and 'int'"))
  end.

Section Repeat.

Variable repr_str : string -> string.

(** The text of the warning for the coordinate [coord]. *)
Definition warning_text (coord : pyval) : string :=
  "
**CRITICAL**: You clicked point " ++ py_str repr_str coord
  ++ " twice! Check if task is complete before clicking again.".

(** The check for repetitive actions on the window [recent], the same
    in both builders: the value [repeat_warning] has after it. *)
Definition repeat_check (recent : list step) : string :=
  if (2 <=? length recent)%nat then
    match from_end 1 recent, from_end 2 recent with
    | Some last, Some second =>
        let last_action := action_of last in
        let second_last := action_of second in
        if eq_str (get last_action "action") "left_click"
           && eq_str (get second_last "action") "left_click"
           && py_eq (get last_action "coordinate") (get second_last "coordinate")
        then warning_text (get last_action "coordinate")
        else EmptyString
    | _, _ => EmptyString
    end
  else EmptyString.

(** The result suffix of a history line, with the arrow of the builder. *)
Definition result_suffix (arrow : string) (result : gmap string pyval) : string :=
  if truthy (get result "success") then arrow ++ "Success
"
  else arrow ++ "Failed: " ++ py_str repr_str (get_or result "error" (VStr "unknown error")) ++ "
".

End Repeat.

(** ** The trajectories the builders are meant for *)

(** A click is the internal action ['left_click'], the one the history
    shows as a click; its coordinate is what ['coordinate'] holds. *)
Definition is_click (t : step) : Prop := get (action_of t) "action" = VStr "left_click".

Definition coordinate_of (t : step) : pyval := get (action_of t) "coordinate".

(** The last two steps are both clicks, at the same coordinate. *)
Definition ends_in_repeated_click (trajectory : list step) : Prop :=
  exists (earlier : list step) (second last : step),
    trajectory = (earlier ++ [second; last])%list
    /\ is_click last /\ is_click second
    /\ py_eq (coordinate_of last) (coordinate_of second) = true.



(** A step that clicked the right button at [(x, y)], the internal action
    of an operator click with [button = 'right'], and a trajectory that
    ends with the same right click twice. *)
Definition right_click_step (x y : Z) : step :=
  {[ "action" := {[ "action" := VStr "right_click"; "coordinate" := VList [VInt x; VInt y] ]};
     "result" := {[ "success" := VBool true ]} ]}.

Definition repeated_right_clicks : list step :=
  [right_click_step 100 200; right_click_step 100 200].

(** The warning for the coordinate [[100, 200]]. *)
Definition sample_warning : string := "
**CRITICAL**: You clicked point [100, 200] twice! Check if task is complete before clicking again.".

(** A step that typed [text] and failed with the error text [error]. *)
Definition failed_type_step (text error : string) : step :=
  {[ "action" := {[ "action" := VStr "type"; "text" := VStr text ]};
     "result" := {[ "success" := VBool false; "error" := VStr error ]} ]}.

(** A value with a first and a second item. *)
Definition has_two_items (v : pyval) : bool :=
  match v with
  | VList l => (2 <=? length l)%nat
  | VStr s => (2 <=? length (chars s))%nat
  | _ => false
  end.

Definition is_number (v : pyval) : bool :=
  match v with
  | VInt _ | VBool _ => true
  | _ => false
  end.

(** A step the history can show: the coordinate of a click, when it has
    one, is a pair, and the amount of a scroll is a number. *)
Definition well_formed_step (t : step) : Prop :=
  (is_click t ->
   truthy (get_or (action_of t) "coordinate" (VList [])) = true ->
   has_two_items (get_or (action_of t) "coordinate" (VList [])) = true)
  /\ (get (action_of t) "action" = VStr "scroll" ->
      is_number (get_or (action_of t) "pixels" (VInt 0)) = true).

End Trajectory.

(** * The UI-TARS policy's prompt: [agents/cua_policy.py] *)

Module CUAPolicy.
Import Trajectory Prompts.

Section Builder.

Variable repr_str : string -> string.

(** The history line of one step, without its result. *)
Definition history_action (action : gmap string pyval) : Exception + string :=
  let name := get action "action" in
  if eq_str name "left_click" then
    let coord := get_or action "coordinate" (VList []) in
    if truthy coord then
      x ← py_index coord 0;
      y ← py_index coord 1;
      inr ("Action: click(point='<point>" ++ py_str repr_str x ++ " "
           ++ py_str repr_str y ++ "</point>')")
    else inr EmptyString
  else if eq_str name "type" then
    let text := get_or action "text" (VStr EmptyString) in
    inr ("Action: type(content='" ++ py_str repr_str text ++ "')")
  else if eq_str name "scroll" then
    let pixels := get_or action "pixels" (VInt 0) in
    down ← lt_zero pixels;
    let direction := if down : bool then "down" else "up" in
    inr ("Action: scroll(direction='" ++ direction ++ "')")
  else if eq_str name "terminate" then
    let status := get_or action "status" (VStr "success") in
    inr ("Action: finished(content='" ++ py_str repr_str status ++ "')")
  else
    inr ("Action: " ++ py_str repr_str (get_or action "action" (VStr "unknown"))).

(** The loop over [recent] that builds [history_text]. *)
Fixpoint history_lines (recent : list step) : Exception + string :=
  match recent with
  | [] => inr EmptyString
  | t :: rest =>
      line ← history_action (action_of t);
      later ← history_lines rest;
      inr (line ++ result_suffix repr_str " -> " (result_of t) ++ later)
  end.

(** The f-string [instruction] of the builder. *)
Definition instruction (task_description repeat_warning history_text : string)
    (current_step max_steps : Z) : string :=
  task_description ++ "

" ++ repeat_warning ++ "

Action history:
" ++ (if nonempty_str history_text then history_text else "No previous actions") ++ "

Current step: " ++ str_int current_step ++ "/" ++ str_int max_steps.

(** [_build_computer_use_prompt] of [CUAPolicy]. *)
Definition _build_computer_use_prompt (max_steps : Z) (task_description success_criteria : string)
    (trajectory : list step) (current_step : Z) : Exception + string :=
  let recent := last_n 5 trajectory in
  history_text ← history_lines recent;
  let repeat_warning := repeat_check repr_str recent in
  inr (build_doubao_prompt
         (instruction task_description repeat_warning history_text current_step max_steps)).

End Builder.

End CUAPolicy.

(** * The operator policy: [agents/operator_cua_policy.py] *)

Module OperatorCUAPolicy.

(** [self.display_width], [self.display_height]. *)
Definition display_width : Z := 1280.
Definition display_height : Z := 720.

(** [list(keys)]: a list is copied, a string yields its characters,
    [None] and numbers are not iterable. *)
Definition py_list (v : pyval) : Exception + list pyval :=
  match v with
  | VList l => inr l
  | VStr s => inr (map VStr (chars s))
  | _ => inl (mkExn TypeError ("'" ++ type_name v ++ "' object is not iterable"))
  end.

(** [isinstance(btn, str) and btn.lower() == "right"]. *)
Definition is_right_button (btn : pyval) : bool :=
  match btn with
  | VStr b => String.eqb (lower b) "right"
  | _ => false
  end.

(** [[getattr(openai_action, 'x', 0), getattr(openai_action, 'y', 0)]]. *)
Definition xy_or_zero (openai_action : gmap string pyval) : pyval :=
  VList [getattr openai_action "x" (VInt 0); getattr openai_action "y" (VInt 0)].

Section Decoder.

Variable repr_str : string -> string.

(** [_convert_openai_action_to_internal]: an action object of the
    Responses API, seen as its attributes, to the internal action
    dictionary; [inl] is the exception raised. *)
Definition _convert_openai_action_to_internal (openai_action : gmap string pyval)
    : Exception + gmap string pyval :=
  if negb (hasattr openai_action "type") then
    inl (mkExn RuntimeError "Operator action missing type")
  else
  let action_type := get openai_action "type" in
  if eq_str action_type "click" then
    let btn := getattr openai_action "button" VNone in
    let mapped := if is_right_button btn then "right_click" else "left_click" in
    inr {[ "action" := VStr mapped; "coordinate" := xy_or_zero openai_action ]}
  else if in_strs action_type ["double_click"; "left_double"] then
    inr {[ "action" := VStr "double_click"; "coordinate" := xy_or_zero openai_action ]}
  else if in_strs action_type ["right_click"; "right_single"] then
    inr {[ "action" := VStr "right_click"; "coordinate" := xy_or_zero openai_action ]}
  else if in_strs action_type ["move"; "mousemove"; "pointer_move"] then
    inr {[ "action" := VStr "mouse_move"; "coordinate" := xy_or_zero openai_action ]}
  else if eq_str action_type "type" then
    inr {[ "action" := VStr "type";
           "text" := getattr openai_action "text" (VStr EmptyString) ]}
  else if eq_str action_type "scroll" then
    let scroll_x :=
      getattr openai_action "scroll_x" (getattr openai_action "delta_x" (VInt 0)) in
    let scroll_y :=
      getattr openai_action "scroll_y" (getattr openai_action "delta_y" (VInt 0)) in
    inr {[ "action" := VStr "scroll";
           "coordinate" :=
             VList [getattr openai_action "x" (VInt (display_width / 2));
                    getattr openai_action "y" (VInt (display_height / 2))];
           "pixels_x" := scroll_x;
           "pixels_y" := scroll_y ]}
  else if in_strs action_type
            ["keypress"; "key_press"; "keydown"; "key_down"; "keyup"; "key_up"; "key"] then
    let keys := getattr openai_action "keys" VNone in
    let keys :=
      match keys with
      | VNone =>
          let single := getattr openai_action "key" VNone in
          if truthy single then VList [single] else VList []
      | _ => keys
      end in
    match py_list keys with
    | inl e => inl e
    | inr l => inr {[ "action" := VStr "key"; "keys" := VList l ]}
    end
  else if eq_str action_type "wait" then
    inr {[ "action" := VStr "wait"; "time" := VInt 2 ]}
  else if eq_str action_type "screenshot" then
    inr {[ "action" := VStr "screenshot" ]}
  else if eq_str action_type "drag" then
    let fx := getattr openai_action "from_x" (getattr openai_action "x" VNone) in
    let fy := getattr openai_action "from_y" (getattr openai_action "y" VNone) in
    let tx := getattr openai_action "to_x" VNone in
    let ty := getattr openai_action "to_y" VNone in
    let is_not_none v := negb (py_is_none v) in
    if is_not_none fx && is_not_none fy && is_not_none tx && is_not_none ty then
      inr {[ "action" := VStr "drag"; "from" := VList [fx; fy]; "to" := VList [tx; ty] ]}
    else if is_not_none tx && is_not_none ty then
      inr {[ "action" := VStr "mouse_move"; "coordinate" := VList [tx; ty] ]}
    else inl (mkExn RuntimeError "Operator drag action missing coordinates")
  else
    inl (mkExn RuntimeError
           ("Unsupported OpenAI action type: " ++ py_str repr_str action_type)).

End Decoder.

(** The coordinates the [drag] branch reads: the start, [from_x] or else
    [x] and [from_y] or else [y], and the end, [to_x] and [to_y]; each
    is [VNone] when the object has none. *)
Definition drag_start (openai_action : gmap string pyval) : pyval * pyval :=
  (getattr openai_action "from_x" (getattr openai_action "x" VNone),
   getattr openai_action "from_y" (getattr openai_action "y" VNone)).

Definition drag_end (openai_action : gmap string pyval) : pyval * pyval :=
  (getattr openai_action "to_x" VNone, getattr openai_action "to_y" VNone).

(** A drag object that names only where to drag to. *)
Definition drag_to_only : gmap string pyval :=
  {[ "type" := VStr "drag"; "to_x" := VInt 10; "to_y" := VInt 20 ]}.


(** A click object without coordinates. *)
Definition bare_click : gmap string pyval := {[ "type" := VStr "click" ]}.

(** A scroll that gives its amounts as deltas and no anchor, and a key
    press that names a single key. *)
Definition scroll_by_delta : gmap string pyval :=
  {[ "type" := VStr "scroll"; "delta_x" := VInt 0; "delta_y" := VInt 240 ]}.

Definition single_keypress : gmap string pyval :=
  {[ "type" := VStr "keypress"; "key" := VStr "Enter" ]}.

(** A drag without its end point. *)
Definition drag_from_only : gmap string pyval :=
  {[ "type" := VStr "drag"; "from_x" := VInt 1; "from_y" := VInt 2 ]}.

(** The names of the internal actions the decoder produces. *)
Definition internal_actions : list string :=
  ["left_click"; "right_click"; "double_click"; "mouse_move"; "type"; "scroll";
   "key"; "wait"; "screenshot"; "drag"].

(** The action types of the keyboard branch. *)
Definition key_types : list string :=
  ["keypress"; "key_press"; "keydown"; "key_down"; "keyup"; "key_up"; "key"].

(** The action types the decoder has a branch for. *)
Definition accepted_types : list string :=
  ["click"; "double_click"; "left_double"; "right_click"; "right_single";
   "move"; "mousemove"; "pointer_move"; "type"; "scroll";
   "keypress"; "key_press"; "keydown"; "key_down"; "keyup"; "key_up"; "key";
   "wait"; "screenshot"; "drag"].

(** The accepted set as the specification lists it, and the other
    type strings the decoder has a branch for. *)
Definition spec_accepted_types : list string :=
  ["click"; "double_click"; "move"; "type"; "scroll"; "key"; "wait"; "screenshot"; "drag"].


(** ** The prompt of the operator policy *)

Section Builder.
Import Trajectory Prompts.

Variable repr_str : string -> string.

(** The history line of the step numbered [number], without its result. *)
Definition history_action (number : Z) (action : gmap string pyval) : Exception + string :=
  let name := get action "action" in
  let label := "Step " ++ str_int number ++ ": " in
  if eq_str name "left_click" then
    let coord := get_or action "coordinate" (VList []) in
    if truthy coord then
      x ← py_index coord 0;
      y ← py_index coord 1;
      inr (label ++ "Clicked at (" ++ py_str repr_str x ++ ", "
           ++ py_str repr_str y ++ ")")
    else inr EmptyString
  else if eq_str name "type" then
    let text := get_or action "text" (VStr EmptyString) in
    inr (label ++ "Typed '" ++ py_str repr_str text ++ "'")
  else if eq_str name "scroll" then
    let pixels := get_or action "pixels" (VInt 0) in
    down ← lt_zero pixels;
    let direction := if down : bool then "down" else "up" in
    inr (label ++ "Scrolled " ++ direction)
  else if eq_str name "terminate" then
    let status := get_or action "status" (VStr "success") in
    inr (label ++ "Finished (" ++ py_str repr_str status ++ ")")
  else
    inr (label ++ py_str repr_str (get_or action "action" (VStr "unknown"))).

(** The loop over [enumerate(recent)] that builds [history_context];
    [offset] is [len(trajectory) - len(recent)] and [i] the index of the
    head of [recent]. *)
Fixpoint history_lines (offset : Z) (i : Z) (recent : list step) : Exception + string :=
  match recent with
  | [] => inr EmptyString
  | t :: rest =>
      line ← history_action (offset + i + 1) (action_of t);
      later ← history_lines offset (i + 1) rest;
      inr (line ++ result_suffix repr_str " â†’ " (result_of t) ++ later)
  end.

(** [_build_computer_use_prompt] of [OperatorCUAPolicy]. *)
Definition _build_computer_use_prompt (max_steps : Z) (task_description success_criteria : string)
    (trajectory : list step) (current_step : Z) : Exception + string :=
  let recent := last_n 3 trajectory in
  history_context ←
    history_lines (Z.of_nat (length trajectory) - Z.of_nat (length recent)) 0 recent;
  let repeat_warning := repeat_check repr_str recent in
  inr (build_operator_prompt task_description repeat_warning
         (if nonempty_str history_context then history_context else "No previous actions")
         current_step max_steps).

End Builder.

(** ** The continuation state and [_get_computer_use_action] *)

(** [self._last_response_id] and [self._last_call_id], [VNone] when unset. *)
Record policy_state := mkState {
  _last_response_id : pyval;
  _last_call_id : pyval
}.

(** The two calls of the Responses API the loop chooses between:
    [call_operator_initial(prompt, screenshot, ...)] and
    [call_operator_next(previous_response_id=..., call_id=..., screenshot=..., ...)]. *)
Inductive request :=
| call_operator_initial (prompt screenshot : string)
| call_operator_next (previous_response_id call_id : pyval) (screenshot : string).

(** A response of the Responses API with the attributes the loop reads;
    an [option] field is [None] when the object lacks the attribute.
    [response_json] is what [response.model_dump_json()] returns or
    raises, when the object has that method. *)
Record SummaryItem := mkSummary { summary_text : option string }.

Record ContentPart := mkPart { part_text : option string }.

Record OutputItem := mkItem {
  item_type : option pyval;
  item_summary : option (list SummaryItem);
  item_content : option (list ContentPart);
  item_action : option (gmap string pyval);
  item_call_id : option pyval
}.

Record Response := mkResponse {
  response_id : option pyval;
  response_output : option (list OutputItem);
  response_json : option (Exception + string)
}.

(** What a call of the API does: it raises, or it returns a response
    ([None] for a falsy one). *)
Inductive call_outcome :=
| CallRaises (e : Exception)
| CallReturns (response : option Response).

(** The dictionary [_get_computer_use_action] returns. *)
Record step_action := mkStepAction {
  sa_action : gmap string pyval;
  sa_thought : string;
  sa_reasoning_source : string;
  sa_raw : option string
}.

(** [item.type == literal] under [hasattr(item, 'type')]. *)
Definition item_is (literal : string) (item : OutputItem) : bool :=
  match item_type item with
  | Some t => eq_str t literal
  | None => false
  end.

(** The first summary item with a non-empty text. *)
Definition summary_reasoning (summary : list SummaryItem) : string :=
  match List.find (fun si => match summary_text si with
                             | Some t => nonempty_str t
                             | None => false
                             end) summary with
  | Some {| summary_text := Some t |} => t
  | _ => EmptyString
  end.

(** The first part of a message's content with a non-empty text. *)
Definition content_reasoning (content : list ContentPart) : string :=
  match List.find (fun part => match part_text part with
                               | Some t => nonempty_str t
                               | None => false
                               end) content with
  | Some {| part_text := Some t |} => t
  | _ => EmptyString
  end.

(** The fallback over [response.output]: the first message item whose
    content yields a text. *)
Fixpoint message_reasoning (output : list OutputItem) : string :=
  match output with
  | [] => EmptyString
  | item :: rest =>
      let t := default VNone (item_type item) in
      let txt :=
        match item_content item with
        | Some (_ :: _ as content) =>
            if in_strs t ["message"; "assistant_message"]
            then content_reasoning content else EmptyString
        | _ => EmptyString
        end in
      if nonempty_str txt then txt else message_reasoning rest
  end.

(** [reasoning_text] and [reasoning_source] of a response's output. *)
Definition reasoning_of (output : list OutputItem) : string * string :=
  let from_summary :=
    match filter (fun item => item_is "reasoning" item = true) output with
    | reasoning :: _ =>
        match item_summary reasoning with
        | Some summary => summary_reasoning summary
        | None => EmptyString
        end
    | [] => EmptyString
    end in
  if nonempty_str from_summary then (from_summary, "summary")
  else
    let from_message := message_reasoning output in
    if nonempty_str from_message then (from_message, "message")
    else (EmptyString, "none").

(** How one turn of the [while True] loop ends. *)
Inductive turn_end :=
| Continue
| Return (r : step_action)
| Raise (e : Exception).

Definition max_retries : nat := 5.

Section Loop.

Variable repr_str : string -> string.

(** The call the loop makes in state [self]:
    [if not self._last_response_id: ... call_operator_initial ... else:
    ... call_operator_next ...]. *)
Definition next_call (self : policy_state) (prompt screenshot : string) : request :=
  if negb (truthy (_last_response_id self)) then
    call_operator_initial prompt screenshot
  else
    call_operator_next (_last_response_id self) (_last_call_id self) screenshot.

(** The [except Exception] handler: re-raise once [attempt >= max_retries],
    otherwise [continue]. *)
Definition handler (attempt : nat) (e : Exception) : turn_end :=
  if (max_retries <=? attempt)%nat then Raise e else Continue.

(** The body of the loop after the call, with [attempt] already
    incremented: the way the turn ends and the state it leaves.  The
    identifiers are stored once the action is decoded, before the
    response is serialised for the log, and the serialisation is
    inside the [try]. *)
Definition turn (self : policy_state) (attempt : nat) (answer : call_outcome)
    : turn_end * policy_state :=
  match answer with
  | CallRaises e => (handler attempt e, self)
  | CallReturns None => (Continue, self)
  | CallReturns (Some response) =>
      let output := default [] (response_output response) in
      let '(reasoning_text, reasoning_source) := reasoning_of output in
      let computer_calls := filter (fun item => item_is "computer_call" item = true) output in
      match computer_calls with
      | computer_call :: _ =>
          match item_action computer_call with
          | None =>
              (handler attempt (mkExn AttributeError "object has no attribute 'action'"), self)
          | Some action =>
              match _convert_openai_action_to_internal repr_str action with
              | inl e => (handler attempt e, self)
              | inr action_dict =>
                  let self :=
                    match response_id response with
                    | Some id => mkState id (_last_call_id self)
                    | None => self
                    end in
                  let self :=
                    match item_call_id computer_call with
                    | Some call_id => mkState (_last_response_id self) call_id
                    | None => self
                    end in
                  match response_json response with
                  | Some (inl e) => (handler attempt e, self)
                  | Some (inr raw_json) =>
                      (Return (mkStepAction action_dict reasoning_text reasoning_source
                                 (Some raw_json)), self)
                  | None =>
                      (Return (mkStepAction action_dict reasoning_text reasoning_source
                                 None), self)
                  end
              end
          end
      | [] =>
          (handler attempt
             (mkExn RuntimeError "Operator returned no computer_call after retries"), self)
      end
  end.

(** How a run of the loop is left. *)
Inductive run_end :=
| Yields (r : step_action)
| Fails (e : Exception)
| Unfinished.

(** [_get_computer_use_action]: [api k rq] is what the [k]-th call of
    this invocation (from 1) answers to the request [rq].  The run
    carries the requests made, in order, and the state left behind; it
    is [Unfinished] when the fuel runs out first. *)
Fixpoint action_loop (fuel : nat) (api : nat -> request -> call_outcome)
    (prompt screenshot : string) (self : policy_state) (attempt : nat)
    : list request * run_end * policy_state :=
  match fuel with
  | O => ([], Unfinished, self)
  | S fuel' =>
      let attempt := S attempt in
      let rq := next_call self prompt screenshot in
      match turn self attempt (api attempt rq) with
      | (Continue, self') =>
          let '(rqs, e, self'') := action_loop fuel' api prompt screenshot self' attempt in
          (rq :: rqs, e, self'')
      | (Return r, self') => ([rq], Yields r, self')
      | (Raise e, self') => ([rq], Fails e, self')
      end
  end.

Definition _get_computer_use_action (fuel : nat) (api : nat -> request -> call_outcome)
    (prompt screenshot : string) (self : policy_state)
    : list request * run_end * policy_state :=
  action_loop fuel api prompt screenshot self 0.

End Loop.


(** The invocation modes of the gateway, as the specification names
    them, and the mode a request is made in. *)
Inductive mode :=
| InitialMode
| ContinuationMode (last_turn_id last_pending_call_id : pyval).




(** The first computer call of a response, if it has one. *)
Definition first_computer_call (response : Response) : option OutputItem :=
  head (filter (fun item => item_is "computer_call" item = true)
          (default [] (response_output response))).

(** A response with a click as its computer call, whose serialisation
    raises. *)
Definition unserialisable_response : Response :=
  mkResponse (Some (VStr "resp_1"))
    (Some [mkItem (Some (VStr "computer_call")) None None
             (Some {[ "type" := VStr "click"; "x" := VInt 100; "y" := VInt 200 ]})
             (Some (VStr "call_1"))])
    (Some (inl (mkExn OtherError "Error serializing to JSON"))).

End OperatorCUAPolicy.

(** * The browser pool: [agents/base_commenter.py] *)

Module BrowserPool.

(** Where a task stands with respect to the two pool functions.  The
    points between which a task can be suspended are the [await]s of
    the source: the lock, the semaphore, [browser.start()] and
    [browser.close()]. *)
Inductive pc :=
| Idle
| AtSemaphore
| Starting (browser : nat)
| Holding (browser : nat)
| Closing (browser : nat).

(** The module's globals [_browser_pool], [_browser_semaphore] (its free
    permits) and [_pool_lock] (whether it is held), the tasks, and the
    number of browsers constructed so far, which names the next one. *)
Record state := mkPool {
  _browser_pool : list nat;
  _browser_semaphore : nat;
  _pool_lock : bool;
  tasks : gmap nat pc;
  created : nat
}.

(** [asyncio.Semaphore(5)]: "Max 5 concurrent browsers". *)
Definition ceiling : nat := 5.

(** "Keep max 3 browsers in pool". *)
Definition pool_capacity : nat := 3.

Definition initial : state := mkPool [] ceiling false ∅ 0.

Definition pc_of (s : state) (t : nat) : pc := default Idle (tasks s !! t).

Definition set_pc (s : state) (t : nat) (p : pc) : gmap nat pc := <[t := p]> (tasks s).

(** What a task does between two suspension points. *)
Inductive move :=
| Acquire   (* enter [_get_browser_from_pool]: take the lock, look at the pool *)
| Enter     (* pass [async with _browser_semaphore] and construct the browser *)
| Started   (* [browser.start()] is over: leave the semaphore and return *)
| Release   (* enter [_return_browser_to_pool]: take the lock, append or close *)
| Closed.   (* [browser.close()] is over: leave the lock *)

(** [_browser_pool.pop()]: the last element and the rest. *)
Definition pop (pool : list nat) : option (nat * list nat) :=
  match reverse pool with
  | [] => None
  | b :: rest => Some (b, reverse rest)
  end.

(** One move of task [t]; [None] when the task cannot make it now: it
    is elsewhere in its code, or it waits for the lock or a permit. *)
Definition step (s : state) (t : nat) (m : move) : option state :=
  match m, pc_of s t with
  | Acquire, Idle =>
      if _pool_lock s then None
      else match pop (_browser_pool s) with
           | Some (b, rest) =>
               Some (mkPool rest (_browser_semaphore s) false
                       (set_pc s t (Holding b)) (created s))
           | None =>
               Some (mkPool (_browser_pool s) (_browser_semaphore s) false
                       (set_pc s t AtSemaphore) (created s))
           end
  | Enter, AtSemaphore =>
      match _browser_semaphore s with
      | O => None
      | S permits =>
          Some (mkPool (_browser_pool s) permits (_pool_lock s)
                  (set_pc s t (Starting (created s))) (S (created s)))
      end
  | Started, Starting b =>
      Some (mkPool (_browser_pool s) (S (_browser_semaphore s)) (_pool_lock s)
              (set_pc s t (Holding b)) (created s))
  | Release, Holding b =>
      if _pool_lock s then None
      else if (length (_browser_pool s) <? pool_capacity)%nat then
        Some (mkPool (_browser_pool s ++ [b]) (_browser_semaphore s) false
                (set_pc s t Idle) (created s))
      else
        Some (mkPool (_browser_pool s) (_browser_semaphore s) true
                (set_pc s t (Closing b)) (created s))
  | Closed, Closing b =>
      Some (mkPool (_browser_pool s) (_browser_semaphore s) false
              (set_pc s t Idle) (created s))
  | _, _ => None
  end.

(** An interleaving: the moves of the tasks in the order they happen. *)
Fixpoint run (s : state) (schedule : list (nat * move)) : option state :=
  match schedule with
  | [] => Some s
  | (t, m) :: rest =>
      match step s t m with
      | Some s' => run s' rest
      | None => None
      end
  end.

(** The browser a task has in hand, if any. *)
Definition in_hand (p : pc) : option nat :=
  match p with
  | Starting b | Holding b | Closing b => Some b
  | _ => None
  end.

(** The sessions checked out and the sessions live: those in the idle
    pool and those in the hands of a task. *)
Definition checked_out (s : state) : list nat :=
  omap in_hand (map snd (map_to_list (tasks s))).

Definition live (s : state) : nat :=
  length (_browser_pool s) + length (checked_out s).

(** A whole call of [_get_browser_from_pool] by task [t] that misses
    the pool, run without interruption. *)
Definition acquire_new (t : nat) : list (nat * move) :=
  [(t, Acquire); (t, Enter); (t, Started)].

(** Six tasks that call [_get_browser_from_pool] one after the other
    and release nothing. *)
Definition six_acquires : list (nat * move) :=
  t ← [0; 1; 2; 3; 4; 5]%nat; acquire_new t.

(** The tasks that are inside [async with _browser_semaphore], starting
    a browser. *)
Definition is_starting (p : pc) : bool :=
  match p with
  | Starting _ => true
  | _ => false
  end.

Definition starting_tasks (s : state) : gmap nat pc :=
  filter (fun kv => is_starting kv.2 = true) (tasks s).

(** What the sessions of a state have to satisfy for none to be shared. *)
Definition exclusive (s : state) : Prop :=
  NoDup (_browser_pool s)
  /\ (forall b, b ∈ _browser_pool s -> (b < created s)%nat)
  /\ (forall t b, in_hand (pc_of s t) = Some b ->
        (b < created s)%nat /\ b ∉ _browser_pool s)
  /\ (forall t1 t2 b,
        in_hand (pc_of s t1) = Some b -> in_hand (pc_of s t2) = Some b -> t1 = t2).

(** A task that releases its session and a task that acquires one. *)
Definition release_then_acquire (t t' : nat) : list (nat * move) :=
  [(t, Release); (t', Acquire)].

(** Four tasks that acquire in turn and then release in turn: three
    sessions go to the idle pool and the fourth is closed. *)
Definition four_in_four_out : list (nat * move) :=
  ((t ← [0; 1; 2; 3]%nat; acquire_new t)
   ++ [(0, Release); (1, Release); (2, Release); (3, Release); (3, Closed)])%list%nat.

(** A state where task 0 holds the only session, and one where task 3
    holds a session while the idle pool is full. *)
Definition one_session : state := mkPool [] 5 false {[ 0%nat := Holding 0 ]} 1.

Definition full_pool : state :=
  mkPool [0; 1; 2]%nat 5 false {[ 3%nat := Holding 3 ]} 4.

End BrowserPool.

(** * The task matrix runner: [utils/parallel_runner.py] *)

Module ParallelRunner.

(** ** The part of [ProgressTracker] the runner writes *)

(** [status_matrix[model][app]] and [error_details[model][app]], keyed
    by the pair; the timestamped [timing_info] log is left out. *)
Record ProgressTracker := mkTracker {
  tracker_models : list string;
  tracker_apps : list string;
  status_matrix : gmap (string * string) string;
  error_details : gmap (string * string) pyval
}.

(** [ProgressTracker(stage_name, models, apps)]. *)
Definition new_tracker (models apps : list string) : ProgressTracker :=
  let keys := m ← models; a ← apps; [(m, a)] in
  mkTracker models apps
    (list_to_map (map (fun k => (k, "⏳ Waiting")) keys))
    (list_to_map (map (fun k => (k, VNone)) keys)).

(** What [len(error_detail)] and the truncation
    [error_detail[:147] + "..."] raise on a truthy [error_detail]. *)
Definition detail_logging (error_detail : pyval) : option Exception :=
  match error_detail with
  | VStr _ => None
  | VList l =>
      if (length l <=? 150)%nat then None
      else Some (mkExn TypeError ("can only concatenate list (not " ++ dquote ++ "str" ++ dquote ++ ") to list"))
  | _ => Some (mkExn TypeError ("object of type '" ++ type_name error_detail ++ "' has no len()"))
  end.

(** [model in self.status_matrix and app in self.status_matrix[model]]. *)
Definition tracked (tr : ProgressTracker) (key : string * string) : bool :=
  bool_decide (is_Some (status_matrix tr !! key)).

(** [update_status(model, app, status, error_detail=...)]: the tracker
    it leaves and what it raises, if anything. *)
Definition update_status (tr : ProgressTracker) (model app status : string)
    (error_detail : pyval) : ProgressTracker * option Exception :=
  if tracked tr (model, app) then
    let statuses := <[(model, app) := status]> (status_matrix tr) in
    if truthy error_detail then
      (mkTracker (tracker_models tr) (tracker_apps tr) statuses
         (<[(model, app) := error_detail]> (error_details tr)),
       detail_logging error_detail)
    else
      (mkTracker (tracker_models tr) (tracker_apps tr) statuses (error_details tr), None)
  else (tr, None).

(** ** The runner *)

(** What the task function does on a pair: it returns a dictionary or
    raises an [Exception].  It is taken as a function of its pair: the
    attempts share nothing but the tracker, which they only write, so
    the order in which they are interleaved does not show in what they
    return. *)
Inductive task_outcome :=
| TaskReturns (result : gmap string pyval)
| TaskRaises (e : Exception).

Section Runner.

Variable repr_str : string -> string.

(** [traceback.format_exc()] in the handler of the exception. *)
Variable format_exc : Exception -> string.

(** The dictionary returned for a pair whose task raised. *)
Definition error_result (e : Exception) (model_name app_name : string)
    : gmap string pyval :=
  {[ "error" := VStr (exn_str e);
     "full_error" := VStr (format_exc e);
     "model" := VStr model_name;
     "app" := VStr app_name;
     "success" := VBool false ]}.

(** The [except Exception as e] handler of [_run_single_task]. *)
Definition on_exception (tr : ProgressTracker) (e : Exception)
    (model_name app_name : string) : ProgressTracker * gmap string pyval :=
  let full_error := format_exc e in
  let error_summary := exn_str e in
  let short_error := "❌ Failed: " ++ error_summary in
  let '(tr, _) :=
    update_status tr model_name app_name short_error
      (VStr (error_summary ++ "

Full traceback:
" ++ full_error)) in
  (tr, error_result e model_name app_name).

(** [_run_single_task], with the task function applied to its pair. *)
Definition _run_single_task (task_func : string -> string -> task_outcome)
    (model_name app_name : string) (tr : ProgressTracker)
    : ProgressTracker * gmap string pyval :=
  let '(tr, _) := update_status tr model_name app_name "🚀 Starting..." VNone in
  match task_func model_name app_name with
  | TaskRaises e => on_exception tr e model_name app_name
  | TaskReturns result =>
      if truthy (get result "success") then
        let '(tr, _) := update_status tr model_name app_name "✅ Done" VNone in
        (tr, result)
      else
        let error_msg := get_or result "error" (VStr "Unknown error") in
        let short_error := "❌ Failed: " ++ py_str repr_str error_msg in
        match update_status tr model_name app_name short_error error_msg with
        | (tr, None) => (tr, result)
        | (tr, Some e) => on_exception tr e model_name app_name
        end
  end.

(** What [_run_single_task] returns for a pair, from the outcome of the
    pair's task and whether the tracker tracks the pair. *)
Definition attempt_result (is_tracked : bool) (outcome : task_outcome)
    (model_name app_name : string) : gmap string pyval :=
  match outcome with
  | TaskRaises e => error_result e model_name app_name
  | TaskReturns result =>
      if truthy (get result "success") then result
      else
        let error_msg := get_or result "error" (VStr "Unknown error") in
        match (if is_tracked && truthy error_msg then detail_logging error_msg else None) with
        | Some e => error_result e model_name app_name
        | None => result
        end
  end.

(** The pairs a task is created for, in the order of the two loops. *)
Definition matrix (models apps : list string)
    (valid_combinations : option (list (string * string))) : list (string * string) :=
  model_name ← models;
  app_name ← apps;
  match valid_combinations with
  | Some valid => if bool_decide ((model_name, app_name) ∈ valid) then [(model_name, app_name)] else []
  | None => [(model_name, app_name)]
  end.

(** An entry of [results]. *)
Record entry := mkEntry {
  entry_model : string;
  entry_app : string;
  entry_result : gmap string pyval
}.

(** The tasks of the pairs, each run on the tracker the ones before it
    left, and their entries in the order of the pairs. *)
Fixpoint run_all (task_func : string -> string -> task_outcome)
    (pairs : list (string * string)) (tr : ProgressTracker)
    : ProgressTracker * list entry :=
  match pairs with
  | [] => (tr, [])
  | (model_name, app_name) :: rest =>
      let '(tr, result) := _run_single_task task_func model_name app_name tr in
      let '(tr, results) := run_all task_func rest tr in
      (tr, mkEntry model_name app_name result :: results)
  end.

(** An entry of [get_all_errors()]. *)
Record error_entry := mkError {
  error_model : string;
  error_app : string;
  error_error : pyval;
  error_status : string
}.

(** [get_all_errors]. *)
Definition get_all_errors (tr : ProgressTracker) : list error_entry :=
  model ← tracker_models tr;
  app ← tracker_apps tr;
  let detail := default VNone (error_details tr !! (model, app)) in
  if truthy detail then
    [mkError model app detail (default EmptyString (status_matrix tr !! (model, app)))]
  else [].

(** The dictionary [run_parallel_tasks] returns. *)
Record summary := mkSummary {
  stage : string;
  total_tasks : nat;
  successful_tasks : nat;
  failed_tasks : nat;
  results : list entry;
  errors : list error_entry
}.

(** [run_parallel_tasks]. *)
Definition run_parallel_tasks (models apps : list string)
    (task_func : string -> string -> task_outcome) (stage_name : string)
    (valid_combinations : option (list (string * string))) : summary :=
  let progress_tracker := new_tracker models apps in
  let '(progress_tracker, results) :=
    run_all task_func (matrix models apps valid_combinations) progress_tracker in
  let all_errors := get_all_errors progress_tracker in
  let successful_count :=
    length (filter (fun r => truthy (get (entry_result r) "success") = true) results) in
  let failed_count := (length results - successful_count)%nat in
  mkSummary stage_name (length results) successful_count failed_count results all_errors.

End Runner.

(** Whether the task of a pair raised. *)
Definition raised (o : task_outcome) : bool :=
  match o with
  | TaskRaises _ => true
  | TaskReturns _ => false
  end.

(** What the tracker keeps of a pair whose task raised [e]: the status
    and the detail that the handler of [_run_single_task] writes. *)
Definition failure_status (e : Exception) : string := "❌ Failed: " ++ exn_str e.

Definition failure_detail (format_exc : Exception -> string) (e : Exception) : pyval :=
  VStr (exn_str e ++ "

Full traceback:
" ++ format_exc e).

(** A task function that raises for the model [gpt5] and succeeds for
    every other model. *)
Definition flaky_task (model_name app_name : string) : task_outcome :=
  if String.eqb model_name "gpt5"
  then TaskRaises (mkExn OtherError "Connection error.")
  else TaskReturns {[ "success" := VBool true ]}.

End ParallelRunner.

(** * The failure analysis of the commenters: [agents/base_commenter.py] *)

Module BaseCommenter.
Import ModelClient.

(** [_get_actual_model_name]: [self.model_mapping.get(model_name, model_name)]
    with the mapping [{'qwen': 'qwen2.5-vl-72b'}]. *)
Definition _get_actual_model_name (model_name : string) : string :=
  if String.eqb model_name "qwen" then "qwen2.5-vl-72b" else model_name.

Section Analyze.

(** [str.strip] is the interpreter's (it knows the Unicode white space). *)
Variable strip : string -> string.

(** [response and len(response.strip()) > 30]. *)
Definition usable (response : option string) : bool :=
  match response with
  | Some r => nonempty_str r && (30 <? py_len (strip r))%nat
  | None => false
  end.

(** The loop [for attempt in range(max_retries)] with [max_retries = 5];
    [commenter attempt] is what [call_commenter] does on that attempt
    for the model, prompt and images it is given. *)
Fixpoint analysis_attempts (remaining : nat)
    (commenter : nat -> string -> string -> list string -> Exception + option string)
    (model_name prompt : string) (screenshot_inputs : list string) (attempt : nat)
    : list event * string :=
  match remaining with
  | O => ([], "Unable to analyze failure - no valid response received")
  | S remaining' =>
      let actual_model := _get_actual_model_name model_name in
      match commenter attempt actual_model prompt screenshot_inputs with
      | inr response =>
          if usable response then ([Request], strip (default EmptyString response))
          else
            let '(evs, r) :=
              analysis_attempts remaining' commenter model_name prompt screenshot_inputs
                (S attempt) in
            (Request :: evs, r)
      | inl e =>
          if (attempt =? 4)%nat then
            ([Request], "Failed to analyze failure after 5 attempts: " ++ exn_str e)
          else
            let '(evs, r) :=
              analysis_attempts remaining' commenter model_name prompt screenshot_inputs
                (S attempt) in
            (Request :: Sleep 1 :: evs, r)
      end
  end.

(** [analyze_single_failure].  [storyboard_exists] is
    [Path(storyboard_path).exists()]; [prepared] is what the screenshot
    capture followed by [_prepare_analysis_inputs] comes to: the prompt
    and the images, or the exception one of them raised. *)
Definition analyze_single_failure (storyboard_exists : bool)
    (prepared : Exception + (string * list string))
    (commenter : nat -> string -> string -> list string -> Exception + option string)
    (model_name : string) : list event * string :=
  if negb storyboard_exists then
    ([], "Storyboard image not found - cannot analyze failure")
  else
    match prepared with
    | inl e => ([], "Error analyzing failure trajectory: " ++ exn_str e)
    | inr (prompt, screenshot_inputs) =>
        analysis_attempts 5 commenter model_name prompt screenshot_inputs 0
    end.

End Analyze.

(** [strip] on text without white space at either end. *)
Definition strip_nothing (s : string) : string := s.

End BaseCommenter.

(** * The screenshot verifier: [agents/vlm_verifier.py] *)

Module VLMVerifier.
Import ModelClient.

(** The exceptions [verify] raises itself. *)
Definition invalid_mode : Exception :=
  mkExn OtherError "mode must be 'screenshot_only' or 'screenshot_expected'".

Definition expected_text_required : Exception :=
  mkExn OtherError "expected_text is required for screenshot_expected mode".

Definition verifier_failed : Exception :=
  mkExn RuntimeError "verifier failed after 5 attempts".

(** The schema checks on the parsed verdict. *)
Definition check_schema (parsed : gmap string pyval) : Exception + gmap string pyval :=
  if negb (in_strs (get parsed "verdict") ["pass"; "fail"]) then
    inl (mkExn OtherError "invalid verdict")
  else if negb (bool_decide (is_Some (parsed !! "confidence"))) then
    inl (mkExn OtherError "missing confidence")
  else if negb (bool_decide (is_Some (parsed !! "reason"))) then
    inl (mkExn OtherError "missing reason")
  else if negb (bool_decide (is_Some (parsed !! "used_screenshots"))) then
    inl (mkExn OtherError "missing used_screenshots")
  else inr parsed.

Section Verify.

(** [_parse_verdict_json] followed by the first [parsed.get]: the JSON
    object of the response, or the exception raised on a response that
    holds none. *)
Variable parse_verdict : string -> Exception + gmap string pyval.

(** The body of the [try] on one attempt. *)
Definition attempt_verdict (answer : Exception + string) : Exception + gmap string pyval :=
  response_text ← answer;
  parsed ← parse_verdict response_text;
  check_schema parsed.

(** The loop [for attempt in range(5)] and the [raise] that follows it. *)
Fixpoint verify_attempts (remaining : nat) (service : nat -> Exception + string)
    (attempt : nat) (last_error : option Exception)
    : list event * (Exception + gmap string pyval) :=
  match remaining with
  | O => ([], inl (default verifier_failed last_error))
  | S remaining' =>
      match attempt_verdict (service attempt) with
      | inr parsed => ([Request], inr parsed)
      | inl e =>
          let '(evs, r) := verify_attempts remaining' service (S attempt) (Some e) in
          (Request :: evs, r)
      end
  end.

(** [verify].  [expected_text] is [None] when it is not given;
    [images_error] is the exception that preparing the images raised,
    if it raised one. *)
Definition verify (mode : string) (expected_text : option string)
    (images_error : option Exception) (service : nat -> Exception + string)
    : list event * (Exception + gmap string pyval) :=
  if negb (String.eqb mode "screenshot_only" || String.eqb mode "screenshot_expected") then
    ([], inl invalid_mode)
  else if negb (String.eqb mode "screenshot_only")
          && negb (nonempty_str (default EmptyString expected_text)) then
    ([], inl expected_text_required)
  else
    match images_error with
    | Some e => ([], inl e)
    | None => verify_attempts 5 service 0 None
    end.

End Verify.

End VLMVerifier.

(** * Run keys: [utils/run_key.py] *)

Module RunKey.

(** [s.replace(old, new)] for two one-character strings. *)
Fixpoint replace (old new : ascii) (s : string) : string :=
  match s with
  | EmptyString => EmptyString
  | String c rest => String (if Ascii.eqb c old then new else c) (replace old new rest)
  end.

(** [_slug_v0]. *)
Definition _slug_v0 (v0_dir : string) : string :=
  if negb (nonempty_str v0_dir) then "default"
  else replace " " "-" (replace "/" "_" v0_dir).

(** [build_run_key]. *)
Definition build_run_key (revision_type commenter v0_dir : string) : string :=
  "rev-" ++ revision_type ++ "__commenter-" ++ commenter ++ "__v0-" ++ _slug_v0 v0_dir.

End RunKey.

(** * Incremental progress files: [ParallelRunner.save_incremental_progress] *)

Module IncrementalProgress.

(** An entry of [completed_tasks] in [summary.json]: a bare task id, or
    a record (a JSON object). *)
Inductive completed_task :=
| TaskId (task_id : string)
| TaskRecord (fields : gmap string pyval).

(** The progress directory of one stage: the task files by name, and
    the [completed_tasks] of [summary.json] when that file exists.  A
    summary that exists is taken to be one this function wrote, or a
    list of bare ids: an object whose [completed_tasks] is a list of
    such entries.  What else the object holds is written back as
    read. *)
Record progress_dir := mkProgress {
  task_files : gmap string (gmap string pyval);
  summary_file : option (list completed_task)
}.

(** [f"{model_name}_{app_name}"]. *)
Definition task_id_of (model_name app_name : string) : string :=
  model_name ++ "_" ++ app_name.

(** [t != task_id], with [task_id] a string: an object never equals
    a string. *)
Definition differs (t : completed_task) (task_id : string) : bool :=
  match t with
  | TaskId s => negb (String.eqb s task_id)
  | TaskRecord _ => true
  end.

(** The record appended for the task. *)
Definition new_record (task_id : string) (data : gmap string pyval) : gmap string pyval :=
  if truthy (get data "error") then
    {[ "task_id" := VStr task_id; "status" := VStr "failed";
       "error" := get data "error"; "full_error" := get data "full_error" ]}
  else
    {[ "task_id" := VStr task_id; "status" := VStr "success" ]}.

(** [save_incremental_progress], on the directory its [stage_name] and
    [base_dir] select. *)
Definition save_incremental_progress (dir : progress_dir) (model_name app_name : string)
    (data : gmap string pyval) : progress_dir :=
  let task_file := model_name ++ "_" ++ app_name ++ ".json" in
  let files := <[task_file := data]> (task_files dir) in
  let completed_tasks :=
    match summary_file dir with
    | Some completed_tasks => completed_tasks
    | None => []
    end in
  let task_id := task_id_of model_name app_name in
  let completed_tasks := List.filter (fun t => differs t task_id) completed_tasks in
  mkProgress files (Some (completed_tasks ++ [TaskRecord (new_record task_id data)])%list).

(** A run of saves, one after the other. *)
Definition save_all (dir : progress_dir)
    (saves : list (string * string * gmap string pyval)) : progress_dir :=
  foldl (fun dir '(model_name, app_name, data) =>
           save_incremental_progress dir model_name app_name data) dir saves.

(** The record a save leaves in the summary. *)
Definition record_of (save : string * string * gmap string pyval) : completed_task :=
  let '(model_name, app_name, data) := save in
  TaskRecord (new_record (task_id_of model_name app_name) data).

Definition is_record (t : completed_task) : bool :=
  match t with
  | TaskRecord _ => true
  | TaskId _ => false
  end.

Definition completed_tasks (dir : progress_dir) : list completed_task :=
  default [] (summary_file dir).

End IncrementalProgress.

(** * The counts and the grid pages of the tracker: [utils/progress_tracker.py] *)

Module ProgressViews.
Import ParallelRunner.

(** What [get_summary] returns. *)
Record status_counts := mkCounts {
  count_total : Z;
  count_completed : Z;
  count_failed : Z;
  count_running : Z
}.

(** The two loops of [get_summary] over the pairs of a model and an
    app; [None] stands for the [KeyError] of a pair that the matrix
    does not hold. *)
Fixpoint tally (statuses : gmap (string * string) string) (pairs : list (string * string))
    (completed failed : Z) : option (Z * Z) :=
  match pairs with
  | [] => Some (completed, failed)
  | key :: rest =>
      match statuses !! key with
      | None => None
      | Some status =>
          if py_in "✅" status then tally statuses rest (completed + 1) failed
          else if py_in "❌" status then tally statuses rest completed (failed + 1)
          else tally statuses rest completed failed
      end
  end.

(** [get_summary]. *)
Definition get_summary (tr : ProgressTracker) : option status_counts :=
  let total := (Z.of_nat (length (tracker_models tr)) * Z.of_nat (length (tracker_apps tr)))%Z in
  match tally (status_matrix tr)
          (model ← tracker_models tr; app ← tracker_apps tr; [(model, app)]) 0 0 with
  | None => None
  | Some (completed, failed) =>
      Some (mkCounts total completed failed (total - completed - failed))
  end.

(** A run of [update_status] calls; a call that raises has written the
    status before it does. *)
Definition update_all (tr : ProgressTracker)
    (updates : list (string * string * string * pyval)) : ProgressTracker :=
  foldl (fun tr '(model, app, status, error_detail) =>
           (update_status tr model app status error_detail).1) tr updates.

(** The status the matrix holds for a pair. *)
Definition status_of (tr : ProgressTracker) (key : string * string) : string :=
  default EmptyString (status_matrix tr !! key).

(** ** The pages of the grid, from [_display_matrix] *)

Definition model_col_width : Z := 12.

Definition base_col_width : Z := 18.

Definition col_width : Z := Z.max 12 (Z.min 28 base_col_width).

(** [max(1, available_width // col_width)]. *)
Definition apps_per_page (term_cols : Z) : Z :=
  let available_width := Z.max 20 (term_cols - model_col_width - 2) in
  Z.max 1 (available_width / col_width).

(** [[a for a in self.apps if a != "BATCH"]]. *)
Definition display_apps_all (apps : list string) : list string :=
  List.filter (fun a => negb (String.eqb a "BATCH")) apps.

Definition total_pages (term_cols : Z) (apps : list string) : Z :=
  let total_apps := Z.of_nat (length (display_apps_all apps)) in
  if (total_apps =? 0)%Z then 1%Z
  else Z.max 1 ((total_apps + apps_per_page term_cols - 1) / apps_per_page term_cols).

(** [l[start:stop]] for indices that are not negative. *)
Definition slice {A} (start stop : Z) (l : list A) : list A :=
  take (Z.to_nat stop - Z.to_nat start) (drop (Z.to_nat start) l).

(** The apps of the page shown when the page counter is [page_index];
    the counter starts at 0 and is only ever incremented or reset to
    0. *)
Definition visible_apps (term_cols : Z) (page_index : nat) (apps : list string)
    : list string :=
  let total_apps := Z.of_nat (length (display_apps_all apps)) in
  let page_index := if (total_pages term_cols apps =? 1)%Z then 0%Z else Z.of_nat page_index in
  let page := (page_index mod total_pages term_cols apps)%Z in
  let start_idx := (page * apps_per_page term_cols)%Z in
  let end_idx := Z.min total_apps (start_idx + apps_per_page term_cols) in
  slice start_idx end_idx (display_apps_all apps).

End ProgressViews.

(** * Key presses of the browser controller: [utils/browser.py] *)

Module Browser.

(** The calls on the keyboard of the page. *)
Inductive key_call :=
| KeyDown (key : string)
| KeyPress (key : string)
| KeyUp (key : string).

(** The [key_mapping] of [_map_key_name]. *)
Definition key_mapping : gmap string string :=
  list_to_map
    [ ("arrowleft", "ArrowLeft"); ("arrowright", "ArrowRight"); ("arrowup", "ArrowUp");
      ("arrowdown", "ArrowDown"); ("left", "ArrowLeft"); ("right", "ArrowRight");
      ("up", "ArrowUp"); ("down", "ArrowDown");
      ("space", "Space"); ("enter", "Enter"); ("return", "Enter"); ("tab", "Tab");
      ("escape", "Escape"); ("backspace", "Backspace"); ("delete", "Delete");
      ("shift", "Shift"); ("ctrl", "Control"); ("control", "Control"); ("alt", "Alt");
      ("meta", "Meta"); ("cmd", "Meta"); ("home", "Home"); ("end", "End");
      ("pageup", "PageUp"); ("pagedown", "PageDown"); ("insert", "Insert") ].

Section Keys.

(** [str.lower], [str.isdigit] and [int] of a string are the
    interpreter's: they know the letters and digits of Unicode, and
    [int] raises on a digit that is not a decimal one. *)
Variable str_lower : string -> string.
Variable isdigit : string -> bool.
Variable int_of_str : string -> Exception + Z.

(** [_map_key_name]. *)
Definition _map_key_name (key : string) : Exception + string :=
  let lk := str_lower key in
  let mapped := default key (key_mapping !! lk) in
  match lk with
  | String "f" rest =>
      if isdigit rest then
        n ← int_of_str rest;
        if (1 <=? n)%Z && (n <=? 12)%Z then inr ("F" ++ str_int n) else inr mapped
      else inr mapped
  | _ => inr mapped
  end.

(** [[self._map_key_name(key) for key in keys]]. *)
Fixpoint map_keys (keys : list string) : Exception + list string :=
  match keys with
  | [] => inr []
  | key :: rest =>
      mapped ← _map_key_name key;
      mapped_rest ← map_keys rest;
      inr (mapped :: mapped_rest)
  end.

(** What a call on the keyboard raises, if it raises, after the calls
    made before it. *)
Variable keyboard : list key_call -> key_call -> option Exception.

(** Calls made one after the other until one raises: the calls made,
    the raising one included, and what was raised. *)
Fixpoint perform (made calls : list key_call) : list key_call * option Exception :=
  match calls with
  | [] => (made, None)
  | call :: rest =>
      match keyboard made call with
      | Some e => ((made ++ [call])%list, Some e)
      | None => perform (made ++ [call])%list rest
      end
  end.

(** [mapped_keys[:-1]] and [mapped_keys[-1]] of a list that is not
    empty. *)
Definition modifiers (mapped_keys : list string) : list string := removelast mapped_keys.

Definition last_key (mapped_keys : list string) : string := List.last mapped_keys EmptyString.

(** The calls of [press_keys] when none raises. *)
Definition key_calls (mapped_keys : list string) : list key_call :=
  (map KeyDown (modifiers mapped_keys)
   ++ [KeyPress (last_key mapped_keys)]
   ++ map KeyUp (rev (modifiers mapped_keys)))%list.

(** [press_keys]: the calls made on the keyboard and the result. *)
Definition press_keys (keys : list string) : list key_call * (Exception + gmap string pyval) :=
  match keys with
  | [] => ([], inr {[ "success" := VBool false; "error" := VStr "No keys provided" ]})
  | _ =>
      match map_keys keys with
      | inl e => ([], inl e)
      | inr mapped_keys =>
          match perform [] (key_calls mapped_keys) with
          | (made, Some e) => (made, inl e)
          | (made, None) =>
              (made, inr {[ "success" := VBool true;
                            "message" := VStr ("Pressed keys: " ++ join " + " keys) ]})
          end
      end
  end.

End Keys.

(** The keys that are down after a run of calls on a keyboard with the
    keys [held] down, the last one pressed first. *)
Fixpoint release (key : string) (held : list string) : list string :=
  match held with
  | [] => []
  | k :: rest => if String.eqb k key then rest else k :: release key rest
  end.

Fixpoint held_after (held : list string) (calls : list key_call) : list string :=
  match calls with
  | [] => held
  | KeyDown key :: rest => held_after (key :: held) rest
  | KeyPress _ :: rest => held_after held rest
  | KeyUp key :: rest => held_after (release key held) rest
  end.

End Browser.

(** * Storyboard layout: [utils/storyboard_generator.py] *)

Module Storyboard.

(** ** Python's floats: IEEE 754 binary64 *)

(** [float(z)] for an int: the nearest double, ties to even;
    [OverflowError] when that is beyond the largest double. *)
Definition float_of_int (z : Z) : Exception + float :=
  let f := SF2Prim (binary_normalize prec emax z 0 false) in
  if PrimFloat.is_infinity f then
    inl (mkExn OtherError "int too large to convert to float")
  else inr f.

(** [int(f)]: the integer part, towards zero. *)
Definition int_of_float (f : float) : Exception + Z :=
  match Prim2SF f with
  | S754_zero _ => inr 0%Z
  | S754_finite s m e =>
      let magnitude :=
        if (0 <=? e)%Z then (Z.pos m * 2 ^ e)%Z else (Z.pos m / 2 ^ (- e))%Z in
      inr (if s then (- magnitude)%Z else magnitude)
  | S754_infinity _ => inl (mkExn OtherError "cannot convert float infinity to integer")
  | S754_nan => inl (mkExn OtherError "cannot convert float NaN to integer")
  end.

(** [a / b] on two ints.  The ints divided in this file are below
    2^53, where the quotient of the two doubles is the correctly
    rounded quotient that Python computes. *)
Definition true_div (a b : Z) : Exception + float :=
  if (b =? 0)%Z then inl (mkExn OtherError "division by zero")
  else
    x ← float_of_int a;
    y ← float_of_int b;
    inr (PrimFloat.div x y).

(** [a // b] on two ints. *)
Definition floor_div (a b : Z) : Exception + Z :=
  if (b =? 0)%Z then inl (mkExn OtherError "integer division or modulo by zero")
  else inr (a / b)%Z.

(** [int(z * f)] and [int(z / f)] for an int and a float. *)
Definition int_times (z : Z) (f : float) : Exception + Z :=
  x ← float_of_int z;
  int_of_float (PrimFloat.mul x f).

Definition int_over (z : Z) (f : float) : Exception + Z :=
  x ← float_of_int z;
  if PrimFloat.is_zero f then inl (mkExn OtherError "float division by zero")
  else int_of_float (PrimFloat.div x f).

(** ** The generator's constants *)

Definition max_canvas_width : Z := 1920.
Definition max_canvas_height : Z := 1080.
Definition header_height : Z := 120.
Definition text_height : Z := 75.
Definition margin : Z := 12.

(** [16 / 9]. *)
Definition target_ratio : float := PrimFloat.div 16 9.

(** The layout tuple
    [(cols, rows, screenshot_width, screenshot_height, total_width, total_height)]. *)
Record layout := mkLayout {
  grid_cols : Z;
  grid_rows : Z;
  screenshot_width : Z;
  screenshot_height : Z;
  total_width : Z;
  total_height : Z
}.

(** The size of a screenshot in a cell of at most
    [max_screenshot_width] by [max_screenshot_height]: the lines that
    choose it by the aspect ratio, which the search and the default
    layout share. *)
Definition choose_size (max_screenshot_width max_screenshot_height : Z) : Exception + (Z * Z) :=
  ratio ← true_div max_screenshot_width max_screenshot_height;
  if PrimFloat.ltb target_ratio ratio then
    let screenshot_height := max_screenshot_height in
    screenshot_width ← int_times screenshot_height target_ratio;
    inr (screenshot_width, screenshot_height)
  else
    let screenshot_width := max_screenshot_width in
    screenshot_height ← int_over screenshot_width target_ratio;
    inr (screenshot_width, screenshot_height).

(** One turn of the search loop, for [cols] columns. *)
Definition try_cols (num_screenshots : Z) (best : option layout * Z) (cols : Z)
    : Exception + (option layout * Z) :=
  rows ← floor_div (num_screenshots + cols - 1) cols;
  if (6 <? rows)%Z then inr best
  else
    let available_width := (max_canvas_width - margin * (cols - 1))%Z in
    let available_height :=
      (max_canvas_height - header_height - margin * (rows - 1) - text_height * rows)%Z in
    max_screenshot_width ← floor_div available_width cols;
    max_screenshot_height ← floor_div available_height rows;
    '(screenshot_width, screenshot_height) ←
      choose_size max_screenshot_width max_screenshot_height;
    if (screenshot_width <? 50)%Z || (screenshot_height <? 28)%Z then inr best
    else
      let total_width := ((screenshot_width + margin) * cols - margin)%Z in
      let total_height :=
        (header_height + (screenshot_height + text_height + margin) * rows - margin)%Z in
      if (total_width <=? max_canvas_width)%Z && (total_height <=? max_canvas_height)%Z then
        let screenshot_area := (screenshot_width * screenshot_height)%Z in
        if (best.2 <? screenshot_area)%Z then
          inr (Some (mkLayout cols rows screenshot_width screenshot_height
                       total_width total_height), screenshot_area)
        else inr best
      else inr best.

(** [range(1, stop)]. *)
Definition range_from_1 (stop : Z) : list Z :=
  map (fun i => Z.of_nat (S i)) (seq 0 (Z.to_nat (stop - 1))).

(** The search loop. *)
Fixpoint search (num_screenshots : Z) (best : option layout * Z) (colss : list Z)
    : Exception + (option layout * Z) :=
  match colss with
  | [] => inr best
  | cols :: rest =>
      best' ← try_cols num_screenshots best cols;
      search num_screenshots best' rest
  end.

(** [x * scale] truncated, for the scaled default layout. *)
Definition scaled (z : Z) (scale : float) : Exception + Z := int_times z scale.

(** The default layout, taken when the search finds none. *)
Definition default_layout (num_screenshots : Z) : Exception + layout :=
  let cols := if (10 <? num_screenshots)%Z then Z.min 5 num_screenshots else 5%Z in
  rows ← (if (10 <? num_screenshots)%Z then floor_div (num_screenshots + cols - 1) cols
          else inr 2%Z);
  let available_width := (max_canvas_width - margin * (cols - 1))%Z in
  let available_height :=
    (max_canvas_height - header_height - margin * (rows - 1) - text_height * rows)%Z in
  max_screenshot_width ← floor_div available_width cols;
  max_screenshot_height ← floor_div available_height rows;
  '(screenshot_width, screenshot_height) ←
    choose_size max_screenshot_width max_screenshot_height;
  let total_width := ((screenshot_width + margin) * cols - margin)%Z in
  let total_height :=
    (header_height + (screenshot_height + text_height + margin) * rows - margin)%Z in
  if (max_canvas_width <? total_width)%Z || (max_canvas_height <? total_height)%Z then
    width_scale ← (if (max_canvas_width <? total_width)%Z
                   then true_div max_canvas_width total_width else inr 1%float);
    height_scale ← (if (max_canvas_height <? total_height)%Z
                    then true_div max_canvas_height total_height else inr 1%float);
    let scale := if PrimFloat.ltb height_scale width_scale then height_scale else width_scale in
    screenshot_width' ← scaled screenshot_width scale;
    screenshot_height' ← scaled screenshot_height scale;
    total_width' ← scaled total_width scale;
    total_height' ← scaled total_height scale;
    inr (mkLayout cols rows screenshot_width' screenshot_height' total_width' total_height')
  else
    inr (mkLayout cols rows screenshot_width screenshot_height total_width total_height).

(** [_calculate_optimal_grid]. *)
Definition _calculate_optimal_grid (num_screenshots : Z) : Exception + layout :=
  found ← search num_screenshots (None, 0%Z) (range_from_1 (Z.min (num_screenshots + 1) 10));
  match found.1 with
  | Some best_layout => inr best_layout
  | None => default_layout num_screenshots
  end.

(** The corner of the cell of a step in [_draw_screenshot_grid]:
    [x = col * (screenshot_width + margin)] and
    [y = header_height + row * (screenshot_height + text_height + margin)]
    for [step_idx = row * grid_cols + col]. *)
Definition cell_corner (l : layout) (row col : Z) : Z * Z :=
  ((col * (screenshot_width l + margin))%Z,
   (header_height + row * (screenshot_height l + text_height + margin))%Z).

(** What the layout of [num_screenshots] screenshots is to satisfy. *)
Definition layout_fits (num_screenshots : Z) (l : layout) : bool :=
  (1 <=? grid_cols l)%Z && (grid_cols l <=? 9)%Z
  && (1 <=? grid_rows l)%Z && (grid_rows l <=? 6)%Z
  && (num_screenshots <=? grid_cols l * grid_rows l)%Z
  && (50 <=? screenshot_width l)%Z && (28 <=? screenshot_height l)%Z
  && (total_width l =? (screenshot_width l + margin) * grid_cols l - margin)%Z
  && (total_height l =? header_height
                        + (screenshot_height l + text_height + margin) * grid_rows l
                        - margin)%Z
  && (total_width l <=? max_canvas_width)%Z
  && (total_height l <=? max_canvas_height)%Z.

Definition grid_fits (num_screenshots : Z) : bool :=
  match _calculate_optimal_grid num_screenshots with
  | inr l => layout_fits num_screenshots l
  | inl _ => false
  end.

(** ** The crop of a screenshot around the action *)

Record crop_info := mkCrop {
  crop_left : Z;
  crop_top : Z;
  crop_width : Z;
  crop_height : Z
}.

(** [_crop_viewport_screenshot_with_action] for an image of [width] by
    [height] pixels, with [self.screenshot_width] and
    [self.screenshot_height] as set from the layout, and an action
    coordinate in whole pixels: the [crop_info] it returns, which is
    the box it crops.  [0x1.3333333333333p-1] is the double of
    [0.6]. *)
Definition _crop_viewport_screenshot_with_action (self_screenshot_width self_screenshot_height : Z)
    (width height : Z) (action_coord : option (Z * Z)) : Exception + crop_info :=
  let base_crop_factor :=
    if (300 <? self_screenshot_width)%Z then 0x1.3333333333333p-1%float else 0.5%float in
  let target_crop_width := Z.min width (self_screenshot_width * 2) in
  let target_crop_height := Z.min height (self_screenshot_height * 2) in
  scaled_width ← int_times width base_crop_factor;
  let crop_width := Z.max target_crop_width scaled_width in
  scaled_height ← int_times height base_crop_factor;
  let crop_height := Z.max target_crop_height scaled_height in
  let crop_width := Z.min crop_width width in
  let crop_height := Z.min crop_height height in
  let left := ((width - crop_width) / 2)%Z in
  let top := ((height - crop_height) / 2)%Z in
  match action_coord with
  | Some (action_x, action_y) =>
      if (action_x <? left)%Z || (left + crop_width <? action_x)%Z
         || (action_y <? top)%Z || (top + crop_height <? action_y)%Z then
        let new_left := Z.max 0 (Z.min (width - crop_width) (action_x - crop_width / 2)) in
        let new_top := Z.max 0 (Z.min (height - crop_height) (action_y - crop_height / 2)) in
        inr (mkCrop new_left new_top crop_width crop_height)
      else inr (mkCrop left top crop_width crop_height)
  | None => inr (mkCrop left top crop_width crop_height)
  end.

(** The test of [_draw_action_annotation_with_crop_info] that the
    action lies in the crop:
    [0 <= crop_x <= crop_info['width'] and 0 <= crop_y <= crop_info['height']]. *)
Definition in_crop (info : crop_info) (action_x action_y : Z) : bool :=
  let crop_x := (action_x - crop_left info)%Z in
  let crop_y := (action_y - crop_top info)%Z in
  (0 <=? crop_x)%Z && (crop_x <=? crop_width info)%Z
  && (0 <=? crop_y)%Z && (crop_y <=? crop_height info)%Z.

(** Whether both crop factors can be applied to a side of [side]
    pixels, and to each of the [count] sides from [side] on. *)
Definition side_scales (side : Z) : bool :=
  match int_times side 0x1.3333333333333p-1%float, int_times side 0.5%float with
  | inr _, inr _ => true
  | _, _ => false
  end.

Fixpoint sides_scale (count : nat) (side : Z) : bool :=
  match count with
  | O => true
  | S count' => side_scales side && sides_scale count' (side + 1)
  end.

(** Whether the layouts of [count] numbers of screenshots from
    [num_screenshots] on fit. *)
Fixpoint grids_fit (count : nat) (num_screenshots : Z) : bool :=
  match count with
  | O => true
  | S count' => grid_fits num_screenshots && grids_fit count' (num_screenshots + 1)
  end.

End Storyboard.

(** * Properties *)

Section GatewayFacts.
Import ModelClient.

Implicit Types (model_config : gmap string pyval) (service : nat -> outcome).

Lemma not_local_max_retries model_config :
  is_local model_config = false -> max_retries model_config = Some 5%nat.
Proof. unfold max_retries. by intros ->. Qed.

(** One turn of the loop on a response. *)
Lemma retry_loop_responds fuel model_config service attempt content :
  service attempt = Responds content ->
  retry_loop (S fuel) model_config service attempt = Some ([Request], Returned content).
Proof. simpl. by intros ->. Qed.

(** One turn of the loop of a remote model on a rate-limit error while
    retries remain. *)
Lemma retry_loop_rate_limited fuel model_config service attempt e :
  is_local model_config = false ->
  service attempt = Raises e ->
  _is_rate_limit_error e = true ->
  (attempt < 5)%nat ->
  retry_loop (S fuel) model_config service attempt =
    '(evs, r) ← retry_loop fuel model_config service (S attempt);
    Some (Request :: Sleep 2 :: evs, r).
Proof.
  intros Hremote Hsvc Hrl Hlt. simpl.
  rewrite Hsvc, Hremote, Hrl, (not_local_max_retries _ Hremote).
  replace (le_max (S attempt) (Some 5%nat)) with true; [done |].
  symmetry. apply Nat.leb_le. lia.
Qed.

(** One turn of the loop of a remote model on an error that ends it. *)
Lemma retry_loop_gives_up fuel model_config service attempt e :
  is_local model_config = false ->
  service attempt = Raises e ->
  _is_rate_limit_error e = false \/ (5 <= attempt)%nat ->
  retry_loop (S fuel) model_config service attempt = Some ([Request], Raised e).
Proof.
  intros Hremote Hsvc Hend. simpl.
  rewrite Hsvc, Hremote, (not_local_max_retries _ Hremote).
  destruct Hend as [-> | Hge]; [done |].
  replace (le_max (S attempt) (Some 5%nat)) with false; [by rewrite andb_false_r |].
  symmetry. apply Nat.leb_gt. lia.
Qed.










(** C2: for a remote model whose first four requests raise rate-limit
    errors and whose fifth responds, [call_model] returns that response
    after five requests; when six requests in a row raise rate-limit
    errors, [call_model] raises the sixth error and makes no seventh
    request. *)
Theorem remote_rate_limit_retries model_config service (fuel : nat) :
  is_local model_config = false ->
  (6 <= fuel)%nat ->
  (forall content,
     (forall k, (k < 4)%nat ->
        exists e, service k = Raises e /\ _is_rate_limit_error e = true) ->
     service 4%nat = Responds content ->
     exists evs,
       call_model fuel model_config service = Some (evs, Returned content)
       /\ requests evs = 5%nat)
  /\ ((forall k, (k < 6)%nat ->
         exists e, service k = Raises e /\ _is_rate_limit_error e = true) ->
      exists evs e,
        service 5%nat = Raises e
        /\ call_model fuel model_config service = Some (evs, Raised e)
        /\ requests evs = 6%nat).
Proof.
  intros Hremote Hfuel.
  do 6 (destruct fuel as [|fuel]; [lia |]). clear Hfuel.
  unfold call_model. split.
  - intros content Herrs Hok.
    destruct (Herrs 0%nat) as (e0 & H0 & R0); [lia |].
    destruct (Herrs 1%nat) as (e1 & H1 & R1); [lia |].
    destruct (Herrs 2%nat) as (e2 & H2 & R2); [lia |].
    destruct (Herrs 3%nat) as (e3 & H3 & R3); [lia |].
    rewrite (retry_loop_rate_limited _ _ _ _ _ Hremote H0 R0) by lia.
    rewrite (retry_loop_rate_limited _ _ _ _ _ Hremote H1 R1) by lia.
    rewrite (retry_loop_rate_limited _ _ _ _ _ Hremote H2 R2) by lia.
    rewrite (retry_loop_rate_limited _ _ _ _ _ Hremote H3 R3) by lia.
    rewrite (retry_loop_responds _ _ _ _ _ Hok). simpl. eauto.
  - intros Herrs.
    destruct (Herrs 0%nat) as (e0 & H0 & R0); [lia |].
    destruct (Herrs 1%nat) as (e1 & H1 & R1); [lia |].
    destruct (Herrs 2%nat) as (e2 & H2 & R2); [lia |].
    destruct (Herrs 3%nat) as (e3 & H3 & R3); [lia |].
    destruct (Herrs 4%nat) as (e4 & H4 & R4); [lia |].
    destruct (Herrs 5%nat) as (e5 & H5 & R5); [lia |].
    rewrite (retry_loop_rate_limited _ _ _ _ _ Hremote H0 R0) by lia.
    rewrite (retry_loop_rate_limited _ _ _ _ _ Hremote H1 R1) by lia.
    rewrite (retry_loop_rate_limited _ _ _ _ _ Hremote H2 R2) by lia.
    rewrite (retry_loop_rate_limited _ _ _ _ _ Hremote H3 R3) by lia.
    rewrite (retry_loop_rate_limited _ _ _ _ _ Hremote H4 R4) by lia.
    rewrite (retry_loop_gives_up _ _ _ _ _ Hremote H5) by (right; lia).
    simpl. eauto.
Qed.

(** The loop of a remote model, started with [attempt] failures behind
    it: it ends within the requests that remain of the six, sleeps two
    seconds before every retry, retries only rate-limit errors, and ends
    on the first request that responds, that raises another error, or
    that is the sixth. *)
Lemma retry_loop_remote_run model_config service :
  is_local model_config = false ->
  forall fuel attempt,
  (attempt <= 5)%nat ->
  (6 <= attempt + fuel)%nat ->
  exists evs r n,
    retry_loop fuel model_config service attempt = Some (evs, r)
    /\ requests evs = S n
    /\ (attempt + n <= 5)%nat
    /\ sleeps evs = replicate n 2%Q
    /\ (forall k, (k < n)%nat ->
          exists e, service (attempt + k)%nat = Raises e
                    /\ _is_rate_limit_error e = true)
    /\ r = final_result (service (attempt + n)%nat)
    /\ (forall e, service (attempt + n)%nat = Raises e ->
          _is_rate_limit_error e = false \/ (attempt + n = 5)%nat).
Proof.
  intros Hremote. induction fuel as [|fuel IH]; intros attempt Hle Hfuel; [lia |].
  destruct (service attempt) as [content | e] eqn:Hsvc.
  { exists [Request], (Returned content), 0%nat.
    rewrite (retry_loop_responds _ _ _ _ _ Hsvc), Nat.add_0_r, Hsvc.
    repeat split; try done; try lia. }
  destruct (_is_rate_limit_error e) eqn:Hrl; [destruct (decide (attempt = 5%nat)) as [-> | Hne] |].
  - exists [Request], (Raised e), 0%nat.
    rewrite (retry_loop_gives_up _ _ _ _ _ Hremote Hsvc) by (right; lia).
    simpl. rewrite Hsvc. repeat split; try done; try lia.
  - destruct (IH (S attempt)) as (evs & r & n & Hrun & Hreq & Hn & Hsl & Herrs & Hr & Hlast);
      [lia | lia |].
    exists (Request :: Sleep 2 :: evs), r, (S n).
    rewrite (retry_loop_rate_limited _ _ _ _ _ Hremote Hsvc Hrl) by lia.
    rewrite Hrun. simpl. rewrite Hreq, Hsl, Nat.add_succ_r.
    repeat split; try done; try lia.
    intros [|k] Hk.
    + exists e. by rewrite Nat.add_0_r.
    + destruct (Herrs k) as (e' & He' & Hrl'); [lia |].
      exists e'. by rewrite Nat.add_succ_r.
  - exists [Request], (Raised e), 0%nat.
    rewrite (retry_loop_gives_up _ _ _ _ _ Hremote Hsvc) by (by left).
    rewrite Nat.add_0_r, Hsvc. repeat split; try done; try lia.
    intros e' [= <-]. by left.
Qed.

(** C3, as the code has it: for a remote model [call_model] makes at
    most six requests (five retries); a retry follows a rate-limit error
    only, after a sleep of two seconds every time; the first error that
    is not a rate-limit error is raised at once, and so is the sixth
    rate-limit error in a row. *)
Theorem remote_model_bounded_retries model_config service (fuel : nat) :
  is_local model_config = false ->
  (6 <= fuel)%nat ->
  exists evs r n,
    call_model fuel model_config service = Some (evs, r)
    /\ requests evs = S n
    /\ (S n <= 6)%nat
    /\ sleeps evs = replicate n 2%Q
    /\ (forall k, (k < n)%nat ->
          exists e, service k = Raises e /\ _is_rate_limit_error e = true)
    /\ r = final_result (service n)
    /\ (forall e, service n = Raises e ->
          _is_rate_limit_error e = false \/ n = 5%nat).
Proof.
  intros Hremote Hfuel.
  destruct (retry_loop_remote_run _ service Hremote fuel 0%nat)
    as (evs & r & n & Hrun & Hreq & Hn & Hsl & Herrs & Hr & Hlast); [lia | lia |].
  exists evs, r, n. simpl in *. repeat split; try done; lia.
Qed.

End GatewayFacts.

Section DecoderFacts.
Import OperatorCUAPolicy.

Variable repr_str : string -> string.

Implicit Types (openai_action : gmap string pyval) (t : pyval).

Lemma eq_str_true t literal : eq_str t literal = true <-> t = VStr literal.
Proof.
  unfold eq_str. destruct t; simpl; try (split; [done | by intros [=]]).
  rewrite String.eqb_eq. split; [by intros -> | by intros [= ->]].
Qed.

Lemma in_strs_cons t literal rest :
  in_strs t (literal :: rest) = eq_str t literal || in_strs t rest.
Proof. done. Qed.

Lemma in_strs_nil t : in_strs t [] = false.
Proof. done. Qed.

Lemma hasattr_Some openai_action k v :
  openai_action !! k = Some v -> hasattr openai_action k = true.
Proof. intros H. unfold hasattr. apply bool_decide_eq_true. by rewrite H. Qed.

Lemma hasattr_None openai_action k :
  openai_action !! k = None -> hasattr openai_action k = false.
Proof.
  intros H. unfold hasattr. apply bool_decide_eq_false. rewrite H. by intros [? ?].
Qed.

Lemma get_Some (d : gmap string pyval) k v : d !! k = Some v -> get d k = v.
Proof. unfold get. by intros ->. Qed.


Lemma getattr_None openai_action k dflt :
  openai_action !! k = None -> getattr openai_action k dflt = dflt.
Proof. unfold getattr. by intros ->. Qed.

(** The decoder on an object whose [type] is the string [literal]. *)
Ltac decode_type Ht :=
  unfold _convert_openai_action_to_internal;
  rewrite (hasattr_Some _ _ _ Ht), (get_Some _ _ _ Ht);
  cbn [negb]; unfold in_strs; cbn [existsb].

(** C10: for a click, a double click, a right click and a move, a
    missing [x] or [y] does not make the decoder fail: it returns the
    action with 0 in place of each absent coordinate, so that an object
    with neither is decoded to the point (0, 0). *)
Theorem decode_defaults_absent_coordinates openai_action t :
  openai_action !! "type" = Some t ->
  in_strs t ["click"; "double_click"; "left_double"; "right_click"; "right_single";
             "move"; "mousemove"; "pointer_move"] = true ->
  exists action_dict,
    _convert_openai_action_to_internal repr_str openai_action = inr action_dict
    /\ action_dict !! "coordinate" =
         Some (VList [default (VInt 0) (openai_action !! "x");
                      default (VInt 0) (openai_action !! "y")])
    /\ (openai_action !! "x" = None -> openai_action !! "y" = None ->
        action_dict !! "coordinate" = Some (VList [VInt 0; VInt 0])).
Proof.
  intros Ht Hin.
  rewrite !in_strs_cons, in_strs_nil, !orb_true_iff, !eq_str_true in Hin.
  assert (Hzero : openai_action !! "x" = None -> openai_action !! "y" = None ->
                  xy_or_zero openai_action = VList [VInt 0; VInt 0]).
  { intros Hx Hy. unfold xy_or_zero. by rewrite !getattr_None. }
  destruct Hin as [-> | [-> | [-> | [-> | [-> | [-> | [-> | [-> | [=]]]]]]]]];
    decode_type Ht; cbn; eexists; (split; [reflexivity |]);
    (split; [by simplify_map_eq | intros Hx Hy; rewrite <- (Hzero Hx Hy); by simplify_map_eq]).
Qed.

Lemma py_is_none_true v : py_is_none v = true <-> v = VNone.
Proof. destruct v; simpl; split; by try intros [=]. Qed.

Lemma py_is_none_false v : py_is_none v = false <-> v <> VNone.
Proof. destruct v; simpl; split; done. Qed.

(** C5, as the code has it: a drag object is refused exactly when its
    [to_x] or [to_y] is missing.  With both of them, it is decoded to a
    drag when both start coordinates are there ([from_x] or else [x],
    [from_y] or else [y]) and to a [mouse_move] to the end point when a
    start coordinate is missing. *)
Theorem decode_drag_by_coordinates openai_action fx fy tx ty :
  openai_action !! "type" = Some (VStr "drag") ->
  drag_start openai_action = (fx, fy) ->
  drag_end openai_action = (tx, ty) ->
  (tx = VNone \/ ty = VNone ->
     _convert_openai_action_to_internal repr_str openai_action =
       inl (mkExn RuntimeError "Operator drag action missing coordinates"))
  /\ (tx <> VNone -> ty <> VNone -> fx = VNone \/ fy = VNone ->
     _convert_openai_action_to_internal repr_str openai_action =
       inr {[ "action" := VStr "mouse_move"; "coordinate" := VList [tx; ty] ]})
  /\ (tx <> VNone -> ty <> VNone -> fx <> VNone -> fy <> VNone ->
     _convert_openai_action_to_internal repr_str openai_action =
       inr {[ "action" := VStr "drag"; "from" := VList [fx; fy]; "to" := VList [tx; ty] ]}).
Proof.
  intros Ht [= Hfx Hfy] [= Htx Hty].
  assert (Hdec : _convert_openai_action_to_internal repr_str openai_action =
    if negb (py_is_none fx) && negb (py_is_none fy)
       && negb (py_is_none tx) && negb (py_is_none ty)
    then inr {[ "action" := VStr "drag"; "from" := VList [fx; fy]; "to" := VList [tx; ty] ]}
    else if negb (py_is_none tx) && negb (py_is_none ty)
    then inr {[ "action" := VStr "mouse_move"; "coordinate" := VList [tx; ty] ]}
    else inl (mkExn RuntimeError "Operator drag action missing coordinates")).
  { decode_type Ht. cbn. by rewrite Hfx, Hfy, Htx, Hty. }
  rewrite Hdec. clear Hdec. split; [| split].
  - intros [-> | ->]; cbn; by rewrite ?andb_false_r.
  - intros Hx%py_is_none_false Hy%py_is_none_false [-> | ->];
      rewrite Hx, Hy; cbn; by rewrite ?andb_false_r.
  - intros Hx%py_is_none_false Hy%py_is_none_false Hfx'%py_is_none_false
      Hfy'%py_is_none_false.
    by rewrite Hx, Hy, Hfx', Hfy'.
Qed.

End DecoderFacts.

(** A drag object with [to_x] and [to_y] but no start point is not
    refused: it is decoded to a [mouse_move]. *)
Lemma drag_without_start_is_a_move :
  OperatorCUAPolicy.drag_start OperatorCUAPolicy.drag_to_only = (VNone, VNone)
  /\ OperatorCUAPolicy._convert_openai_action_to_internal quote_repr
       OperatorCUAPolicy.drag_to_only
     = inr {[ "action" := VStr "mouse_move"; "coordinate" := VList [VInt 10; VInt 20] ]}.
Proof. split; vm_compute; reflexivity. Qed.

Section OperatorLoopFacts.
Import OperatorCUAPolicy.

Variable repr_str : string -> string.

(** The handler never returns. *)
Lemma handler_not_return attempt e r : handler attempt e <> Return r.
Proof. unfold handler. by destruct (max_retries <=? attempt)%nat. Qed.


(** A turn that returns an action has stored the identifiers. *)
Lemma turn_return_updates self attempt answer r self' :
  turn repr_str self attempt answer = (Return r, self') ->
  exists response computer_call,
    answer = CallReturns (Some response)
    /\ first_computer_call response = Some computer_call
    /\ _last_response_id self' = default (_last_response_id self) (response_id response)
    /\ _last_call_id self' = default (_last_call_id self) (item_call_id computer_call).
Proof.
  unfold turn, first_computer_call. intros H.
  destruct answer as [e | [response |]];
    [inversion H; by edestruct handler_not_return | | done].
  destruct (reasoning_of _) as [reasoning_text reasoning_source].
  destruct (filter _ _) as [| computer_call rest] eqn:Hcalls;
    [inversion H; by edestruct handler_not_return |].
  destruct (item_action computer_call) as [action |];
    [| inversion H; by edestruct handler_not_return].
  destruct (_convert_openai_action_to_internal repr_str action);
    [inversion H; by edestruct handler_not_return |].
  exists response, computer_call. rewrite Hcalls.
  destruct (response_json response) as [[e | raw_json] |];
    [inversion H; by edestruct handler_not_return | |];
    inversion H; subst; by destruct (response_id response), (item_call_id computer_call).
Qed.




End OperatorLoopFacts.

Section PromptFacts.
Import Trajectory Prompts.

Variable repr_str : string -> string.

Implicit Types (trajectory recent earlier : list step) (t second last : step).

(** *** Containment *)





(** *** The window and its last two steps *)

Lemma length_last_n {A} n (l : list A) : length (last_n n l) = (length l `min` n)%nat.
Proof. unfold last_n. rewrite length_drop. lia. Qed.


Lemma from_end_short {A} k (l : list A) :
  (1 <= k)%nat -> (length l < k)%nat -> from_end k (last_n k l) = l !! 0%nat.
Proof.
  intros Hk Hl. unfold from_end, last_n.
  rewrite length_drop, lookup_drop. f_equal. lia.
Qed.





(** *** The history of well-formed steps *)

Lemma two_items_index v :
  has_two_items v = true ->
  exists x y, py_index v 0 = inr x /\ py_index v 1 = inr y.
Proof.
  destruct v as [| | | s | l]; try done; intros H.
  - unfold has_two_items in H. unfold py_index.
    destruct (chars s) as [|a [|b more]]; try done. simpl. eauto.
  - destruct l as [|x [|y l]]; try done. simpl. eauto.
Qed.

Lemma number_lt_zero v : is_number v = true -> exists b, lt_zero v = inr b.
Proof. destruct v; try done; simpl; eauto. Qed.

Lemma cua_history_action t :
  well_formed_step t -> exists line, CUAPolicy.history_action repr_str (action_of t) = inr line.
Proof.
  intros [Hclick Hscroll]. unfold CUAPolicy.history_action.
  destruct (eq_str _ "left_click") eqn:E1.
  { apply eq_str_true in E1. destruct (truthy _) eqn:E2; [| eauto].
    destruct (two_items_index _ (Hclick E1 eq_refl)) as (x & y & -> & ->). cbn. eauto. }
  destruct (eq_str _ "type"); [eauto |].
  destruct (eq_str _ "scroll") eqn:E3.
  { apply eq_str_true in E3.
    destruct (number_lt_zero _ (Hscroll E3)) as [b ->]. cbn. eauto. }
  destruct (eq_str _ "terminate"); eauto.
Qed.

Lemma operator_history_action number t :
  well_formed_step t ->
  exists line, OperatorCUAPolicy.history_action repr_str number (action_of t) = inr line.
Proof.
  intros [Hclick Hscroll]. unfold OperatorCUAPolicy.history_action.
  destruct (eq_str _ "left_click") eqn:E1.
  { apply eq_str_true in E1. destruct (truthy _) eqn:E2; [| eauto].
    destruct (two_items_index _ (Hclick E1 eq_refl)) as (x & y & -> & ->). cbn. eauto. }
  destruct (eq_str _ "type"); [eauto |].
  destruct (eq_str _ "scroll") eqn:E3.
  { apply eq_str_true in E3.
    destruct (number_lt_zero _ (Hscroll E3)) as [b ->]. cbn. eauto. }
  destruct (eq_str _ "terminate"); eauto.
Qed.

Lemma cua_history_lines recent :
  Forall well_formed_step recent ->
  exists history_text, CUAPolicy.history_lines repr_str recent = inr history_text.
Proof.
  induction 1 as [| t recent Ht _ [later IH]]; simpl; [eauto |].
  destruct (cua_history_action t Ht) as [line ->]. rewrite IH. cbn. eauto.
Qed.

Lemma operator_history_lines offset recent :
  Forall well_formed_step recent ->
  forall i, exists history_context,
    OperatorCUAPolicy.history_lines repr_str offset i recent = inr history_context.
Proof.
  induction 1 as [| t recent Ht _ IH]; intros i; simpl; [eauto |].
  destruct (operator_history_action (offset + i + 1) t Ht) as [line ->].
  destruct (IH (i + 1)%Z) as [later ->]. cbn. eauto.
Qed.













End PromptFacts.

Section RunnerFacts.
Import ParallelRunner.

Variable repr_str : string -> string.
Variable format_exc : Exception -> string.

Implicit Types (tr : ProgressTracker) (task_func : string -> string -> task_outcome).

(** [update_status] tracks the pairs it tracked, and what it raises
    depends on the tracker only through the pair being tracked. *)
Lemma update_status_tracked tr model app status error_detail tr' raised :
  update_status tr model app status error_detail = (tr', raised) ->
  (forall key, tracked tr' key = tracked tr key)
  /\ raised = if tracked tr (model, app) && truthy error_detail
              then detail_logging error_detail else None.
Proof.
  unfold update_status. intros H.
  destruct (tracked tr (model, app)) eqn:Htr; [| inversion H; by subst].
  assert (Hkeys : forall key,
    bool_decide (is_Some (<[(model, app) := status]> (status_matrix tr) !! key))
    = tracked tr key).
  { intros key. unfold tracked in *. apply bool_decide_ext.
    destruct (decide ((model, app) = key)) as [<- | Hne].
    - rewrite lookup_insert_eq. apply bool_decide_eq_true in Htr. naive_solver.
    - by rewrite lookup_insert_ne. }
  destruct (truthy error_detail); inversion H; subst; split; try done;
    intros key; unfold tracked at 1; simpl; apply Hkeys.
Qed.

Lemma on_exception_spec tr e model_name app_name tr' result :
  on_exception format_exc tr e model_name app_name = (tr', result) ->
  (forall key, tracked tr' key = tracked tr key)
  /\ result = error_result format_exc e model_name app_name.
Proof.
  unfold on_exception. intros H.
  destruct (update_status _ _ _ _ _) as [tr1 raised] eqn:Hup.
  inversion H; subst. split; [| done].
  by destruct (update_status_tracked _ _ _ _ _ _ _ Hup).
Qed.

Lemma run_single_task_spec task_func model_name app_name tr tr' result :
  _run_single_task repr_str format_exc task_func model_name app_name tr = (tr', result) ->
  (forall key, tracked tr' key = tracked tr key)
  /\ result = attempt_result format_exc (tracked tr (model_name, app_name))
                (task_func model_name app_name) model_name app_name.
Proof.
  unfold _run_single_task, attempt_result. intros H.
  destruct (update_status tr _ _ _ VNone) as [tr1 r1] eqn:H1.
  destruct (update_status_tracked _ _ _ _ _ _ _ H1) as [K1 _].
  destruct (task_func model_name app_name) as [res | e].
  - destruct (truthy (get res "success")).
    + destruct (update_status tr1 _ _ _ VNone) as [tr2 r2] eqn:H2.
      destruct (update_status_tracked _ _ _ _ _ _ _ H2) as [K2 _].
      inversion H; subst. split; [| done]. intros key. by rewrite K2, K1.
    + destruct (update_status tr1 _ _ _ _) as [tr2 r2] eqn:H2.
      destruct (update_status_tracked _ _ _ _ _ _ _ H2) as [K2 ->].
      rewrite K1 in H.
      destruct (if _ && _ then _ else None) as [e |].
      * destruct (on_exception_spec _ _ _ _ _ _ H) as [K3 ->].
        split; [| done]. intros key. by rewrite K3, K2, K1.
      * inversion H; subst. split; [| done]. intros key. by rewrite K2, K1.
  - destruct (on_exception_spec _ _ _ _ _ _ H) as [K3 ->].
    split; [| done]. intros key. by rewrite K3, K1.
Qed.

(** The entries of a run are those of its pairs, in order, each the
    result of its own attempt. *)
Lemma run_all_spec task_func pairs :
  forall tr tr' entries,
  run_all repr_str format_exc task_func pairs tr = (tr', entries) ->
  (forall key, tracked tr' key = tracked tr key)
  /\ entries = map (fun '(model_name, app_name) =>
                      mkEntry model_name app_name
                        (attempt_result format_exc (tracked tr (model_name, app_name))
                           (task_func model_name app_name) model_name app_name)) pairs.
Proof.
  induction pairs as [| [model_name app_name] pairs IH]; intros tr tr' entries H; simpl in H.
  - inversion H; by subst.
  - destruct (_run_single_task _ _ _ _ _ _) as [tr1 result] eqn:H1.
    destruct (run_all _ _ _ _ _) as [tr2 rest] eqn:H2.
    inversion H; subst.
    destruct (run_single_task_spec _ _ _ _ _ _ H1) as [K1 ->].
    destruct (IH _ _ _ H2) as [K2 ->].
    split; [intros key; by rewrite K2, K1 |].
    simpl. f_equal. apply map_ext. intros [m a]. by rewrite K1.
Qed.

Lemma lookup_map {A B} (f : A -> B) (l : list A) (i : nat) :
  map f l !! i = f <$> l !! i.
Proof.
  revert i. induction l as [|x l IH]; intros [|i]; simpl; by try apply IH.
Qed.

Lemma entries_name_their_pairs (g : string -> string -> gmap string pyval)
    (pairs : list (string * string)) :
  map (fun r => (entry_model r, entry_app r))
    (map (fun '(model_name, app_name) => mkEntry model_name app_name (g model_name app_name))
       pairs) = pairs.
Proof.
  induction pairs as [| [m a] pairs IH]; simpl; [done |]. by rewrite IH.
Qed.

(** The results of [run_parallel_tasks] are the attempts of its pairs. *)
Lemma run_parallel_tasks_results models apps task_func stage_name valid_combinations :
  results (run_parallel_tasks repr_str format_exc models apps task_func stage_name
             valid_combinations)
  = map (fun '(model_name, app_name) =>
           mkEntry model_name app_name
             (attempt_result format_exc
                (tracked (new_tracker models apps) (model_name, app_name))
                (task_func model_name app_name) model_name app_name))
      (matrix models apps valid_combinations).
Proof.
  unfold run_parallel_tasks.
  destruct (run_all _ _ _ _ _) as [tr entries] eqn:Hrun.
  by destruct (run_all_spec _ _ _ _ _ Hrun) as [_ ->].
Qed.

Lemma run_parallel_tasks_counts models apps task_func stage_name valid_combinations :
  total_tasks (run_parallel_tasks repr_str format_exc models apps task_func stage_name
                 valid_combinations)
  = length (results (run_parallel_tasks repr_str format_exc models apps task_func
                       stage_name valid_combinations))
  /\ (successful_tasks (run_parallel_tasks repr_str format_exc models apps task_func
                          stage_name valid_combinations)
      + failed_tasks (run_parallel_tasks repr_str format_exc models apps task_func
                        stage_name valid_combinations)
      = total_tasks (run_parallel_tasks repr_str format_exc models apps task_func
                       stage_name valid_combinations))%nat.
Proof.
  unfold run_parallel_tasks.
  destruct (run_all _ _ _ _ _) as [tr entries]. simpl. split; [done |].
  pose proof (length_filter
    (fun r : entry => truthy (get (entry_result r) "success") = true) entries).
  lia.
Qed.

(** The pairs of the matrix are those of the two loops that pass the
    filter. *)
Lemma matrix_elem models apps valid_combinations model_name app_name :
  model_name ∈ models -> app_name ∈ apps ->
  match valid_combinations with
  | Some valid => (model_name, app_name) ∈ valid
  | None => True
  end ->
  (model_name, app_name) ∈ matrix models apps valid_combinations.
Proof.
  intros Hm Ha Hv. unfold matrix.
  apply list_elem_of_bind. exists model_name. split; [| done].
  apply list_elem_of_bind. exists app_name. split; [| done].
  destruct valid_combinations as [valid |].
  - rewrite bool_decide_eq_true_2 by done. by apply list_elem_of_singleton.
  - by apply list_elem_of_singleton.
Qed.

Lemma matrix_length models apps :
  length (matrix models apps None) = (length models * length apps)%nat.
Proof.
  unfold matrix. induction models as [|m models IH]; [done |].
  rewrite bind_cons, length_app, IH. simpl. f_equal.
  clear. induction apps as [|a apps IH]; [done |].
  rewrite bind_cons, length_app, IH. done.
Qed.

(** C9: the scheduler isolates the attempts of the matrix.  Every pair
    of the matrix has its entry in the results, in the order of the
    pairs, and the counts add up to their number.  A pair whose task
    function raises gets the failure result that records the error
    message, with [success] false, instead of the exception going any
    further.  The entry of a pair depends on the task function at that
    pair only: whatever the attempts of the other pairs do, raise
    included, it is the same.  The matrix leaves no pair out: every
    model and app of the two lists that pass the filter of valid
    combinations, if there is one, have their entry in the results,
    the failure result when the task raised and the task's own result
    when it returned a success; without a filter the results count
    [len(models) * len(apps)] entries. *)
Theorem task_errors_are_isolated models apps task_func (stage_name : string)
    valid_combinations :
  map (fun r => (entry_model r, entry_app r))
    (results (run_parallel_tasks repr_str format_exc models apps task_func stage_name
                valid_combinations))
  = matrix models apps valid_combinations
  /\ total_tasks (run_parallel_tasks repr_str format_exc models apps task_func stage_name
                    valid_combinations)
     = length (matrix models apps valid_combinations)
  /\ (successful_tasks (run_parallel_tasks repr_str format_exc models apps task_func
                          stage_name valid_combinations)
      + failed_tasks (run_parallel_tasks repr_str format_exc models apps task_func
                        stage_name valid_combinations)
      = length (matrix models apps valid_combinations))%nat
  /\ (forall i model_name app_name e,
        matrix models apps valid_combinations !! i = Some (model_name, app_name) ->
        task_func model_name app_name = TaskRaises e ->
        exists r,
          results (run_parallel_tasks repr_str format_exc models apps task_func stage_name
                     valid_combinations) !! i = Some r
          /\ entry_model r = model_name /\ entry_app r = app_name
          /\ entry_result r = error_result format_exc e model_name app_name
          /\ entry_result r !! "error" = Some (VStr (exn_str e))
          /\ truthy (get (entry_result r) "success") = false)
  /\ (forall other_func i model_name app_name,
        matrix models apps valid_combinations !! i = Some (model_name, app_name) ->
        other_func model_name app_name = task_func model_name app_name ->
        results (run_parallel_tasks repr_str format_exc models apps other_func stage_name
                   valid_combinations) !! i
        = results (run_parallel_tasks repr_str format_exc models apps task_func stage_name
                     valid_combinations) !! i)
  /\ (forall model_name app_name,
        model_name ∈ models -> app_name ∈ apps ->
        match valid_combinations with
        | Some valid => (model_name, app_name) ∈ valid
        | None => True
        end ->
        exists i r,
          results (run_parallel_tasks repr_str format_exc models apps task_func stage_name
                     valid_combinations) !! i = Some r
          /\ entry_model r = model_name /\ entry_app r = app_name
          /\ (forall e, task_func model_name app_name = TaskRaises e ->
                entry_result r = error_result format_exc e model_name app_name)
          /\ (forall result, task_func model_name app_name = TaskReturns result ->
                truthy (get result "success") = true -> entry_result r = result))
  /\ (valid_combinations = None ->
      total_tasks (run_parallel_tasks repr_str format_exc models apps task_func stage_name
                     valid_combinations)
      = (length models * length apps)%nat).
Proof.
  destruct (run_parallel_tasks_counts models apps task_func stage_name valid_combinations)
    as [Htotal Hsum].
  rewrite Htotal in *. clear Htotal.
  rewrite !run_parallel_tasks_results in *.
  rewrite length_map in *.
  split; [apply entries_name_their_pairs |].
  split; [done |]. split; [done |]. split; [| split; [| split]].
  - intros i model_name app_name e Hpair Hraise.
    eexists. rewrite lookup_map, Hpair. simpl. rewrite Hraise. simpl.
    repeat split.
  - intros other_func i model_name app_name Hpair Hsame.
    rewrite run_parallel_tasks_results, !lookup_map, Hpair. simpl. by rewrite Hsame.
  - intros model_name app_name Hm Ha Hv.
    destruct (proj1 (list_elem_of_lookup _ _)
                (matrix_elem models apps valid_combinations _ _ Hm Ha Hv)) as [i Hpair].
    exists i. eexists. rewrite lookup_map, Hpair. simpl.
    split; [reflexivity |]. simpl. split; [done |]. split; [done |]. split.
    + intros e ->. done.
    + intros result -> Hok. simpl. by rewrite Hok.
  - intros ->. apply matrix_length.
Qed.

End RunnerFacts.

Section PoolFacts.
Import BrowserPool.

(** A move keeps the idle pool within its capacity. *)
Lemma step_pool_capacity s t m s' :
  step s t m = Some s' ->
  (length (_browser_pool s) <= pool_capacity)%nat ->
  (length (_browser_pool s') <= pool_capacity)%nat.
Proof.
  unfold step. intros Hstep Hle.
  destruct m, (pc_of s t); try done.
  - destruct (_pool_lock s); [done |].
    destruct (pop (_browser_pool s)) as [[b rest] |] eqn:Hpop;
      inversion Hstep; subst; simpl; [| done].
    unfold pop in Hpop. destruct (reverse (_browser_pool s)) as [|b' rest'] eqn:Hrev; [done |].
    inversion Hpop; subst.
    rewrite length_reverse. apply (f_equal length) in Hrev.
    rewrite length_reverse in Hrev. simpl in Hrev. lia.
  - destruct (_browser_semaphore s); inversion Hstep; by subst.
  - inversion Hstep; by subst.
  - destruct (_pool_lock s); [done |].
    destruct (length (_browser_pool s) <? pool_capacity)%nat eqn:Hlt;
      inversion Hstep; subst; simpl; [| done].
    apply Nat.ltb_lt in Hlt. rewrite length_app. simpl. lia.
  - inversion Hstep; by subst.
Qed.

(** Under every interleaving the idle pool holds at most three sessions. *)
Lemma idle_pool_bounded schedule :
  forall s s',
  run s schedule = Some s' ->
  (length (_browser_pool s) <= pool_capacity)%nat ->
  (length (_browser_pool s') <= pool_capacity)%nat.
Proof.
  induction schedule as [| [t m] schedule IH]; intros s s' Hrun Hle; simpl in Hrun.
  - by inversion Hrun; subst.
  - destruct (step s t m) as [s1 |] eqn:Hstep; [| done].
    eapply IH; [exact Hrun |]. by eapply step_pool_capacity.
Qed.

(** C1 on the code: six callers that acquire in turn, none releasing,
    all get a session.  The interleaving runs to its end, no caller is
    kept waiting, six sessions are live at once above the ceiling of
    five, and the semaphore has all five permits free again: it is
    given back when [_get_browser_from_pool] returns, not when the
    session is released. *)
Theorem six_sessions_live_at_once :
  exists s,
    run initial six_acquires = Some s
    /\ live s = 6%nat
    /\ (ceiling < live s)%nat
    /\ _browser_semaphore s = ceiling
    /\ _browser_pool s = []
    /\ Forall (fun t => pc_of s t = Holding t) [0; 1; 2; 3; 4; 5]%nat.
Proof.
  eexists. split; [vm_compute; reflexivity |].
  repeat split; try (vm_compute; done).
  repeat constructor.
Qed.

End PoolFacts.

(** * The properties at work on concrete inputs *)

Section Instances.
Import ModelClient OperatorCUAPolicy Trajectory.

(** Four rate-limit errors and then a response, on a cloud model. *)
Lemma remote_rate_limit_retries_witness :
  exists evs,
    call_model 6 remote_config (script (replicate 4 rate_limit_error) "ok")
      = Some (evs, Returned "ok")
    /\ requests evs = 5%nat.
Proof.
  destruct (remote_rate_limit_retries remote_config
              (script (replicate 4 rate_limit_error) "ok") 6) as [Hok _];
    [reflexivity | lia |].
  apply Hok; [| reflexivity].
  intros k Hk. exists rate_limit_error.
  do 4 (destruct k as [|k]; [split; reflexivity |]). lia.
Defined.

(** A cloud model that answers every request with a rate-limit error. *)
Lemma remote_model_bounded_retries_witness :
  exists evs r n,
    call_model 6 remote_config (fun _ => Raises rate_limit_error) = Some (evs, r)
    /\ requests evs = S n
    /\ (S n <= 6)%nat
    /\ sleeps evs = replicate n 2%Q.
Proof.
  destruct (remote_model_bounded_retries remote_config
              (fun _ => Raises rate_limit_error) 6)
    as (evs & r & n & Hrun & Hreq & Hn & Hsl & _); [reflexivity | lia |].
  by exists evs, r, n.
Defined.

(** The sixth request of a cloud model, its constant delay, and an
    error that is not retried: a service that always raises a
    rate-limit error is asked six times, not five, with two seconds
    before each retry where a delay doubling from one would sleep
    1, 2, 4, 8 and 16; a server error is raised after a single request,
    without the one retry. *)
Lemma remote_retry_limits_counterexample :
  call_model 7 remote_config (fun _ => Raises rate_limit_error)
    = Some ([Request; Sleep 2; Request; Sleep 2; Request; Sleep 2;
             Request; Sleep 2; Request; Sleep 2; Request],
            Raised rate_limit_error)
  /\ ~ (requests [Request; Sleep 2; Request; Sleep 2; Request; Sleep 2;
                  Request; Sleep 2; Request; Sleep 2; Request] <= 5)%nat
  /\ sleeps [Request; Sleep 2; Request; Sleep 2; Request; Sleep 2;
             Request; Sleep 2; Request; Sleep 2; Request]
     <> [1; 2; 4; 8; 16]%Q
  /\ _is_rate_limit_error server_error = false
  /\ call_model 7 remote_config (fun _ => Raises server_error)
     = Some ([Request], Raised server_error).
Proof.
  split; [vm_compute; reflexivity |].
  split; [simpl; lia |].
  split; [simpl; discriminate |].
  split; vm_compute; reflexivity.
Qed.


(** An empty response and then a full one, on a local model: the
    empty one is what [call_model] returns, after a single request. *)
Lemma empty_response_is_returned_counterexample :
  call_model 2 local_config (failing_script [EmptyResponse] "ok")
    = Some ([Request], Returned EmptyString)
  /\ Returned EmptyString <> Returned "ok"
  /\ ~ (forall (failures : list failed_call) (content : string) (fuel : nat),
          (length failures < fuel)%nat ->
          exists evs,
            call_model fuel local_config (failing_script failures content)
            = Some (evs, Returned content)).
Proof.
  split; [reflexivity |]. split; [discriminate |].
  intros Hall. destruct (Hall [EmptyResponse] "ok" 2%nat) as [evs Hrun]; [simpl; lia |].
  vm_compute in Hrun. discriminate.
Qed.

(** A turn that stores the identifiers and yields no action: the
    response carries a click, and serialising it for the log raises.
    The loop goes on, and its second call is in the continuation mode
    with the identifiers of a response whose action was never
    returned. *)
Lemma state_stored_without_action_counterexample :
  turn quote_repr (mkState VNone VNone) 1 (CallReturns (Some unserialisable_response))
    = (Continue, mkState (VStr "resp_1") (VStr "call_1"))
  /\ mkState (VStr "resp_1") (VStr "call_1") <> mkState VNone VNone
  /\ (forall r, Continue <> Return r)
  /\ _get_computer_use_action quote_repr 2
       (fun _ _ => CallReturns (Some unserialisable_response)) "prompt" "screenshot"
       (mkState VNone VNone)
     = ([call_operator_initial "prompt" "screenshot";
         call_operator_next (VStr "resp_1") (VStr "call_1") "screenshot"],
        Unfinished, mkState (VStr "resp_1") (VStr "call_1"))
  /\ ~ (forall self attempt answer te self',
          turn quote_repr self attempt answer = (te, self') ->
          self' <> self -> exists r, te = Return r).
Proof.
  assert (Hturn :
    turn quote_repr (mkState VNone VNone) 1 (CallReturns (Some unserialisable_response))
    = (Continue, mkState (VStr "resp_1") (VStr "call_1")))
    by (vm_compute; reflexivity).
  split; [exact Hturn |]. split; [discriminate |]. split; [discriminate |].
  split; [vm_compute; reflexivity |].
  intros Hall. destruct (Hall _ _ _ _ _ Hturn) as [r Hr]; discriminate.
Qed.

(** A drag object with only its end point. *)
Lemma decode_drag_by_coordinates_witness :
  _convert_openai_action_to_internal quote_repr drag_to_only
  = inr {[ "action" := VStr "mouse_move"; "coordinate" := VList [VInt 10; VInt 20] ]}.
Proof.
  destruct (decode_drag_by_coordinates quote_repr drag_to_only VNone VNone (VInt 10) (VInt 20))
    as (_ & Hmove & _); [reflexivity | reflexivity | reflexivity |].
  apply Hmove; [discriminate | discriminate | by left].
Defined.


(** A key press under the name [keypress], which is none of the types
    of the specification: the decoder has a branch for it and returns
    the key action. *)
Lemma accepted_set_counterexample :
  single_keypress !! "type" = Some (VStr "keypress")
  /\ in_strs (VStr "keypress") spec_accepted_types = false
  /\ _convert_openai_action_to_internal quote_repr single_keypress
     = inr {[ "action" := VStr "key"; "keys" := VList [VStr "Enter"] ]}.
Proof. split; [reflexivity |]. split; [reflexivity |]. vm_compute. reflexivity. Qed.

(** A click object without coordinates. *)
Lemma decode_defaults_absent_coordinates_witness :
  exists action_dict,
    _convert_openai_action_to_internal quote_repr bare_click = inr action_dict
    /\ action_dict !! "coordinate" = Some (VList [VInt 0; VInt 0]).
Proof.
  destruct (decode_defaults_absent_coordinates quote_repr bare_click (VStr "click"))
    as (action_dict & Hdec & _ & Hzero); [reflexivity | reflexivity |].
  exists action_dict. split; [exact Hdec |]. by apply Hzero.
Defined.


(** C7, as stated, fails in both directions.  Two right clicks at
    (100, 200), the internal action of an operator click with the right
    button, end the trajectory and neither prompt holds a warning; and
    a trajectory of one step, a failed one whose error text is the
    warning, gives prompts that contain the warning. *)
Lemma repeat_warning_counterexample :
  (Forall (fun t => get (action_of t) "action" = VStr "right_click"
                    /\ coordinate_of t = VList [VInt 100; VInt 200])
     repeated_right_clicks
   /\ exists cua_prompt operator_prompt,
        CUAPolicy._build_computer_use_prompt quote_repr 10 "Open the menu" "Menu is open"
          repeated_right_clicks 3 = inr cua_prompt
        /\ OperatorCUAPolicy._build_computer_use_prompt quote_repr 10 "Open the menu"
             "Menu is open" repeated_right_clicks 3 = inr operator_prompt
        /\ py_in "**CRITICAL**" cua_prompt = false
        /\ py_in "twice" cua_prompt = false
        /\ py_in "**CRITICAL**" operator_prompt = false
        /\ py_in "twice" operator_prompt = false)
  /\ (~ ends_in_repeated_click [failed_type_step "menu" sample_warning]
      /\ exists cua_prompt operator_prompt,
           CUAPolicy._build_computer_use_prompt quote_repr 10 "Open the menu" "Menu is open"
             [failed_type_step "menu" sample_warning] 2 = inr cua_prompt
           /\ OperatorCUAPolicy._build_computer_use_prompt quote_repr 10 "Open the menu"
                "Menu is open" [failed_type_step "menu" sample_warning] 2 = inr operator_prompt
           /\ py_in sample_warning cua_prompt = true
           /\ py_in sample_warning operator_prompt = true).
Proof.
  split; split.
  - repeat constructor.
  - do 2 eexists. do 2 (split; [vm_compute; reflexivity |]).
    repeat split; vm_compute; reflexivity.
  - intros (earlier & second & last & Heq & _).
    apply (f_equal length) in Heq. rewrite length_app in Heq. simpl in Heq. lia.
  - do 2 eexists. do 2 (split; [vm_compute; reflexivity |]).
    repeat split; vm_compute; reflexivity.
Qed.

End Instances.

(** * Further properties of the gateway *)

(** Split the conjunctions of the goal, and nothing else. *)
Ltac conjuncts := repeat match goal with |- _ /\ _ => split end.

Section GatewayMore.
Import ModelClient.






(** X3: five rate-limit errors in a row exhaust
    [call_model_with_gpt5_params]: it sleeps 1, 2, 4, 8 and 16 seconds,
    the last of them for nothing, and raises "Max retries exceeded" in
    place of the rate-limit error. *)
Theorem gpt5_params_rate_limit_exhaustion service :
  (forall k, (k < 5)%nat ->
     exists e, service k = Raises e /\ _is_rate_limit_error e = true) ->
  call_model_with_gpt5_params service =
    ([Request; Sleep 1; Request; Sleep 2; Request; Sleep 4; Request; Sleep 8;
      Request; Sleep 16], Raised max_retries_exceeded).
Proof.
  intros Herrs.
  destruct (Herrs 0%nat) as (e0 & H0 & R0); [lia |].
  destruct (Herrs 1%nat) as (e1 & H1 & R1); [lia |].
  destruct (Herrs 2%nat) as (e2 & H2 & R2); [lia |].
  destruct (Herrs 3%nat) as (e3 & H3 & R3); [lia |].
  destruct (Herrs 4%nat) as (e4 & H4 & R4); [lia |].
  unfold call_model_with_gpt5_params. cbn [gpt5_loop].
  by rewrite H0, R0, H1, R1, H2, R2, H3, R3, H4, R4.
Qed.



(** X5: the image URLs of [call_model].  Whatever [images] holds, what
    is sent is a [data:image] URL; a URL it produced goes through
    unchanged if it is passed again, without a look at the file system;
    and a string that starts like the base64 of a PNG, JPEG or WEBP
    image, or that has 1000 characters or more, is never opened as a
    file, slashes or not: it is sent as PNG data. *)
Theorem image_url_is_data_url (read_base64 : string -> Exception + string)
    (img_path : string) :
  (forall url,
     image_url read_base64 img_path = inr url ->
     String.prefix "data:image" url = true
     /\ forall other_files, image_url other_files url = inr url)
  /\ (String.prefix "data:image" img_path = false ->
      startswith_any img_path ["iVBOR"; "/9j"; "UklG"] = true
      \/ (1000 <= py_len img_path)%nat ->
      image_url read_base64 img_path = inr ("data:image/png;base64," ++ img_path)).
Proof.
  split.
  - intros url Hurl.
    assert (Hdata : String.prefix "data:image" url = true).
    { unfold image_url in Hurl.
      destruct (String.prefix "data:image" img_path) eqn:Hp.
      - by inversion Hurl; subst.
      - destruct (is_file_path img_path).
        + destruct (read_base64 img_path) as [e | base64_data]; [done |].
          by inversion Hurl; subst.
        + by inversion Hurl; subst. }
    split; [done |]. intros other_files. unfold image_url. by rewrite Hdata.
  - intros Hp Hraw. unfold image_url, is_file_path. rewrite Hp.
    destruct Hraw as [-> | Hlen]; [by rewrite andb_false_r |].
    replace (py_len img_path <? 1000)%nat with false
      by (symmetry; apply Nat.ltb_ge; lia).
    by rewrite andb_false_r.
Qed.

End GatewayMore.


(** A service that only ever raises rate-limit errors. *)
Lemma gpt5_params_rate_limit_exhaustion_witness :
  snd (ModelClient.call_model_with_gpt5_params
         (fun _ => ModelClient.Raises ModelClient.rate_limit_error))
  = ModelClient.Raised ModelClient.max_retries_exceeded.
Proof.
  rewrite (gpt5_params_rate_limit_exhaustion
             (fun _ => ModelClient.Raises ModelClient.rate_limit_error)); [done |].
  intros k _. exists ModelClient.rate_limit_error. by split.
Defined.


(** * Further properties of the operator policy *)

(** Run the decoder down to the branch of the type that [Ht] gives. *)
Ltac decode_branch Ht :=
  unfold OperatorCUAPolicy._convert_openai_action_to_internal;
  rewrite (hasattr_Some _ _ _ Ht), (get_Some _ _ _ Ht);
  cbn [negb]; unfold in_strs; cbn [existsb].

Section OperatorMore.
Import OperatorCUAPolicy.

Variable repr_str : string -> string.

Implicit Types (openai_action : gmap string pyval).

(** X6: whatever the decoder returns is an action dictionary with a
    name, one of the ten internal action names; in particular the
    operator decoder never produces a [terminate] action. *)
Theorem decoded_action_is_named openai_action action_dict :
  _convert_openai_action_to_internal repr_str openai_action = inr action_dict ->
  exists name,
    action_dict !! "action" = Some (VStr name)
    /\ name ∈ internal_actions
    /\ name <> "terminate".
Proof.
  unfold _convert_openai_action_to_internal, internal_actions. intros H.
  repeat case_match; simplify_eq; eexists;
    (split; [by simplify_map_eq | split; [set_solver | done]]).
Qed.

(** X7: the ways the decoder fails.  It raises for an object without a
    [type], for a [type] it has no branch for, for a keyboard action
    whose [keys] cannot be listed, and for a drag without [to_x] or
    [to_y]; every other object is decoded. *)
Theorem decode_failures openai_action e :
  _convert_openai_action_to_internal repr_str openai_action = inl e ->
  (openai_action !! "type" = None
   /\ e = mkExn RuntimeError "Operator action missing type")
  \/ (exists t, openai_action !! "type" = Some t
        /\ in_strs t accepted_types = false
        /\ e = mkExn RuntimeError ("Unsupported OpenAI action type: " ++ py_str repr_str t))
  \/ (exists t, openai_action !! "type" = Some t
        /\ in_strs t key_types = true
        /\ exn_class_of e = TypeError)
  \/ (openai_action !! "type" = Some (VStr "drag")
        /\ (fst (drag_end openai_action) = VNone \/ snd (drag_end openai_action) = VNone)
        /\ e = mkExn RuntimeError "Operator drag action missing coordinates").
Proof.
  unfold _convert_openai_action_to_internal. intros H.
  destruct (openai_action !! "type") as [t |] eqn:Ht.
  2: { rewrite (hasattr_None _ _ Ht) in H. left. by inversion H. }
  rewrite (hasattr_Some _ _ _ Ht), (get_Some _ _ _ Ht) in H. cbn [negb] in H.
  right.
  destruct (eq_str t "click") eqn:E1; [done |].
  destruct (in_strs t ["double_click"; "left_double"]) eqn:E2; [done |].
  destruct (in_strs t ["right_click"; "right_single"]) eqn:E3; [done |].
  destruct (in_strs t ["move"; "mousemove"; "pointer_move"]) eqn:E4; [done |].
  destruct (eq_str t "type") eqn:E5; [done |].
  destruct (eq_str t "scroll") eqn:E6; [done |].
  destruct (in_strs t ["keypress"; "key_press"; "keydown"; "key_down"; "keyup";
                       "key_up"; "key"]) eqn:E7.
  { right. left. exists t. split; [done |]. split; [exact E7 |].
    destruct (py_list _) as [e' | l] eqn:Hl; [| done].
    inversion H; subst.
    unfold py_list in Hl. repeat case_match; by simplify_eq. }
  destruct (eq_str t "wait") eqn:E8; [done |].
  destruct (eq_str t "screenshot") eqn:E9; [done |].
  destruct (eq_str t "drag") eqn:E10.
  { right. right. apply eq_str_true in E10 as ->. split; [done |].
    unfold drag_end. cbn [fst snd].
    destruct (getattr openai_action "to_x" VNone) eqn:Hx;
      destruct (getattr openai_action "to_y" VNone) eqn:Hy;
      cbn in H; rewrite ?andb_false_r, ?andb_true_r in H;
      try (split; [by (left + right) | by inversion H]);
      repeat case_match; done. }
  left. exists t. split; [done |]. split; [| by inversion H].
  unfold accepted_types. rewrite !in_strs_cons, in_strs_nil in *.
  rewrite !orb_false_iff in *. destruct_and!. by conjuncts.
Qed.

(** X8: the synonyms of a scroll.  The horizontal amount is [scroll_x],
    or [delta_x] when there is no [scroll_x], or 0; likewise the
    vertical one; and the anchor is the [x] and [y] of the object, the
    centre of the 1280 by 720 display, (640, 360), where they are
    missing. *)
Theorem decode_scroll_synonyms openai_action :
  openai_action !! "type" = Some (VStr "scroll") ->
  exists action_dict,
    _convert_openai_action_to_internal repr_str openai_action = inr action_dict
    /\ action_dict !! "action" = Some (VStr "scroll")
    /\ action_dict !! "pixels_x" =
         Some (default (default (VInt 0) (openai_action !! "delta_x"))
                 (openai_action !! "scroll_x"))
    /\ action_dict !! "pixels_y" =
         Some (default (default (VInt 0) (openai_action !! "delta_y"))
                 (openai_action !! "scroll_y"))
    /\ action_dict !! "coordinate" =
         Some (VList [default (VInt 640) (openai_action !! "x");
                      default (VInt 360) (openai_action !! "y")]).
Proof.
  intros Ht. decode_branch Ht. cbn. eexists. split; [reflexivity |].
  conjuncts; by simplify_map_eq.
Qed.

(** X9: the keys of a keyboard action.  A list under [keys] is taken
    as it is; without [keys] a truthy [key] is the one key pressed, and
    with neither the action has no keys at all. *)
Theorem decode_keys openai_action t :
  openai_action !! "type" = Some t ->
  in_strs t key_types = true ->
  (forall l, openai_action !! "keys" = Some (VList l) ->
     _convert_openai_action_to_internal repr_str openai_action
     = inr {[ "action" := VStr "key"; "keys" := VList l ]})
  /\ (forall single,
        getattr openai_action "keys" VNone = VNone ->
        openai_action !! "key" = Some single ->
        truthy single = true ->
        _convert_openai_action_to_internal repr_str openai_action
        = inr {[ "action" := VStr "key"; "keys" := VList [single] ]})
  /\ (getattr openai_action "keys" VNone = VNone ->
      truthy (getattr openai_action "key" VNone) = false ->
      _convert_openai_action_to_internal repr_str openai_action
      = inr {[ "action" := VStr "key"; "keys" := VList [] ]}).
Proof.
  intros Ht Hin.
  assert (Hdec : _convert_openai_action_to_internal repr_str openai_action =
    match py_list
            match getattr openai_action "keys" VNone with
            | VNone =>
                if truthy (getattr openai_action "key" VNone)
                then VList [getattr openai_action "key" VNone] else VList []
            | _ => getattr openai_action "keys" VNone
            end with
    | inl e => inl e
    | inr l => inr {[ "action" := VStr "key"; "keys" := VList l ]}
    end).
  { unfold key_types in Hin.
    rewrite !in_strs_cons, in_strs_nil, !orb_true_iff, !eq_str_true in Hin.
    destruct Hin as [-> | [-> | [-> | [-> | [-> | [-> | [-> | [=]]]]]]]];
      decode_branch Ht; reflexivity. }
  rewrite Hdec. conjuncts.
  - intros l Hl.
    assert (Hk : getattr openai_action "keys" VNone = VList l)
      by (unfold getattr; by rewrite Hl).
    by rewrite Hk.
  - intros single Hkeys Hkey Htruthy.
    assert (Hk : getattr openai_action "key" VNone = single)
      by (unfold getattr; by rewrite Hkey).
    by rewrite Hkeys, Hk, Htruthy.
  - intros Hkeys Hfalsy. by rewrite Hkeys, Hfalsy.
Qed.

(** *** The loop and the responses it gets *)

(** A turn goes on to another only on a falsy response or while fewer
    than five calls were made, and raises only from the fifth call on. *)
Lemma turn_continue self attempt answer self' :
  turn repr_str self attempt answer = (Continue, self') ->
  answer = CallReturns None \/ (attempt < max_retries)%nat.
Proof.
  assert (Hh : forall e, handler attempt e = Continue -> (attempt < max_retries)%nat).
  { intros e. unfold handler. destruct (max_retries <=? attempt)%nat eqn:E; [done |].
    intros _. by apply Nat.leb_gt. }
  unfold turn. intros H.
  destruct answer as [e | [response |]]; [right; inversion H; eauto | | by left].
  right. destruct (reasoning_of _) as [reasoning_text reasoning_source].
  destruct (filter _ _) as [| computer_call ?]; [inversion H; eauto |].
  destruct (item_action computer_call) as [action |]; [| inversion H; eauto].
  destruct (_convert_openai_action_to_internal repr_str action); [inversion H; eauto |].
  destruct (response_json response) as [[? | ?] |]; inversion H; eauto.
Qed.

Lemma turn_raise self attempt answer e self' :
  turn repr_str self attempt answer = (Raise e, self') -> (max_retries <= attempt)%nat.
Proof.
  assert (Hh : forall e', handler attempt e' = Raise e -> (max_retries <= attempt)%nat).
  { intros e'. unfold handler. destruct (max_retries <=? attempt)%nat eqn:E; [| done].
    intros _. by apply Nat.leb_le. }
  unfold turn. intros H.
  destruct answer as [e' | [response |]]; [inversion H; eauto | | done].
  destruct (reasoning_of _) as [reasoning_text reasoning_source].
  destruct (filter _ _) as [| computer_call ?]; [inversion H; eauto |].
  destruct (item_action computer_call) as [action |]; [| inversion H; eauto].
  destruct (_convert_openai_action_to_internal repr_str action); [inversion H; eauto |].
  destruct (response_json response) as [[? | ?] |]; inversion H; eauto.
Qed.

Lemma action_loop_bounded api prompt screenshot :
  (forall k rq, api k rq <> CallReturns None) ->
  forall fuel self attempt,
  (attempt < 5)%nat ->
  (5 <= attempt + fuel)%nat ->
  exists rqs e self',
    action_loop repr_str fuel api prompt screenshot self attempt = (rqs, e, self')
    /\ e <> Unfinished
    /\ (1 <= length rqs)%nat
    /\ (attempt + length rqs <= 5)%nat
    /\ (forall err, e = Fails err -> (attempt + length rqs = 5)%nat).
Proof.
  intros Htruthy. induction fuel as [|fuel IH]; intros self attempt Hlt Hfuel; [lia |].
  cbn [action_loop].
  destruct (turn repr_str self (S attempt) _) as [te self1] eqn:Hturn.
  destruct te as [| r | err].
  - destruct (turn_continue _ _ _ _ Hturn) as [Hnone | Hless]; [by apply Htruthy in Hnone |].
    unfold max_retries in Hless.
    destruct (IH self1 (S attempt)) as (rqs & e & self' & -> & He & H1 & H2 & H3);
      [lia | lia |].
    eexists _, e, self'. split; [reflexivity |]. simpl.
    conjuncts; [done | lia | lia |]. intros err Herr. specialize (H3 err Herr). lia.
  - eexists _, _, _. split; [reflexivity |]. simpl. conjuncts; [done | lia | lia | done].
  - pose proof (turn_raise _ _ _ _ _ Hturn) as Hge. unfold max_retries in Hge.
    eexists _, _, _. split; [reflexivity |]. simpl. conjuncts; [done | lia | lia |].
    intros _ _. lia.
Qed.

(** X10: when the API never answers with a falsy response,
    [_get_computer_use_action] ends within five calls: it yields the
    action of the first turn that decodes one, and it gives up, raising
    the error of the fifth call, only after five calls have failed. *)
Theorem operator_loop_ends_within_five_calls fuel api prompt screenshot self :
  (5 <= fuel)%nat ->
  (forall k rq, api k rq <> CallReturns None) ->
  exists rqs e self',
    _get_computer_use_action repr_str fuel api prompt screenshot self = (rqs, e, self')
    /\ e <> Unfinished
    /\ (1 <= length rqs <= 5)%nat
    /\ (forall err, e = Fails err -> length rqs = 5%nat).
Proof.
  intros Hfuel Htruthy.
  destruct (action_loop_bounded api prompt screenshot Htruthy fuel self 0%nat)
    as (rqs & e & self' & Hrun & He & H1 & H2 & H3); [lia | lia |].
  exists rqs, e, self'. simpl in *. by conjuncts.
Qed.

(** X11: falsy responses are retried without any bound: the check of
    [max_retries] is not reached for them.  As long as the API answers
    with nothing, the loop goes on calling it in the same mode, with
    the state untouched, however many calls that makes. *)
Theorem empty_responses_are_retried_without_bound fuel api prompt screenshot self :
  (forall k rq, (k <= fuel)%nat -> api k rq = CallReturns None) ->
  _get_computer_use_action repr_str fuel api prompt screenshot self
  = (replicate fuel (next_call self prompt screenshot), Unfinished, self).
Proof.
  unfold _get_computer_use_action.
  assert (Hgen : forall n attempt,
    (forall k rq, (attempt < k <= attempt + n)%nat -> api k rq = CallReturns None) ->
    action_loop repr_str n api prompt screenshot self attempt
    = (replicate n (next_call self prompt screenshot), Unfinished, self)).
  { induction n as [|n IH]; intros attempt Hnone; [done |].
    cbn [action_loop]. rewrite Hnone by lia. cbn [turn].
    rewrite IH; [done |]. intros k rq Hk. apply Hnone. lia. }
  intros Hnone. apply Hgen. intros k rq Hk. apply Hnone. lia.
Qed.

End OperatorMore.

(** A click without coordinates is decoded to a named action. *)
Lemma decoded_action_is_named_witness :
  exists name,
    ({[ "action" := VStr "left_click"; "coordinate" := VList [VInt 0; VInt 0] ]}
       : gmap string pyval) !! "action" = Some (VStr name)
    /\ name <> "terminate".
Proof.
  destruct (decoded_action_is_named quote_repr OperatorCUAPolicy.bare_click
              {[ "action" := VStr "left_click"; "coordinate" := VList [VInt 0; VInt 0] ]})
    as (name & Hname & _ & Hne); [vm_compute; reflexivity |].
  by exists name.
Defined.

(** A drag that names no end point fails on its coordinates. *)
Lemma decode_failures_witness :
  OperatorCUAPolicy.drag_from_only !! "type" = Some (VStr "drag")
  /\ fst (OperatorCUAPolicy.drag_end OperatorCUAPolicy.drag_from_only) = VNone.
Proof.
  destruct (decode_failures quote_repr OperatorCUAPolicy.drag_from_only
              (mkExn RuntimeError "Operator drag action missing coordinates"))
    as [[Hno _] | [(t & Ht & Hno & _) | [(t & Ht & Hno & _) | (Ht & _ & _)]]];
    [vm_compute; reflexivity | | | |].
  - vm_compute in Hno. discriminate.
  - vm_compute in Ht. inversion Ht; subst. vm_compute in Hno. discriminate.
  - vm_compute in Ht. inversion Ht; subst. vm_compute in Hno. discriminate.
  - split; [exact Ht | reflexivity].
Defined.

(** A scroll by deltas, anchored at the centre of the display. *)
Lemma decode_scroll_synonyms_witness :
  exists action_dict,
    OperatorCUAPolicy._convert_openai_action_to_internal quote_repr
      OperatorCUAPolicy.scroll_by_delta = inr action_dict
    /\ action_dict !! "pixels_y" = Some (VInt 240)
    /\ action_dict !! "coordinate" = Some (VList [VInt 640; VInt 360]).
Proof.
  destruct (decode_scroll_synonyms quote_repr OperatorCUAPolicy.scroll_by_delta)
    as (action_dict & Hdec & _ & _ & Hy & Hxy); [reflexivity |].
  exists action_dict. split; [exact Hdec |]. split; [exact Hy | exact Hxy].
Defined.

(** A key press that names its key under [key]. *)
Lemma decode_keys_witness :
  OperatorCUAPolicy._convert_openai_action_to_internal quote_repr
    OperatorCUAPolicy.single_keypress
  = inr {[ "action" := VStr "key"; "keys" := VList [VStr "Enter"] ]}.
Proof.
  destruct (decode_keys quote_repr OperatorCUAPolicy.single_keypress (VStr "keypress"))
    as (_ & Hsingle & _); [reflexivity | reflexivity |].
  by apply Hsingle.
Defined.

(** An API that fails on every call is given up on at the fifth. *)
Lemma operator_loop_ends_within_five_calls_witness :
  exists rqs e self',
    OperatorCUAPolicy._get_computer_use_action quote_repr 8
      (fun _ _ => OperatorCUAPolicy.CallRaises ModelClient.server_error)
      "Open the menu" "iVBORw0KGgo" (OperatorCUAPolicy.mkState VNone VNone)
    = (rqs, e, self')
    /\ e = OperatorCUAPolicy.Fails ModelClient.server_error
    /\ length rqs = 5%nat.
Proof.
  destruct (operator_loop_ends_within_five_calls quote_repr 8
              (fun _ _ => OperatorCUAPolicy.CallRaises ModelClient.server_error)
              "Open the menu" "iVBORw0KGgo" (OperatorCUAPolicy.mkState VNone VNone))
    as (rqs & e & self' & Hrun & _ & _ & Hfive); [lia | done |].
  exists rqs, e, self'. split; [exact Hrun |].
  assert (He : e = OperatorCUAPolicy.Fails ModelClient.server_error).
  { vm_compute in Hrun. by inversion Hrun. }
  split; [exact He | by eapply Hfive].
Defined.

(** An API that answers nothing, called seven times. *)
Lemma empty_responses_are_retried_without_bound_witness :
  OperatorCUAPolicy._get_computer_use_action quote_repr 7
    (fun _ _ => OperatorCUAPolicy.CallReturns None)
    "Open the menu" "iVBORw0KGgo" (OperatorCUAPolicy.mkState VNone VNone)
  = (replicate 7 (OperatorCUAPolicy.call_operator_initial "Open the menu" "iVBORw0KGgo"),
     OperatorCUAPolicy.Unfinished, OperatorCUAPolicy.mkState VNone VNone).
Proof.
  by rewrite (empty_responses_are_retried_without_bound quote_repr 7
                (fun _ _ => OperatorCUAPolicy.CallReturns None)).
Defined.

(** * Further properties of the prompt builders *)

Section PromptMore.
Import Trajectory Prompts.

Variable repr_str : string -> string.

Implicit Types (trajectory recent : list step) (t : step).

Lemma index_two_items v x y :
  py_index v 0 = inr x -> py_index v 1 = inr y -> has_two_items v = true.
Proof.
  destruct v as [| | | s | l]; try done; simpl.
  - by destruct (chars s) as [|a [|b more]].
  - by destruct l as [|a [|b l]].
Qed.

Lemma lt_zero_number v b : lt_zero v = inr b -> is_number v = true.
Proof. by destruct v. Qed.

(** A step whose history line can be written is well formed. *)
Lemma cua_history_action_inv t line :
  CUAPolicy.history_action repr_str (action_of t) = inr line -> well_formed_step t.
Proof.
  unfold CUAPolicy.history_action. intros H. split.
  - intros Hclick Htruthy. unfold is_click in Hclick.
    rewrite Hclick, Htruthy in H.
    destruct (py_index _ 0) as [? | x] eqn:H0; [done |].
    destruct (py_index _ 1) as [? | y] eqn:H1; [done |].
    by eapply index_two_items.
  - intros Hscroll. rewrite Hscroll in H.
    destruct (lt_zero _) as [? | b] eqn:Hb; [done |].
    by eapply lt_zero_number.
Qed.

Lemma operator_history_action_inv number t line :
  OperatorCUAPolicy.history_action repr_str number (action_of t) = inr line ->
  well_formed_step t.
Proof.
  unfold OperatorCUAPolicy.history_action. intros H. split.
  - intros Hclick Htruthy. unfold is_click in Hclick.
    rewrite Hclick, Htruthy in H.
    destruct (py_index _ 0) as [? | x] eqn:H0; [done |].
    destruct (py_index _ 1) as [? | y] eqn:H1; [done |].
    by eapply index_two_items.
  - intros Hscroll. rewrite Hscroll in H.
    destruct (lt_zero _) as [? | b] eqn:Hb; [done |].
    by eapply lt_zero_number.
Qed.

Lemma cua_history_lines_inv recent history_text :
  CUAPolicy.history_lines repr_str recent = inr history_text ->
  Forall well_formed_step recent.
Proof.
  revert history_text. induction recent as [|t recent IH]; intros history_text H;
    [constructor |].
  simpl in H.
  destruct (CUAPolicy.history_action repr_str (action_of t)) as [? | line] eqn:Hline;
    [done |].
  destruct (CUAPolicy.history_lines repr_str recent) as [? | later] eqn:Hlater; [done |].
  constructor; [by eapply cua_history_action_inv | by eapply IH].
Qed.

Lemma operator_history_lines_inv offset recent :
  forall i history_context,
  OperatorCUAPolicy.history_lines repr_str offset i recent = inr history_context ->
  Forall well_formed_step recent.
Proof.
  induction recent as [|t recent IH]; intros i history_context H; [constructor |].
  simpl in H.
  destruct (OperatorCUAPolicy.history_action repr_str _ (action_of t))
    as [? | line] eqn:Hline; [done |].
  destruct (OperatorCUAPolicy.history_lines repr_str offset (i + 1) recent)
    as [? | later] eqn:Hlater; [done |].
  constructor; [by eapply operator_history_action_inv | by eapply IH].
Qed.

(** X12: when the builders raise.  Each builder returns a prompt
    exactly when the steps in its window, the last five of the
    trajectory for the UI-TARS policy and the last three for the
    operator policy, are well formed; a click with a coordinate of a
    single item or a scroll by something that is no number, within the
    window, makes it raise, and the same step further back does not. *)
Theorem builders_return_on_well_formed_windows
    (max_steps : Z) (task_description success_criteria : string)
    trajectory (current_step : Z) :
  ((exists prompt,
      CUAPolicy._build_computer_use_prompt repr_str max_steps task_description
        success_criteria trajectory current_step = inr prompt)
   <-> Forall well_formed_step (last_n 5 trajectory))
  /\ ((exists prompt,
         OperatorCUAPolicy._build_computer_use_prompt repr_str max_steps task_description
           success_criteria trajectory current_step = inr prompt)
      <-> Forall well_formed_step (last_n 3 trajectory)).
Proof.
  split; split.
  - intros [prompt H]. unfold CUAPolicy._build_computer_use_prompt in H.
    destruct (CUAPolicy.history_lines repr_str _) as [? | history_text] eqn:Hh; [done |].
    by eapply cua_history_lines_inv.
  - intros Hwf. unfold CUAPolicy._build_computer_use_prompt.
    destruct (cua_history_lines repr_str _ Hwf) as [history_text ->]. cbn. eauto.
  - intros [prompt H]. unfold OperatorCUAPolicy._build_computer_use_prompt in H.
    destruct (OperatorCUAPolicy.history_lines repr_str _ _ _)
      as [? | history_context] eqn:Hh; [done |].
    by eapply operator_history_lines_inv.
  - intros Hwf. unfold OperatorCUAPolicy._build_computer_use_prompt.
    destruct (operator_history_lines repr_str
                (Z.of_nat (length trajectory) - Z.of_nat (length (last_n 3 trajectory)))
                _ Hwf 0%Z) as [history_context ->].
    cbn. eauto.
Qed.

Lemma last_n_idemp {A} n (l : list A) : last_n n (last_n n l) = last_n n l.
Proof.
  unfold last_n at 1. rewrite length_last_n.
  replace (length l `min` n - n)%nat with 0%nat by lia. done.
Qed.

(** X13: the builders look at a bounded window.  The prompt of the
    UI-TARS policy is the prompt of the last five steps alone; the
    prompt of the operator policy depends on the trajectory through its
    length, which numbers the history lines, and its last three steps. *)
Theorem builders_read_a_bounded_window
    (max_steps : Z) (task_description success_criteria : string)
    trajectory (current_step : Z) :
  CUAPolicy._build_computer_use_prompt repr_str max_steps task_description
    success_criteria trajectory current_step
  = CUAPolicy._build_computer_use_prompt repr_str max_steps task_description
      success_criteria (last_n 5 trajectory) current_step
  /\ forall other,
       length other = length trajectory ->
       last_n 3 other = last_n 3 trajectory ->
       OperatorCUAPolicy._build_computer_use_prompt repr_str max_steps task_description
         success_criteria other current_step
       = OperatorCUAPolicy._build_computer_use_prompt repr_str max_steps task_description
           success_criteria trajectory current_step.
Proof.
  split.
  - unfold CUAPolicy._build_computer_use_prompt. by rewrite last_n_idemp.
  - intros other Hlen Hlast. unfold OperatorCUAPolicy._build_computer_use_prompt.
    by rewrite Hlen, Hlast.
Qed.

End PromptMore.

(** * Further properties of the browser pool *)

Section PoolMore.
Import BrowserPool.

Implicit Types (s : state) (t b : nat) (m : move).

Lemma pc_of_set s t p t' :
  default Idle (set_pc s t p !! t') = if decide (t = t') then p else pc_of s t'.
Proof.
  unfold set_pc, pc_of. case_decide as Ht.
  - subst. by rewrite lookup_insert_eq.
  - by rewrite lookup_insert_ne.
Qed.

Lemma pop_last pool b rest : pop pool = Some (b, rest) -> pool = (rest ++ [b])%list.
Proof.
  unfold pop. destruct (reverse pool) as [|b' rest'] eqn:Hrev; [done |].
  intros [= <- <-]. apply (f_equal reverse) in Hrev.
  rewrite reverse_involutive in Hrev. by rewrite Hrev, reverse_cons.
Qed.

(** X14: under every interleaving of the pool functions, started from
    the empty pool, the idle pool never holds more than three sessions. *)
Theorem idle_pool_never_exceeds_capacity schedule s :
  run initial schedule = Some s ->
  (length (_browser_pool s) <= 3)%nat.
Proof.
  intros Hrun. apply (idle_pool_bounded schedule initial s Hrun).
  unfold pool_capacity. simpl. lia.
Qed.

Lemma exclusive_initial : exclusive initial.
Proof.
  unfold exclusive, initial, pc_of. simpl. conjuncts.
  - constructor.
  - intros b Hb. by apply elem_of_nil in Hb.
  - intros t b. by rewrite lookup_empty.
  - intros t1 t2 b. by rewrite lookup_empty.
Qed.

Lemma step_exclusive s t m s' : step s t m = Some s' -> exclusive s -> exclusive s'.
Proof.
  unfold step. intros Hstep (Hnd & Hold & Hhand & Huniq).
  destruct m, (pc_of s t) eqn:Hpc; try done.
  - (* Acquire *)
    destruct (_pool_lock s); [done |].
    destruct (pop (_browser_pool s)) as [[b rest] |] eqn:Hpop; inversion Hstep; subst;
      unfold exclusive, pc_of; simpl; setoid_rewrite pc_of_set.
    + apply pop_last in Hpop. rewrite Hpop in *.
      apply NoDup_app in Hnd as (Hnd1 & Hnd2 & _).
      conjuncts.
      * done.
      * intros b' Hb'. apply Hold, elem_of_app. by left.
      * intros t' b'. case_decide as Ht; simpl.
        -- intros [= <-]. split.
           ++ apply Hold, elem_of_app. right. by apply list_elem_of_singleton.
           ++ intros Hin. by eapply Hnd2, list_elem_of_singleton.
        -- intros Hb'. destruct (Hhand t' b' Hb') as [? Hnot]. split; [done |].
           intros Hin. apply Hnot, elem_of_app. by left.
      * intros t1 t2 b'. repeat case_decide; simpl; subst; try done.
        -- intros [= <-] Hb'. destruct (Hhand t2 b Hb') as [_ Hnot].
           exfalso. apply Hnot, elem_of_app. right. by apply list_elem_of_singleton.
        -- intros Hb' [= <-]. destruct (Hhand t1 b Hb') as [_ Hnot].
           exfalso. apply Hnot, elem_of_app. right. by apply list_elem_of_singleton.
        -- apply Huniq.
    + conjuncts; [done | done | |].
      * intros t' b'. case_decide; [done | apply Hhand].
      * intros t1 t2 b'. repeat case_decide; simpl; try done. apply Huniq.
  - (* Enter *)
    destruct (_browser_semaphore s) as [|permits]; inversion Hstep; subst.
    unfold exclusive, pc_of; simpl; setoid_rewrite pc_of_set. conjuncts.
    + done.
    + intros b Hb. specialize (Hold b Hb). lia.
    + intros t' b'. case_decide; simpl.
      * intros [= <-]. split; [lia |]. intros Hin. specialize (Hold _ Hin). lia.
      * intros Hb'. destruct (Hhand t' b' Hb'). split; [lia | done].
    + intros t1 t2 b'. repeat case_decide; simpl; subst; try done.
      * intros [= <-] Hb'. destruct (Hhand t2 _ Hb'). lia.
      * intros Hb' [= <-]. destruct (Hhand t1 _ Hb'). lia.
      * apply Huniq.
  - (* Started *)
    inversion Hstep; subst.
    assert (Hb : in_hand (pc_of s t) = Some browser) by by rewrite Hpc.
    unfold exclusive, pc_of; simpl; setoid_rewrite pc_of_set. conjuncts.
    + done.
    + done.
    + intros t' b'. case_decide; simpl; [intros [= <-]; by apply (Hhand t) | apply Hhand].
    + intros t1 t2 b'. repeat case_decide; simpl; subst; try done.
      * intros [= <-] Hb'. by apply (Huniq t1 t2 browser).
      * intros Hb' [= <-]. by apply (Huniq t1 t2 browser).
      * apply Huniq.
  - (* Release *)
    assert (Hb : in_hand (pc_of s t) = Some browser) by by rewrite Hpc.
    destruct (Hhand t browser Hb) as [Hlt Hnot].
    destruct (_pool_lock s); [done |].
    destruct (length (_browser_pool s) <? pool_capacity)%nat; inversion Hstep; subst;
      unfold exclusive, pc_of; simpl; setoid_rewrite pc_of_set; conjuncts.
    + apply NoDup_app. split; [done |]. split; [| apply NoDup_singleton].
      intros b' Hin Hb'. apply list_elem_of_singleton in Hb'. by subst.
    + intros b' Hb'. apply elem_of_app in Hb' as [Hb' | Hb']; [by apply Hold |].
      apply list_elem_of_singleton in Hb'. by subst.
    + intros t' b'. case_decide as Ht; simpl; [done |].
      intros Hb'. destruct (Hhand t' b' Hb') as [? ?]. split; [done |].
      intros Hin. apply elem_of_app in Hin as [Hin | Hin]; [done |].
      apply list_elem_of_singleton in Hin. subst.
      by apply Ht, (Huniq t t' browser).
    + intros t1 t2 b'. repeat case_decide; simpl; try done. apply Huniq.
    + done.
    + done.
    + intros t' b'. case_decide; simpl; [intros [= <-]; by apply (Hhand t) | apply Hhand].
    + intros t1 t2 b'. repeat case_decide; simpl; subst; try done.
      * intros [= <-] Hb'. by apply (Huniq t1 t2 browser).
      * intros Hb' [= <-]. by apply (Huniq t1 t2 browser).
      * apply Huniq.
  - (* Closed *)
    inversion Hstep; subst.
    unfold exclusive, pc_of; simpl; setoid_rewrite pc_of_set. conjuncts.
    + done.
    + done.
    + intros t' b'. case_decide; simpl; [done | apply Hhand].
    + intros t1 t2 b'. repeat case_decide; simpl; try done. apply Huniq.
Qed.

Lemma run_exclusive schedule : forall s s', run s schedule = Some s' -> exclusive s -> exclusive s'.
Proof.
  induction schedule as [| [t m] schedule IH]; intros s s' Hrun Hex; simpl in Hrun.
  - by inversion Hrun; subst.
  - destruct (step s t m) as [s1 |] eqn:Hstep; [| done].
    eapply IH; [exact Hrun |]. by eapply step_exclusive.
Qed.

(** X15: no session is ever shared.  Under every interleaving of the
    pool functions, started from the empty pool, no two tasks have the
    same session in hand, a session in a task's hands is not in the
    idle pool, and the idle pool lists no session twice. *)
Theorem sessions_are_never_shared schedule s :
  run initial schedule = Some s ->
  NoDup (_browser_pool s)
  /\ (forall t b, in_hand (pc_of s t) = Some b -> b ∉ _browser_pool s)
  /\ (forall t1 t2 b,
        in_hand (pc_of s t1) = Some b -> in_hand (pc_of s t2) = Some b -> t1 = t2).
Proof.
  intros Hrun.
  destruct (run_exclusive schedule initial s Hrun exclusive_initial)
    as (Hnd & _ & Hhand & Huniq).
  conjuncts; [done | | done]. intros t b Hb. by destruct (Hhand t b Hb).
Qed.

(** Setting the state of one task changes the number of starting tasks
    by that task alone. *)
Lemma starting_size_set s t p :
  (size (filter (fun kv : nat * pc => is_starting kv.2 = true) (set_pc s t p))
   + (if is_starting (pc_of s t) then 1 else 0)
   = size (starting_tasks s) + (if is_starting p then 1 else 0))%nat.
Proof.
  unfold set_pc, starting_tasks, pc_of.
  rewrite map_filter_insert. simpl.
  assert (Hold : filter (fun kv : nat * pc => is_starting kv.2 = true) (tasks s) !! t
                 = if is_starting (default Idle (tasks s !! t)) then tasks s !! t else None).
  { destruct (tasks s !! t) as [q |] eqn:Hq; simpl.
    - destruct (is_starting q) eqn:Hs.
      + apply map_lookup_filter_Some. by split.
      + apply map_lookup_filter_None. right. intros x. rewrite Hq. intros [= <-].
        simpl. by rewrite Hs.
    - apply map_lookup_filter_None. by left. }
  case_decide as Hp.
  - rewrite Hp, map_size_insert, Hold.
    destruct (tasks s !! t) as [q |] eqn:Hq; simpl; [destruct (is_starting q) |]; simpl; lia.
  - apply not_true_is_false in Hp. rewrite Hp, map_filter_delete, map_size_delete, Hold.
    destruct (tasks s !! t) as [q |] eqn:Hq; simpl; [destruct (is_starting q) eqn:Hs |];
      simpl; try lia.
    assert (Hpos : (0 < size (filter (fun kv : nat * pc => is_starting kv.2 = true)
                                (tasks s)))%nat).
    { destruct (decide (size (filter (fun kv : nat * pc => is_starting kv.2 = true)
                                (tasks s)) = 0%nat)) as [Hz | ?]; [| lia].
      apply map_size_empty_inv in Hz. rewrite Hz, lookup_empty in Hold.
      simpl in Hold. by rewrite Hs in Hold. }
    lia.
Qed.

Lemma step_permits s t m s' :
  step s t m = Some s' ->
  (size (starting_tasks s) + _browser_semaphore s = ceiling)%nat ->
  (size (starting_tasks s') + _browser_semaphore s' = ceiling)%nat.
Proof.
  unfold step. intros Hstep Hinv.
  destruct m, (pc_of s t) eqn:Hpc; try done.
  - destruct (_pool_lock s); [done |].
    destruct (pop (_browser_pool s)) as [[b rest] |]; inversion Hstep; subst;
      unfold starting_tasks at 1; simpl;
      match goal with |- context [set_pc s t ?p] =>
        pose proof (starting_size_set s t p) as Hset end;
      rewrite Hpc in Hset; simpl in Hset; lia.
  - destruct (_browser_semaphore s) as [|permits] eqn:Hsem; inversion Hstep; subst.
    unfold starting_tasks at 1; simpl.
    pose proof (starting_size_set s t (Starting (created s))) as Hset.
    rewrite Hpc in Hset; simpl in Hset; lia.
  - inversion Hstep; subst. unfold starting_tasks at 1; simpl.
    pose proof (starting_size_set s t (Holding browser)) as Hset.
    rewrite Hpc in Hset; simpl in Hset; lia.
  - destruct (_pool_lock s); [done |].
    destruct (length (_browser_pool s) <? pool_capacity)%nat; inversion Hstep; subst;
      unfold starting_tasks at 1; simpl;
      match goal with |- context [set_pc s t ?p] =>
        pose proof (starting_size_set s t p) as Hset end;
      rewrite Hpc in Hset; simpl in Hset; lia.
  - inversion Hstep; subst. unfold starting_tasks at 1; simpl.
    pose proof (starting_size_set s t Idle) as Hset.
    rewrite Hpc in Hset; simpl in Hset; lia.
Qed.

(** X16: what the semaphore does bound.  Under every interleaving a
    permit is missing for each task that is starting a browser and for
    no other: the tasks inside [async with _browser_semaphore] and the
    free permits add up to five, so that at most five browsers are
    being started at a time, whatever the number of sessions alive. *)
Theorem semaphore_bounds_concurrent_starts schedule s :
  run initial schedule = Some s ->
  (size (starting_tasks s) + _browser_semaphore s = 5)%nat
  /\ (size (starting_tasks s) <= 5)%nat.
Proof.
  assert (Hgen : forall schedule s0 s1,
    run s0 schedule = Some s1 ->
    (size (starting_tasks s0) + _browser_semaphore s0 = ceiling)%nat ->
    (size (starting_tasks s1) + _browser_semaphore s1 = ceiling)%nat).
  { clear. induction schedule as [| [t m] schedule IH]; intros s0 s1 Hrun Hinv;
      simpl in Hrun.
    - by inversion Hrun; subst.
    - destruct (step s0 t m) as [s' |] eqn:Hstep; [| done].
      eapply IH; [exact Hrun |]. by eapply step_permits. }
  intros Hrun.
  assert (H5 : (size (starting_tasks s) + _browser_semaphore s = ceiling)%nat).
  { apply (Hgen schedule initial s Hrun). unfold starting_tasks, initial. simpl.
    by rewrite map_filter_empty, map_size_empty. }
  unfold ceiling in H5. lia.
Qed.

(** X17: a released session is reused.  When a task releases its
    session while the idle pool has room, the next acquire, by the same
    task or by an idle one, gets that very session at once: no browser
    is constructed, no permit is taken, and the idle pool is back to
    what it was. *)
Theorem released_session_is_reused s t t' b :
  pc_of s t = Holding b ->
  t' = t \/ pc_of s t' = Idle ->
  _pool_lock s = false ->
  (length (_browser_pool s) < pool_capacity)%nat ->
  exists s',
    run s (release_then_acquire t t') = Some s'
    /\ pc_of s' t' = Holding b
    /\ created s' = created s
    /\ _browser_semaphore s' = _browser_semaphore s
    /\ _browser_pool s' = _browser_pool s.
Proof.
  intros Hpc Hidle Hlock Hroom. unfold release_then_acquire, run.
  unfold step at 1. rewrite Hpc, Hlock.
  replace (length (_browser_pool s) <? pool_capacity)%nat with true
    by (symmetry; by apply Nat.ltb_lt).
  unfold step. unfold pc_of at 1. cbn [tasks _pool_lock _browser_pool].
  rewrite pc_of_set.
  assert (Hidle' : (if decide (t = t') then Idle else pc_of s t') = Idle).
  { case_decide; [done |]. by destruct Hidle as [-> | ?]. }
  rewrite Hidle'.
  assert (Hpop : pop (_browser_pool s ++ [b]) = Some (b, _browser_pool s)).
  { unfold pop. rewrite reverse_app, reverse_singleton. simpl.
    by rewrite reverse_involutive. }
  rewrite Hpop. eexists. split; [reflexivity |].
  unfold pc_of. cbn. unfold set_pc. cbn. by rewrite lookup_insert_eq.
Qed.

(** X18: a release into a full pool closes the session under the pool
    lock.  While [browser.close()] is awaited no task can enter either
    pool function; once it is over the lock is free and the idle pool
    is what it was before the release. *)
Theorem full_pool_release_closes_under_lock s t b :
  pc_of s t = Holding b ->
  _pool_lock s = false ->
  (pool_capacity <= length (_browser_pool s))%nat ->
  exists s1 s2,
    step s t Release = Some s1
    /\ pc_of s1 t = Closing b
    /\ (forall t', step s1 t' Acquire = None /\ step s1 t' Release = None)
    /\ step s1 t Closed = Some s2
    /\ pc_of s2 t = Idle
    /\ _pool_lock s2 = false
    /\ _browser_pool s2 = _browser_pool s.
Proof.
  intros Hpc Hlock Hfull.
  assert (Hrel : step s t Release
    = Some (mkPool (_browser_pool s) (_browser_semaphore s) true
              (set_pc s t (Closing b)) (created s))).
  { unfold step. rewrite Hpc, Hlock.
    by replace (length (_browser_pool s) <? pool_capacity)%nat with false
      by (symmetry; by apply Nat.ltb_ge). }
  eexists _, _. split; [exact Hrel |].
  assert (Hpc1 : pc_of (mkPool (_browser_pool s) (_browser_semaphore s) true
                          (set_pc s t (Closing b)) (created s)) t = Closing b).
  { unfold pc_of, set_pc. cbn. by rewrite lookup_insert_eq. }
  split; [exact Hpc1 |]. split.
  - intros t'. unfold step. cbn [_pool_lock].
    split; by destruct (pc_of _ t').
  - unfold step. rewrite Hpc1. split; [reflexivity |].
    unfold pc_of, set_pc. cbn. by rewrite lookup_insert_eq.
Qed.

End PoolMore.

(** Four sessions acquired and released leave three in the idle pool. *)
Lemma idle_pool_never_exceeds_capacity_witness :
  exists s,
    BrowserPool.run BrowserPool.initial BrowserPool.four_in_four_out = Some s
    /\ (length (BrowserPool._browser_pool s) <= 3)%nat.
Proof.
  destruct (BrowserPool.run BrowserPool.initial BrowserPool.four_in_four_out)
    as [s |] eqn:Hrun; [| vm_compute in Hrun; discriminate].
  exists s. split; [reflexivity |].
  exact (idle_pool_never_exceeds_capacity BrowserPool.four_in_four_out s Hrun).
Defined.

Lemma sessions_are_never_shared_witness :
  exists s,
    BrowserPool.run BrowserPool.initial BrowserPool.six_acquires = Some s
    /\ NoDup (BrowserPool._browser_pool s)
    /\ forall t1 t2 b,
         BrowserPool.in_hand (BrowserPool.pc_of s t1) = Some b ->
         BrowserPool.in_hand (BrowserPool.pc_of s t2) = Some b -> t1 = t2.
Proof.
  destruct (BrowserPool.run BrowserPool.initial BrowserPool.six_acquires)
    as [s |] eqn:Hrun; [| vm_compute in Hrun; discriminate].
  exists s. split; [reflexivity |].
  destruct (sessions_are_never_shared BrowserPool.six_acquires s Hrun)
    as (Hnd & _ & Huniq).
  split; [exact Hnd | exact Huniq].
Defined.

Lemma semaphore_bounds_concurrent_starts_witness :
  exists s,
    BrowserPool.run BrowserPool.initial BrowserPool.four_in_four_out = Some s
    /\ (size (BrowserPool.starting_tasks s) + BrowserPool._browser_semaphore s = 5)%nat.
Proof.
  destruct (BrowserPool.run BrowserPool.initial BrowserPool.four_in_four_out)
    as [s |] eqn:Hrun; [| vm_compute in Hrun; discriminate].
  exists s. split; [reflexivity |].
  by destruct (semaphore_bounds_concurrent_starts BrowserPool.four_in_four_out s Hrun).
Defined.

(** Task 0 releases the only session and task 1 acquires it. *)
Lemma released_session_is_reused_witness :
  exists s',
    BrowserPool.run BrowserPool.one_session (BrowserPool.release_then_acquire 0 1) = Some s'
    /\ BrowserPool.pc_of s' 1%nat = BrowserPool.Holding 0
    /\ BrowserPool.created s' = 1%nat.
Proof.
  destruct (released_session_is_reused BrowserPool.one_session 0 1 0)
    as (s' & Hrun & Hpc & Hcreated & _); [reflexivity | by right | reflexivity | |].
  - unfold BrowserPool.pool_capacity. simpl. lia.
  - by exists s'.
Defined.

(** Task 3 releases into the full pool. *)
Lemma full_pool_release_closes_under_lock_witness :
  exists s1,
    BrowserPool.step BrowserPool.full_pool 3 BrowserPool.Release = Some s1
    /\ BrowserPool.pc_of s1 3%nat = BrowserPool.Closing 3
    /\ BrowserPool.step s1 0 BrowserPool.Acquire = None.
Proof.
  destruct (full_pool_release_closes_under_lock BrowserPool.full_pool 3 3)
    as (s1 & s2 & Hrel & Hpc & Hblocked & _); [reflexivity | reflexivity | |].
  - unfold BrowserPool.pool_capacity. simpl. lia.
  - exists s1. split; [exact Hrel |]. split; [exact Hpc |]. by destruct (Hblocked 0%nat).
Defined.

(** * Further properties of the task matrix runner *)

Section RunnerMore.
Import ParallelRunner.

Variable repr_str : string -> string.
Variable format_exc : Exception -> string.

Implicit Types (tr : ProgressTracker) (task_func : string -> string -> task_outcome)
  (models apps : list string) (key : string * string).

(** X19: the pairs of the matrix.  A pair gets a task exactly when its
    model is among the models, its app among the apps and, where
    [valid_combinations] is given, the pair is one of them; a valid
    combination outside the product of the two lists is passed over in
    silence.  Without [valid_combinations] there is a task for each
    model and app, [len(models) * len(apps)] in all. *)
Theorem matrix_pairs models apps (valid_combinations : option (list (string * string))) :
  (forall model_name app_name,
     (model_name, app_name) ∈ matrix models apps valid_combinations
     <-> model_name ∈ models /\ app_name ∈ apps
         /\ match valid_combinations with
            | Some valid => (model_name, app_name) ∈ valid
            | None => True
            end)
  /\ length (matrix models apps None) = (length models * length apps)%nat.
Proof.
  split.
  - intros model_name app_name. unfold matrix.
    rewrite list_elem_of_bind. setoid_rewrite list_elem_of_bind. split.
    + intros (m & (a & Hin & Ha) & Hm).
      destruct valid_combinations as [valid |].
      * case_bool_decide as Hv; [| by apply elem_of_nil in Hin].
        apply list_elem_of_singleton in Hin as [= -> ->]. by conjuncts.
      * apply list_elem_of_singleton in Hin as [= -> ->]. by conjuncts.
    + intros (Hm & Ha & Hv). exists model_name. split; [| done].
      exists app_name. split; [| done].
      destruct valid_combinations as [valid |].
      * rewrite bool_decide_eq_true_2 by done. by apply list_elem_of_singleton.
      * by apply list_elem_of_singleton.
  - unfold matrix. induction models as [|m models IH]; [done |].
    rewrite bind_cons, length_app, IH. simpl. f_equal.
    clear. induction apps as [|a apps IH]; [done |].
    rewrite bind_cons, length_app, IH. done.
Qed.

(** *** What the tracker keeps *)

Lemma update_status_lookup tr model app status error_detail tr' raised_exn :
  update_status tr model app status error_detail = (tr', raised_exn) ->
  tracker_models tr' = tracker_models tr
  /\ tracker_apps tr' = tracker_apps tr
  /\ (forall key, key <> (model, app) ->
        status_matrix tr' !! key = status_matrix tr !! key
        /\ error_details tr' !! key = error_details tr !! key)
  /\ (tracked tr (model, app) = true ->
      status_matrix tr' !! (model, app) = Some status
      /\ (truthy error_detail = true ->
          error_details tr' !! (model, app) = Some error_detail)).
Proof.
  unfold update_status. intros H.
  destruct (tracked tr (model, app)); [| inversion H; subst; by conjuncts].
  destruct (truthy error_detail); inversion H; subst; simpl; conjuncts; try done.
  - intros key Hne. by rewrite !lookup_insert_ne.
  - intros _. by rewrite !lookup_insert_eq.
  - intros key Hne. by rewrite lookup_insert_ne.
  - intros _. by rewrite lookup_insert_eq.
Qed.

Lemma on_exception_lookup tr e model_name app_name tr' result :
  on_exception format_exc tr e model_name app_name = (tr', result) ->
  tracker_models tr' = tracker_models tr
  /\ tracker_apps tr' = tracker_apps tr
  /\ (forall key, key <> (model_name, app_name) ->
        status_matrix tr' !! key = status_matrix tr !! key
        /\ error_details tr' !! key = error_details tr !! key)
  /\ (tracked tr (model_name, app_name) = true ->
      status_matrix tr' !! (model_name, app_name) = Some (failure_status e)
      /\ error_details tr' !! (model_name, app_name) = Some (failure_detail format_exc e)).
Proof.
  unfold on_exception. intros H.
  destruct (update_status _ _ _ _ _) as [tr1 r1] eqn:Hup. inversion H; subst.
  destruct (update_status_lookup _ _ _ _ _ _ _ Hup) as (Hm & Ha & Hother & Hkey).
  conjuncts; try done. intros Htr. destruct (Hkey Htr) as [Hst Hdet].
  split; [done |]. apply Hdet. simpl. by destruct (exn_str e).
Qed.

Lemma run_single_task_lookup task_func model_name app_name tr tr' result :
  _run_single_task repr_str format_exc task_func model_name app_name tr = (tr', result) ->
  tracker_models tr' = tracker_models tr
  /\ tracker_apps tr' = tracker_apps tr
  /\ (forall key, key <> (model_name, app_name) ->
        status_matrix tr' !! key = status_matrix tr !! key
        /\ error_details tr' !! key = error_details tr !! key)
  /\ (forall e, tracked tr (model_name, app_name) = true ->
        task_func model_name app_name = TaskRaises e ->
        status_matrix tr' !! (model_name, app_name) = Some (failure_status e)
        /\ error_details tr' !! (model_name, app_name)
           = Some (failure_detail format_exc e)).
Proof.
  unfold _run_single_task. intros H.
  destruct (update_status tr _ _ _ VNone) as [tr1 r1] eqn:H1.
  destruct (update_status_lookup _ _ _ _ _ _ _ H1) as (Hm1 & Ha1 & Ho1 & _).
  destruct (update_status_tracked repr_str _ _ _ _ _ _ _ H1) as [K1 _].
  destruct (task_func model_name app_name) as [res | e].
  - destruct (truthy (get res "success")).
    + destruct (update_status tr1 _ _ _ VNone) as [tr2 r2] eqn:H2.
      destruct (update_status_lookup _ _ _ _ _ _ _ H2) as (Hm2 & Ha2 & Ho2 & _).
      inversion H; subst. conjuncts; try congruence.
      intros key Hne. destruct (Ho1 key Hne), (Ho2 key Hne). split; congruence.
    + destruct (update_status tr1 _ _ _ _) as [tr2 r2] eqn:H2.
      destruct (update_status_lookup _ _ _ _ _ _ _ H2) as (Hm2 & Ha2 & Ho2 & _).
      destruct r2 as [e |].
      * destruct (on_exception_lookup _ _ _ _ _ _ H) as (Hm3 & Ha3 & Ho3 & _).
        conjuncts; try congruence.
        intros key Hne. destruct (Ho1 key Hne), (Ho2 key Hne), (Ho3 key Hne).
        split; congruence.
      * inversion H; subst. conjuncts; try congruence.
        intros key Hne. destruct (Ho1 key Hne), (Ho2 key Hne). split; congruence.
  - destruct (on_exception_lookup _ _ _ _ _ _ H) as (Hm3 & Ha3 & Ho3 & Hk3).
    conjuncts; try congruence.
    + intros key Hne. destruct (Ho1 key Hne), (Ho3 key Hne). split; congruence.
    + intros e' Htr [= <-]. apply Hk3. by rewrite K1.
Qed.

Lemma run_all_lookup task_func pairs :
  forall tr tr' entries,
  run_all repr_str format_exc task_func pairs tr = (tr', entries) ->
  tracker_models tr' = tracker_models tr
  /\ tracker_apps tr' = tracker_apps tr
  /\ (forall key, key ∉ pairs ->
        status_matrix tr' !! key = status_matrix tr !! key
        /\ error_details tr' !! key = error_details tr !! key)
  /\ (forall model_name app_name e,
        (model_name, app_name) ∈ pairs ->
        tracked tr (model_name, app_name) = true ->
        task_func model_name app_name = TaskRaises e ->
        status_matrix tr' !! (model_name, app_name) = Some (failure_status e)
        /\ error_details tr' !! (model_name, app_name)
           = Some (failure_detail format_exc e)).
Proof.
  induction pairs as [| [m a] pairs IH]; intros tr tr' entries H; simpl in H.
  - inversion H; subst. conjuncts; try done.
    intros model_name app_name e Hin. by apply elem_of_nil in Hin.
  - destruct (_run_single_task _ _ _ _ _ _) as [tr1 result] eqn:H1.
    destruct (run_all _ _ _ _ _) as [tr2 rest] eqn:H2. inversion H; subst.
    destruct (run_single_task_lookup _ _ _ _ _ _ H1) as (Hm1 & Ha1 & Ho1 & Hk1).
    destruct (run_single_task_spec _ _ _ _ _ _ _ _ H1) as [K1 _].
    destruct (IH _ _ _ H2) as (Hm2 & Ha2 & Ho2 & Hk2).
    conjuncts; try congruence.
    + intros key Hnot. apply not_elem_of_cons in Hnot as [Hne Hnot].
      destruct (Ho1 key Hne), (Ho2 key Hnot). split; congruence.
    + intros model_name app_name e Hin Htr Hraise.
      destruct (decide ((model_name, app_name) ∈ pairs)) as [Hrest | Hnot].
      * apply (Hk2 _ _ e Hrest); [by rewrite K1 | done].
      * apply elem_of_cons in Hin as [[= -> ->] | Hin]; [| done].
        destruct (Ho2 _ Hnot) as [-> ->]. by apply Hk1.
Qed.

Lemma elem_of_keys_of_map {K V} (v : V) (keys : list K) (k : K) :
  k ∈ keys -> k ∈ (map (fun k => (k, v)) keys).*1.
Proof.
  induction keys as [|k' keys IH]; intros Hin; [by apply elem_of_nil in Hin |].
  simpl. apply elem_of_cons. apply elem_of_cons in Hin as [-> | Hin]; [by left |].
  right. by apply IH.
Qed.

(** A new tracker tracks every pair of its models and apps. *)
Lemma new_tracker_tracked models apps model_name app_name :
  model_name ∈ models -> app_name ∈ apps ->
  tracked (new_tracker models apps) (model_name, app_name) = true.
Proof.
  intros Hm Ha. unfold tracked, new_tracker. simpl.
  apply bool_decide_eq_true.
  destruct (list_to_map _ !! (model_name, app_name)) as [st |] eqn:Hl; [by eexists |].
  apply not_elem_of_list_to_map in Hl. exfalso. apply Hl.
  apply elem_of_keys_of_map.
  apply list_elem_of_bind. exists model_name. split; [| done].
  apply list_elem_of_bind. exists app_name. split; [| done].
  by apply list_elem_of_singleton.
Qed.

(** X20: the error of a failed attempt is kept for the summary.  For
    every pair of the matrix whose task function raised, the [errors]
    of the summary hold an entry with the pair, the status
    "Failed: <message>" and, as its detail, the message followed by
    the traceback. *)
Theorem raised_errors_are_reported models apps task_func (stage_name : string)
    valid_combinations model_name app_name e :
  (model_name, app_name) ∈ matrix models apps valid_combinations ->
  task_func model_name app_name = TaskRaises e ->
  mkError model_name app_name (failure_detail format_exc e) (failure_status e)
  ∈ errors (run_parallel_tasks repr_str format_exc models apps task_func stage_name
              valid_combinations).
Proof.
  intros Hin Hraise.
  destruct (matrix_pairs models apps valid_combinations) as [Hpairs _].
  destruct (proj1 (Hpairs model_name app_name) Hin) as (Hm & Ha & _).
  unfold run_parallel_tasks.
  destruct (run_all _ _ _ _ _) as [tr entries] eqn:Hrun. simpl.
  destruct (run_all_lookup _ _ _ _ _ Hrun) as (Hms & Has & _ & Hkey).
  destruct (Hkey model_name app_name e Hin (new_tracker_tracked _ _ _ _ Hm Ha) Hraise)
    as [Hst Hdet].
  unfold get_all_errors. rewrite Hms, Has. simpl.
  apply list_elem_of_bind. exists model_name. split; [| done].
  apply list_elem_of_bind. exists app_name. split; [| done].
  rewrite Hst, Hdet. simpl.
  assert (Hne : negb (String.eqb (exn_str e ++ "

Full traceback:
" ++ format_exc e) EmptyString) = true) by (by destruct (exn_str e)).
  rewrite Hne. by apply list_elem_of_singleton.
Qed.

Lemma successful_tasks_count models apps task_func (stage_name : string)
    valid_combinations :
  successful_tasks (run_parallel_tasks repr_str format_exc models apps task_func
                      stage_name valid_combinations)
  = length (filter (fun r : entry => truthy (get (entry_result r) "success") = true)
              (results (run_parallel_tasks repr_str format_exc models apps task_func
                          stage_name valid_combinations))).
Proof. unfold run_parallel_tasks. by destruct (run_all _ _ _ _ _). Qed.

Lemma successes_and_raises task_func (is_tracked : string * string -> bool)
    (pairs : list (string * string)) :
  (length (filter (fun r : entry => truthy (get (entry_result r) "success") = true)
             (map (fun '(model_name, app_name) =>
                     mkEntry model_name app_name
                       (attempt_result format_exc (is_tracked (model_name, app_name))
                          (task_func model_name app_name) model_name app_name)) pairs))
   + length (filter (fun pair => raised (task_func pair.1 pair.2) = true) pairs)
   <= length pairs)%nat.
Proof.
  induction pairs as [| [m a] pairs IH]; [done |].
  cbn [map]. rewrite !filter_cons. cbn [fst snd entry_result length].
  destruct (task_func m a) as [res | e'] eqn:Hf; cbn [raised attempt_result].
  - rewrite (decide_False (P := false = true)) by done.
    case_decide; cbn [length]; lia.
  - rewrite (decide_True (P := true = true)) by done.
    rewrite decide_False by done. cbn [length]. lia.
Qed.

(** X21: an attempt that raised is never counted as a success: the
    successful tasks are at most the pairs whose task returned, so that
    [failed_tasks] is at least the number of pairs whose task raised. *)
Theorem raised_attempts_count_as_failed models apps task_func (stage_name : string)
    valid_combinations :
  (length (filter (fun pair => raised (task_func pair.1 pair.2) = true)
             (matrix models apps valid_combinations))
   <= failed_tasks (run_parallel_tasks repr_str format_exc models apps task_func
                      stage_name valid_combinations))%nat.
Proof.
  destruct (run_parallel_tasks_counts repr_str format_exc models apps task_func
              stage_name valid_combinations) as [Htotal Hsum].
  rewrite Htotal in Hsum.
  rewrite successful_tasks_count, run_parallel_tasks_results, length_map in Hsum.
  pose proof (successes_and_raises task_func (tracked (new_tracker models apps))
                (matrix models apps valid_combinations)).
  lia.
Qed.

End RunnerMore.

(** * Properties of the failure analysis and of the verifier *)

Section AnalysisFacts.
Import ModelClient BaseCommenter.

Variable strip : string -> string.

Implicit Types
  (commenter : nat -> string -> string -> list string -> Exception + option string).

(** The loop of the analysis with [remaining] attempts left of its five. *)
Lemma analysis_attempts_run commenter model_name prompt screenshot_inputs :
  forall remaining attempt,
  (attempt + remaining = 5)%nat ->
  exists evs r,
    analysis_attempts strip remaining commenter model_name prompt screenshot_inputs attempt
    = (evs, r)
    /\ (requests evs <= remaining)%nat
    /\ Forall (fun d => d = 1%Q) (sleeps evs)
    /\ (forall k response,
          (k < remaining)%nat ->
          (forall j earlier, (j < k)%nat ->
             commenter (attempt + j)%nat (_get_actual_model_name model_name) prompt
               screenshot_inputs = inr earlier -> usable strip earlier = false) ->
          commenter (attempt + k)%nat (_get_actual_model_name model_name) prompt
            screenshot_inputs = inr response ->
          usable strip response = true ->
          r = strip (default EmptyString response) /\ requests evs = S k)
    /\ ((forall j response, (j < remaining)%nat ->
           commenter (attempt + j)%nat (_get_actual_model_name model_name) prompt
             screenshot_inputs = inr response -> usable strip response = false) ->
        requests evs = remaining
        /\ r = match remaining,
                     commenter 4%nat (_get_actual_model_name model_name) prompt
                       screenshot_inputs with
               | S _, inl e => "Failed to analyze failure after 5 attempts: " ++ exn_str e
               | _, _ => "Unable to analyze failure - no valid response received"
               end).
Proof.
  induction remaining as [|remaining IH]; intros attempt Hsum; cbn [analysis_attempts].
  { eexists _, _. split; [reflexivity |]. simpl. conjuncts.
    - lia.
    - constructor.
    - intros k response Hk. lia.
    - done. }
  destruct (IH (S attempt)) as (evs & r & Hrun & Hreq & Hsl & Hfirst & Hnone); [lia |].
  assert (Hshift : forall j, (S attempt + j = attempt + S j)%nat) by (intros; lia).
  destruct (commenter attempt _ prompt screenshot_inputs) as [e | response] eqn:Hc.
  - destruct (attempt =? 4)%nat eqn:H4.
    + apply Nat.eqb_eq in H4 as ->. assert (remaining = 0%nat) as -> by lia.
      eexists _, _. split; [reflexivity |]. simpl. conjuncts.
      * lia.
      * constructor.
      * intros [|k] response Hk _; [| lia]. rewrite ?Nat.add_0_r, Hc. done.
      * intros _. by rewrite Hc.
    + apply Nat.eqb_neq in H4. rewrite Hrun.
      eexists _, _. split; [reflexivity |]. simpl. conjuncts.
      * lia.
      * by constructor.
      * intros [|k] response Hk Hearlier Hk' Hus.
        { rewrite Nat.add_0_r, Hc in Hk'. done. }
        destruct (Hfirst k response) as [-> ->]; try done; try lia.
        -- intros j earlier Hj. rewrite Hshift. apply Hearlier. lia.
        -- by rewrite Hshift.
      * intros Hno. destruct Hnone as [-> ->].
        { intros j response Hj. rewrite Hshift. apply Hno. lia. }
        split; [done |]. destruct remaining; [lia | done].
  - destruct (usable strip response) eqn:Hus.
    + eexists _, _. split; [reflexivity |]. simpl. conjuncts.
      * lia.
      * constructor.
      * intros [|k] response' Hk Hearlier Hk' Hus'.
        { rewrite Nat.add_0_r, Hc in Hk'. by inversion Hk'; subst. }
        exfalso. specialize (Hearlier 0%nat response). rewrite Nat.add_0_r in Hearlier.
        rewrite Hearlier in Hus; [done | lia | done].
      * intros Hno. specialize (Hno 0%nat response). rewrite Nat.add_0_r in Hno.
        rewrite Hno in Hus; [done | lia | done].
    + rewrite Hrun. eexists _, _. split; [reflexivity |]. simpl. conjuncts.
      * lia.
      * done.
      * intros [|k] response' Hk Hearlier Hk' Hus'.
        { rewrite Nat.add_0_r, Hc in Hk'. inversion Hk'; subst. by rewrite Hus in Hus'. }
        destruct (Hfirst k response') as [-> ->]; try done; try lia.
        -- intros j earlier Hj. rewrite Hshift. apply Hearlier. lia.
        -- by rewrite Hshift.
      * intros Hno. destruct Hnone as [-> ->].
        { intros j response' Hj. rewrite Hshift. apply Hno. lia. }
        split; [done |]. destruct remaining as [|remaining]; [| done].
        assert (attempt = 4%nat) as -> by lia. by rewrite Hc.
Qed.

(** The events of the loop, attempt by attempt: a request, and a sleep
    of one second after it when the attempt raised and was not the
    fifth. *)
Lemma analysis_attempts_events commenter model_name prompt screenshot_inputs :
  forall remaining attempt,
  fst (analysis_attempts strip remaining commenter model_name prompt screenshot_inputs attempt)
  = flat_map (fun k =>
      match commenter k (_get_actual_model_name model_name) prompt screenshot_inputs with
      | inl _ => if (k =? 4)%nat then [Request] else [Request; Sleep 1]
      | inr _ => [Request]
      end)
      (seq attempt
         (requests
            (fst (analysis_attempts strip remaining commenter model_name prompt
                    screenshot_inputs attempt)))).
Proof.
  induction remaining as [|remaining IH]; intros attempt; cbn [analysis_attempts]; [done |].
  specialize (IH (S attempt)).
  destruct (commenter attempt _ prompt screenshot_inputs) as [e | response] eqn:Hc.
  - destruct (attempt =? 4)%nat eqn:H4.
    + simpl. by rewrite Hc, H4.
    + destruct (analysis_attempts _ _ _ _ _ _ _) as [evs r]. simpl in *.
      rewrite Hc, H4. simpl. by f_equal; f_equal.
  - destruct (usable strip response).
    + simpl. by rewrite Hc.
    + destruct (analysis_attempts _ _ _ _ _ _ _) as [evs r]. simpl in *.
      rewrite Hc. simpl. by f_equal.
Qed.

(** The loop makes a request when it has an attempt left. *)
Lemma analysis_attempts_asks commenter model_name prompt screenshot_inputs remaining attempt :
  (1 <= remaining)%nat ->
  (1 <= requests
          (fst (analysis_attempts strip remaining commenter model_name prompt
                  screenshot_inputs attempt)))%nat.
Proof.
  destruct remaining as [|remaining]; [lia |]. intros _. cbn [analysis_attempts].
  destruct (commenter attempt _ prompt screenshot_inputs) as [e | response].
  - destruct (attempt =? 4)%nat; [simpl; lia |].
    destruct (analysis_attempts _ _ _ _ _ _ _). simpl. lia.
  - destruct (usable strip response); [simpl; lia |].
    destruct (analysis_attempts _ _ _ _ _ _ _). simpl. lia.
Qed.

(** X22: [analyze_single_failure] never raises and never asks more
    than five times.  Without the storyboard, or when the screenshot or
    the inputs cannot be prepared, it answers with a message and calls
    no model.  Otherwise it returns, stripped, the first response of
    more than 30 characters among five attempts, sleeping one second
    after an attempt that raised and not at all after a short response;
    its events are those of its attempts in order, a request followed
    by a sleep of one second exactly when the attempt raised and was
    not the fifth.  When none of the five will do it reports the error
    of the fifth attempt if that one raised, and the lack of a valid
    response if it did not. *)
Theorem analysis_returns_first_usable_response (storyboard_exists : bool)
    (prepared : Exception + (string * list string)) commenter (model_name : string) :
  exists evs r,
    analyze_single_failure strip storyboard_exists prepared commenter model_name = (evs, r)
    /\ (requests evs <= 5)%nat
    /\ Forall (fun d => d = 1%Q) (sleeps evs)
    /\ (storyboard_exists = false ->
        evs = [] /\ r = "Storyboard image not found - cannot analyze failure")
    /\ (forall e, storyboard_exists = true -> prepared = inl e ->
        evs = [] /\ r = "Error analyzing failure trajectory: " ++ exn_str e)
    /\ (forall prompt screenshot_inputs,
          storyboard_exists = true -> prepared = inr (prompt, screenshot_inputs) ->
          (1 <= requests evs)%nat
          /\ evs = flat_map (fun k =>
                     match commenter k (_get_actual_model_name model_name) prompt
                             screenshot_inputs with
                     | inl _ => if (k =? 4)%nat then [Request] else [Request; Sleep 1]
                     | inr _ => [Request]
                     end) (seq 0 (requests evs))
          /\ (forall k response,
             (k < 5)%nat ->
             (forall j earlier, (j < k)%nat ->
                commenter j (_get_actual_model_name model_name) prompt screenshot_inputs
                = inr earlier -> usable strip earlier = false) ->
             commenter k (_get_actual_model_name model_name) prompt screenshot_inputs
             = inr response ->
             usable strip response = true ->
             r = strip (default EmptyString response) /\ requests evs = S k)
          /\ ((forall j response, (j < 5)%nat ->
                 commenter j (_get_actual_model_name model_name) prompt screenshot_inputs
                 = inr response -> usable strip response = false) ->
              requests evs = 5%nat
              /\ r = match commenter 4%nat (_get_actual_model_name model_name) prompt
                             screenshot_inputs with
                     | inl e => "Failed to analyze failure after 5 attempts: " ++ exn_str e
                     | inr _ => "Unable to analyze failure - no valid response received"
                     end)).
Proof.
  unfold analyze_single_failure.
  destruct storyboard_exists; cbn [negb].
  2: { eexists _, _. split; [reflexivity |]. simpl.
       conjuncts; try done; try lia; by constructor. }
  destruct prepared as [e | [prompt screenshot_inputs]].
  { eexists _, _. split; [reflexivity |]. simpl.
    conjuncts; try done; try lia; try (by constructor).
    intros e' _ [= <-]. done. }
  destruct (analysis_attempts_run commenter model_name prompt screenshot_inputs 5 0)
    as (evs & r & Hrun & Hreq & Hsl & Hfirst & Hnone); [done |].
  exists evs, r. split; [exact Hrun |]. conjuncts; try done.
  intros prompt' inputs' _ [= <- <-]. conjuncts.
  - pose proof (analysis_attempts_asks commenter model_name prompt screenshot_inputs
                  5 0) as Hasks.
    rewrite Hrun in Hasks. apply Hasks. lia.
  - pose proof (analysis_attempts_events commenter model_name prompt screenshot_inputs
                  5 0) as Hevs.
    by rewrite Hrun in Hevs.
  - intros k response Hk Hearlier Hk' Hus. by apply (Hfirst k response).
  - intros Hno. destruct (Hnone Hno) as [-> ->]. split; [done |].
    by destruct (commenter 4%nat _ prompt screenshot_inputs).
Qed.

End AnalysisFacts.

Section VerifierFacts.
Import ModelClient VLMVerifier.

Variable parse_verdict : string -> Exception + gmap string pyval.

Lemma check_schema_inr parsed verdict :
  check_schema parsed = inr verdict ->
  verdict = parsed
  /\ in_strs (get verdict "verdict") ["pass"; "fail"] = true
  /\ is_Some (verdict !! "confidence")
  /\ is_Some (verdict !! "reason")
  /\ is_Some (verdict !! "used_screenshots").
Proof.
  unfold check_schema. intros H.
  destruct (in_strs _ _) eqn:Hv; [| done]. cbn [negb] in H.
  repeat (case_bool_decide; cbn [negb] in H; [| done]).
  inversion H; subst. by conjuncts.
Qed.

Lemma verify_attempts_run service :
  forall remaining attempt last_error,
  (attempt + remaining = 5)%nat ->
  (attempt = 0%nat \/ exists e, last_error = Some e
                               /\ attempt_verdict parse_verdict (service (attempt - 1)%nat)
                                  = inl e) ->
  exists evs r,
    verify_attempts parse_verdict remaining service attempt last_error = (evs, r)
    /\ (requests evs <= remaining)%nat
    /\ sleeps evs = []
    /\ (forall verdict, r = inr verdict ->
          (1 <= requests evs)%nat
          /\ attempt_verdict parse_verdict (service (attempt + requests evs - 1)%nat)
             = inr verdict)
    /\ (forall e, r = inl e ->
          requests evs = remaining
          /\ attempt_verdict parse_verdict (service 4%nat) = inl e).
Proof.
  induction remaining as [|remaining IH]; intros attempt last_error Hsum Hlast;
    cbn [verify_attempts].
  { eexists _, _. split; [reflexivity |]. simpl. conjuncts; try done.
    intros e [= <-]. split; [done |].
    destruct Hlast as [-> | (e' & -> & He')]; [lia |].
    assert (attempt = 5%nat) as -> by lia. done. }
  destruct (attempt_verdict parse_verdict (service attempt)) as [e | verdict] eqn:Hv.
  - destruct (IH (S attempt) (Some e)) as (evs & r & Hrun & Hreq & Hsl & Hok & Herr);
      [lia | right; exists e; by rewrite Nat.sub_succ, Nat.sub_0_r |].
    rewrite Hrun. eexists _, _. split; [reflexivity |]. simpl. conjuncts.
    + lia.
    + done.
    + intros verdict Hr. destruct (Hok verdict Hr) as [H1 H2]. split; [lia |].
      by replace (attempt + S (requests evs) - 1)%nat
        with (S attempt + requests evs - 1)%nat by lia.
    + intros e' Hr. destruct (Herr e' Hr) as [-> H2]. done.
  - eexists _, _. split; [reflexivity |]. simpl. conjuncts; try done; try lia.
    intros verdict' [= <-]. split; [lia |]. by rewrite Nat.add_sub.
Qed.

(** The attempts before the last one of the loop failed, and so did
    all of them when the loop raises. *)
Lemma verify_attempts_failures service :
  forall remaining attempt last_error evs r,
  verify_attempts parse_verdict remaining service attempt last_error = (evs, r) ->
  (forall k, (k < requests evs - 1)%nat ->
     exists e, attempt_verdict parse_verdict (service (attempt + k)%nat) = inl e)
  /\ (forall e, r = inl e ->
      forall k, (k < remaining)%nat ->
      exists e', attempt_verdict parse_verdict (service (attempt + k)%nat) = inl e').
Proof.
  induction remaining as [|remaining IH]; intros attempt last_error evs r Hrun;
    cbn [verify_attempts] in Hrun.
  { inversion Hrun; subst. simpl. split; intros; lia. }
  destruct (attempt_verdict parse_verdict (service attempt)) as [e | verdict] eqn:Hv.
  - destruct (verify_attempts _ _ _ _ _) as [evs' r'] eqn:Hrest.
    inversion Hrun; subst. destruct (IH _ _ _ _ Hrest) as [Hbefore Hall]. simpl. split.
    + intros [|k] Hk; [rewrite Nat.add_0_r; eauto |].
      rewrite <- Nat.add_succ_comm. apply Hbefore. lia.
    + intros e' He' [|k] Hk; [rewrite Nat.add_0_r; eauto |].
      rewrite <- Nat.add_succ_comm. apply (Hall e' He'). lia.
  - inversion Hrun; subst. simpl. split; [intros; lia | done].
Qed.

Lemma only_requests evs : sleeps evs = [] -> evs = repeat Request (requests evs).
Proof.
  induction evs as [| [| d] evs IH]; simpl; intros H; [done | | done].
  by rewrite <- IH.
Qed.

(** The loop of [verify] from its first attempt. *)
Lemma verify_loop service :
  exists evs r,
    verify_attempts parse_verdict 5 service 0 None = (evs, r)
    /\ (1 <= requests evs <= 5)%nat
    /\ sleeps evs = []
    /\ (forall verdict, r = inr verdict ->
          attempt_verdict parse_verdict (service (requests evs - 1)%nat) = inr verdict
          /\ in_strs (get verdict "verdict") ["pass"; "fail"] = true
          /\ is_Some (verdict !! "confidence")
          /\ is_Some (verdict !! "reason")
          /\ is_Some (verdict !! "used_screenshots"))
    /\ (forall e, r = inl e ->
          requests evs = 5%nat
          /\ attempt_verdict parse_verdict (service 4%nat) = inl e)
    /\ (forall k verdict,
          (k < 5)%nat ->
          (forall j, (j < k)%nat ->
             exists e, attempt_verdict parse_verdict (service j) = inl e) ->
          attempt_verdict parse_verdict (service k) = inr verdict ->
          r = inr verdict /\ requests evs = S k)
    /\ ((forall k, (k < 5)%nat ->
           exists e, attempt_verdict parse_verdict (service k) = inl e) ->
        requests evs = 5%nat
        /\ exists e, attempt_verdict parse_verdict (service 4%nat) = inl e /\ r = inl e).
Proof.
  destruct (verify_attempts_run service 5 0 None)
    as (evs & r & Hrun & Hreq & Hsl & Hok & Herr); [done | by left |].
  destruct (verify_attempts_failures _ _ _ _ _ _ Hrun) as [Hbefore Hall].
  simpl in Hok, Hbefore, Hall.
  assert (Hone : (1 <= requests evs)%nat).
  { destruct r as [e | verdict].
    - destruct (Herr e eq_refl) as [-> _]. lia.
    - by destruct (Hok verdict eq_refl). }
  exists evs, r. split; [exact Hrun |]. conjuncts; try done.
  - intros verdict Hr. destruct (Hok verdict Hr) as [_ H2].
    split; [done |].
    unfold attempt_verdict in H2.
    destruct (service (requests evs - 1)%nat) as [? | response_text]; [done |].
    cbn in H2. destruct (parse_verdict response_text) as [? | parsed]; [done |].
    cbn in H2. by destruct (check_schema_inr _ _ H2) as (-> & ? & ? & ? & ?).
  - intros k verdict Hk Hearlier Hresp.
    destruct r as [e | verdict'].
    + destruct (Hall e eq_refl k Hk) as [e' He']. congruence.
    + destruct (Hok verdict' eq_refl) as [_ Hlast].
      assert (requests evs - 1 = k)%nat as Heq.
      { destruct (lt_eq_lt_dec (requests evs - 1) k) as [[Hlt | Heq] | Hgt]; [| done |].
        - destruct (Hearlier _ Hlt) as [e He]. congruence.
        - destruct (Hbefore _ Hgt) as [e He]. congruence. }
      rewrite Heq in Hlast. split; [congruence | lia].
  - intros Hnone. destruct r as [e | verdict].
    + destruct (Herr e eq_refl) as [H5 H4]. split; [done |]. by exists e.
    + destruct (Hok verdict eq_refl) as [_ Hlast].
      destruct (Hnone (requests evs - 1)%nat) as [e He]; [lia | congruence].
Qed.

(** X23: what [verify] returns and raises.  It calls the model at most
    five times, without sleeping.  A verdict it returns is the parsed
    response of the last call, with [verdict] either "pass" or "fail"
    and the keys [confidence], [reason] and [used_screenshots]
    present.  It raises before any call for a mode other than the two
    it knows, for the mode with an expected outcome when none is
    given, and when the images cannot be prepared, each with its own
    error and in that order.  Otherwise it makes at least one call and
    returns the first response that parses into a checked verdict;
    when none of five does it raises the error of the fifth, never its
    own "verifier failed after 5 attempts". *)
Theorem verify_returns_checked_verdicts (mode : string) (expected_text : option string)
    (images_error : option Exception) (service : nat -> Exception + string) :
  exists evs r,
    verify parse_verdict mode expected_text images_error service = (evs, r)
    /\ (requests evs <= 5)%nat
    /\ sleeps evs = []
    /\ (forall verdict, r = inr verdict ->
          (1 <= requests evs)%nat
          /\ attempt_verdict parse_verdict (service (requests evs - 1)%nat) = inr verdict
          /\ in_strs (get verdict "verdict") ["pass"; "fail"] = true
          /\ is_Some (verdict !! "confidence")
          /\ is_Some (verdict !! "reason")
          /\ is_Some (verdict !! "used_screenshots"))
    /\ (forall e, r = inl e ->
          (evs = [] /\ (e = invalid_mode \/ e = expected_text_required
                        \/ images_error = Some e))
          \/ (requests evs = 5%nat
              /\ attempt_verdict parse_verdict (service 4%nat) = inl e))
    /\ (mode <> "screenshot_only" -> mode <> "screenshot_expected" ->
        evs = [] /\ r = inl invalid_mode)
    /\ (mode = "screenshot_expected" ->
        nonempty_str (default EmptyString expected_text) = false ->
        evs = [] /\ r = inl expected_text_required)
    /\ (mode = "screenshot_only"
        \/ (mode = "screenshot_expected"
            /\ nonempty_str (default EmptyString expected_text) = true) ->
        (forall e, images_error = Some e -> evs = [] /\ r = inl e)
        /\ (images_error = None ->
            (1 <= requests evs)%nat
            /\ evs = repeat Request (requests evs)
            /\ (forall k verdict,
                  (k < 5)%nat ->
                  (forall j, (j < k)%nat ->
                     exists e, attempt_verdict parse_verdict (service j) = inl e) ->
                  attempt_verdict parse_verdict (service k) = inr verdict ->
                  r = inr verdict /\ requests evs = S k)
            /\ ((forall k, (k < 5)%nat ->
                   exists e, attempt_verdict parse_verdict (service k) = inl e) ->
                requests evs = 5%nat
                /\ exists e, attempt_verdict parse_verdict (service 4%nat) = inl e
                             /\ r = inl e))).
Proof.
  unfold verify.
  assert (Hloop : forall (Hmode : mode = "screenshot_only"
        \/ (mode = "screenshot_expected"
            /\ nonempty_str (default EmptyString expected_text) = true)),
    exists evs r,
      match images_error with
      | Some e => ([], inl e)
      | None => verify_attempts parse_verdict 5 service 0 None
      end = (evs, r)
      /\ (requests evs <= 5)%nat
      /\ sleeps evs = []
      /\ (forall verdict, r = inr verdict ->
            (1 <= requests evs)%nat
            /\ attempt_verdict parse_verdict (service (requests evs - 1)%nat) = inr verdict
            /\ in_strs (get verdict "verdict") ["pass"; "fail"] = true
            /\ is_Some (verdict !! "confidence")
            /\ is_Some (verdict !! "reason")
            /\ is_Some (verdict !! "used_screenshots"))
      /\ (forall e, r = inl e ->
            (evs = [] /\ (e = invalid_mode \/ e = expected_text_required
                          \/ images_error = Some e))
            \/ (requests evs = 5%nat
                /\ attempt_verdict parse_verdict (service 4%nat) = inl e))
      /\ ((forall e, images_error = Some e -> evs = [] /\ r = inl e)
          /\ (images_error = None ->
              (1 <= requests evs)%nat
              /\ evs = repeat Request (requests evs)
              /\ (forall k verdict,
                    (k < 5)%nat ->
                    (forall j, (j < k)%nat ->
                       exists e, attempt_verdict parse_verdict (service j) = inl e) ->
                    attempt_verdict parse_verdict (service k) = inr verdict ->
                    r = inr verdict /\ requests evs = S k)
              /\ ((forall k, (k < 5)%nat ->
                     exists e, attempt_verdict parse_verdict (service k) = inl e) ->
                  requests evs = 5%nat
                  /\ exists e, attempt_verdict parse_verdict (service 4%nat) = inl e
                               /\ r = inl e)))).
  { intros _. destruct images_error as [e0 |].
    { eexists _, _. split; [reflexivity |]. simpl. conjuncts; try done; try lia.
      - intros e [= <-]. left. split; [done | right; by right].
      - by intros e [= <-]. }
    destruct (verify_loop service)
      as (evs & r & Hrun & Hreq & Hsl & Hok & Herr & Hfirst & Hnone).
    exists evs, r. split; [exact Hrun |]. conjuncts; try done; try lia.
    - intros verdict Hr. split; [lia |]. by apply Hok.
    - intros e Hr. right. by apply Herr.
    - intros _. conjuncts; [lia | by apply only_requests | exact Hfirst | exact Hnone]. }
  destruct (String.eqb_spec mode "screenshot_only") as [-> | Hnot_only]; cbn [orb negb andb].
  - destruct Hloop as (evs & r & Hrun & H1 & H2 & H3 & H4 & H5); [by left |].
    exists evs, r. split; [exact Hrun |]. conjuncts; try done.
  - destruct (String.eqb_spec mode "screenshot_expected") as [-> | Hnot_expected];
      cbn [negb].
    + destruct (nonempty_str (default EmptyString expected_text)) eqn:Htext; cbn [negb].
      * destruct Hloop as (evs & r & Hrun & H1 & H2 & H3 & H4 & H5); [by right |].
        exists evs, r. split; [exact Hrun |]. conjuncts; try done.
      * eexists _, _. split; [reflexivity |]. simpl. conjuncts; try done; try lia.
        -- intros e [= <-]. left. split; [done | right; by left].
        -- intros [? | [_ ?]]; done.
    + eexists _, _. split; [reflexivity |]. simpl. conjuncts; try done; try lia.
      * intros e [= <-]. left. split; [done | by left].
      * intros [? | [? _]]; done.
Qed.

End VerifierFacts.

(** * Properties of the run keys, the progress files, the tracker views, the keyboard and the storyboard *)

Section RunKeyFacts.
Import RunKey.

Lemma replace_length old new s :
  is_continuation old = false -> is_continuation new = false ->
  py_len (replace old new s) = py_len s.
Proof.
  intros Ho Hn. induction s as [|c s IH]; [done |]. simpl.
  destruct (Ascii.eqb c old) eqn:Hc.
  - apply Ascii.eqb_eq in Hc as ->. by rewrite Ho, Hn, IH.
  - by rewrite IH.
Qed.

Lemma replace_chars old new s c :
  old <> new -> c ∈ list_ascii_of_string (replace old new s) -> c <> old.
Proof.
  intros Hne. induction s as [|c' s IH]; simpl; [by intros ?%elem_of_nil |].
  intros [-> | Hin]%elem_of_cons; [| by apply IH].
  destruct (Ascii.eqb c' old) eqn:Hc; [by apply not_eq_sym |].
  by apply Ascii.eqb_neq in Hc.
Qed.

Lemma replace_keeps old new s c :
  c <> new -> c ∈ list_ascii_of_string (replace old new s) ->
  c ∈ list_ascii_of_string s.
Proof.
  intros Hne. induction s as [|c' s IH]; simpl; [done |].
  intros [-> | Hin]%elem_of_cons; [| apply elem_of_cons; right; by apply IH].
  destruct (Ascii.eqb c' old) eqn:Hc; [done |]. apply elem_of_cons. by left.
Qed.

Lemma replace_absent old new s :
  old ∉ list_ascii_of_string s -> replace old new s = s.
Proof.
  induction s as [|c s IH]; simpl; [done |].
  intros [Hne Hnot]%not_elem_of_cons.
  destruct (Ascii.eqb c old) eqn:Hc.
  - apply Ascii.eqb_eq in Hc. by subst.
  - by rewrite IH.
Qed.

Lemma replace_nonempty old new s : s <> EmptyString -> replace old new s <> EmptyString.
Proof. by destruct s. Qed.

(** X24: the slug of a directory name is a flat name.  It is never
    empty, holds no slash and no space, has as many characters as the
    name it comes from (when that is not empty), and is its own slug;
    so a directory and the directory named by its slug share one run
    key. *)
Theorem slug_is_a_flat_name (v0_dir : string) :
  _slug_v0 v0_dir <> EmptyString
  /\ (forall c, c ∈ list_ascii_of_string (_slug_v0 v0_dir) ->
        c <> "/"%char /\ c <> " "%char)
  /\ (v0_dir <> EmptyString -> py_len (_slug_v0 v0_dir) = py_len v0_dir)
  /\ _slug_v0 (_slug_v0 v0_dir) = _slug_v0 v0_dir
  /\ (forall revision_type commenter,
        build_run_key revision_type commenter (_slug_v0 v0_dir)
        = build_run_key revision_type commenter v0_dir).
Proof.
  assert (Hkey : _slug_v0 (_slug_v0 v0_dir) = _slug_v0 v0_dir ->
    forall revision_type commenter,
      build_run_key revision_type commenter (_slug_v0 v0_dir)
      = build_run_key revision_type commenter v0_dir).
  { intros Hidem revision_type commenter. unfold build_run_key. by rewrite Hidem. }
  cut ((_slug_v0 v0_dir <> EmptyString
        /\ (forall c, c ∈ list_ascii_of_string (_slug_v0 v0_dir) ->
              c <> "/"%char /\ c <> " "%char)
        /\ (v0_dir <> EmptyString -> py_len (_slug_v0 v0_dir) = py_len v0_dir))
       /\ _slug_v0 (_slug_v0 v0_dir) = _slug_v0 v0_dir).
  { intros [(H1 & H2 & H3) H4]. conjuncts; try done. by apply Hkey. }
  clear Hkey.
  assert (Hchars : forall s c,
    c ∈ list_ascii_of_string (replace " " "-" (replace "/" "_" s)) ->
    c <> "/"%char /\ c <> " "%char).
  { intros s c Hin. split; [| by eapply (replace_chars " " "-")].
    intros ->. apply (replace_keeps " " "-") in Hin; [| done].
    by apply (replace_chars "/" "_") in Hin. }
  unfold _slug_v0. destruct v0_dir as [|c0 rest]; cbn [nonempty_str String.eqb negb].
  { split; [| done]. conjuncts; try done.
    intros c Hin. vm_compute in Hin.
    repeat (apply elem_of_cons in Hin as [-> | Hin]; [done |]).
    by apply elem_of_nil in Hin. }
  set (s := String c0 rest).
  assert (Hne : replace " " "-" (replace "/" "_" s) <> EmptyString).
  { apply replace_nonempty, replace_nonempty. done. }
  split; [conjuncts |].
  - done.
  - apply Hchars.
  - intros _. by rewrite !replace_length.
  - destruct (replace " " "-" (replace "/" "_" s)) as [|c1 rest1] eqn:Hs; [done |].
    cbn [nonempty_str String.eqb negb]. rewrite <- Hs.
    rewrite (replace_absent "/" "_").
    + apply replace_absent. intros Hin. by apply (replace_chars " " "-") in Hin.
    + intros Hin. by destruct (Hchars s _ Hin).
Qed.

End RunKeyFacts.

Section IncrementalProgressFacts.
Import IncrementalProgress.

Lemma save_completed dir model_name app_name data :
  completed_tasks (save_incremental_progress dir model_name app_name data)
  = (List.filter (fun t => differs t (task_id_of model_name app_name)) (completed_tasks dir)
     ++ [TaskRecord (new_record (task_id_of model_name app_name) data)])%list.
Proof. unfold completed_tasks, save_incremental_progress. by destruct (summary_file dir). Qed.

Lemma filter_records task_id (l : list completed_task) :
  List.filter is_record (List.filter (fun t => differs t task_id) l) = List.filter is_record l.
Proof.
  induction l as [|t l IH]; [done |]. simpl.
  destruct t as [s | fields]; simpl.
  - destruct (negb (String.eqb s task_id)); simpl; by rewrite IH.
  - by rewrite IH.
Qed.

Lemma save_all_records saves :
  forall dir,
  List.filter is_record (completed_tasks (save_all dir saves))
  = (List.filter is_record (completed_tasks dir) ++ map record_of saves)%list.
Proof.
  induction saves as [|[[m a] data] saves IH]; intros dir; simpl.
  - by rewrite app_nil_r.
  - unfold save_all in *. simpl. rewrite IH, save_completed.
    rewrite List.filter_app, filter_records. simpl. by rewrite <- app_assoc.
Qed.

(** X25: a save never replaces a record.  The filter that is to drop
    the old entry of the task compares each entry with the task id, a
    string, so it drops bare ids only: after any run of saves the
    records of the summary are those it held before, followed by one
    record per save in the order of the saves, also when a task is
    saved more than once.  From a directory without summary the
    summary lists exactly one record per save.  A bare id of the task
    is dropped, and the task file holds the data of the save. *)
Theorem saved_records_accumulate (dir : progress_dir)
    (saves : list (string * string * gmap string pyval)) :
  List.filter is_record (completed_tasks (save_all dir saves))
  = (List.filter is_record (completed_tasks dir) ++ map record_of saves)%list
  /\ (summary_file dir = None ->
      completed_tasks (save_all dir saves) = map record_of saves)
  /\ (forall model_name app_name data,
        (TaskId (task_id_of model_name app_name)
         ∉ completed_tasks (save_incremental_progress dir model_name app_name data))
        /\ task_files (save_incremental_progress dir model_name app_name data)
           !! (model_name ++ "_" ++ app_name ++ ".json") = Some data).
Proof.
  conjuncts.
  - apply save_all_records.
  - intros Hnone.
    assert (Hall : forall saves dir,
      Forall (fun t => is_record t = true) (completed_tasks dir) ->
      Forall (fun t => is_record t = true) (completed_tasks (save_all dir saves))).
    { clear. induction saves as [|[[m a] data] saves IH]; intros dir Hdir; [done |].
      unfold save_all in *. simpl. apply IH. rewrite save_completed.
      apply Forall_app. split; [| by repeat constructor].
      apply Forall_forall. intros t Hin. apply list_elem_of_In, List.filter_In in Hin.
      rewrite Forall_forall in Hdir. apply Hdir, list_elem_of_In, Hin. }
    assert (Hid : forall l : list completed_task,
      Forall (fun t => is_record t = true) l -> List.filter is_record l = l).
    { clear. induction 1 as [|t l Ht _ IH]; [done |]. simpl. by rewrite Ht, IH. }
    rewrite <- (Hid (completed_tasks (save_all dir saves))).
    + rewrite save_all_records. unfold completed_tasks. by rewrite Hnone.
    + apply Hall. unfold completed_tasks. rewrite Hnone. constructor.
  - intros m a data. split.
    + rewrite save_completed. intros [Hin | Hin]%elem_of_app.
      * apply list_elem_of_In, List.filter_In in Hin as [_ Hd]. simpl in Hd.
        by rewrite String.eqb_refl in Hd.
      * by apply list_elem_of_singleton in Hin.
    + simpl. apply lookup_insert_eq.
Qed.

End IncrementalProgressFacts.

Section ProgressViewsFacts.
Import ParallelRunner ProgressViews.

Lemma tally_counts statuses pairs :
  forall completed failed,
  (forall key, key ∈ pairs -> is_Some (statuses !! key)) ->
  exists done_now failed_now,
    tally statuses pairs completed failed
    = Some ((completed + Z.of_nat done_now)%Z, (failed + Z.of_nat failed_now)%Z)
    /\ done_now
       = length (List.filter
                   (fun key => py_in "✅" (default EmptyString (statuses !! key))) pairs)
    /\ failed_now
       = length (List.filter
                   (fun key => negb (py_in "✅" (default EmptyString (statuses !! key)))
                               && py_in "❌" (default EmptyString (statuses !! key))) pairs)
    /\ (done_now + failed_now <= length pairs)%nat.
Proof.
  induction pairs as [|key pairs IH]; intros completed failed Hall.
  { exists 0%nat, 0%nat. simpl. by rewrite !Z.add_0_r. }
  destruct (Hall key) as [status Hst]; [apply elem_of_cons; by left |].
  assert (Hrest : forall key, key ∈ pairs -> is_Some (statuses !! key)).
  { intros k Hk. apply Hall, elem_of_cons. by right. }
  cbn [tally List.filter]. rewrite Hst. cbn [from_option id].
  destruct (py_in "✅" status) eqn:Hd; cbn [negb andb].
  - destruct (IH (completed + 1)%Z failed Hrest) as (d & f & -> & Hd' & Hf' & Hle).
    exists (S d), f. conjuncts.
    + f_equal. f_equal. lia.
    + simpl. by rewrite Hd'.
    + done.
    + simpl. lia.
  - destruct (py_in "❌" status) eqn:Hf.
    + destruct (IH completed (failed + 1)%Z Hrest) as (d & f & -> & Hd' & Hf' & Hle).
      exists d, (S f). conjuncts.
      * f_equal. f_equal. lia.
      * done.
      * simpl. by rewrite Hf'.
      * simpl. lia.
    + destruct (IH completed failed Hrest) as (d & f & -> & Hd' & Hf' & Hle).
      exists d, f. conjuncts; try done. simpl. lia.
Qed.

Lemma pairs_length (models apps : list string) :
  length (model ← models; app ← apps; [(model, app)]) = (length models * length apps)%nat.
Proof.
  induction models as [|m models IH]; [done |].
  rewrite bind_cons, length_app, IH. simpl. f_equal.
  clear IH. induction apps as [|a apps IHa]; [done |]. rewrite bind_cons. simpl. by f_equal.
Qed.

Lemma update_all_tracked updates :
  forall tr,
  tracker_models (update_all tr updates) = tracker_models tr
  /\ tracker_apps (update_all tr updates) = tracker_apps tr
  /\ (forall key, tracked (update_all tr updates) key = tracked tr key).
Proof.
  induction updates as [|[[[m a] st] d] updates IH]; intros tr; [done |].
  unfold update_all in *. simpl.
  destruct (update_status tr m a st d) as [tr1 r1] eqn:H1. simpl.
  destruct (IH tr1) as (Hm & Ha & Ht).
  unfold update_status in H1.
  destruct (tracked tr (m, a)) eqn:Htr; [| inversion H1; by subst].
  assert (Hkeys : forall key,
    bool_decide (is_Some (<[(m, a) := st]> (status_matrix tr) !! key)) = tracked tr key).
  { intros key. unfold tracked in *. apply bool_decide_ext.
    destruct (decide ((m, a) = key)) as [<- | Hne].
    - rewrite lookup_insert_eq. apply bool_decide_eq_true in Htr.
      split; intros _; [exact Htr | by eexists].
    - by rewrite lookup_insert_ne. }
  rewrite Hm, Ha.
  destruct (truthy d); inversion H1; subst; simpl; conjuncts; try done;
    intros key; rewrite Ht; unfold tracked at 1; simpl; apply Hkeys.
Qed.

(** X26: the counts of [get_summary] add up.  On a tracker built for
    some models and apps and updated by any run of [update_status]
    calls (also calls for pairs it does not track), [get_summary]
    raises no [KeyError]; its total is the number of models times the
    number of apps; completed counts the pairs whose status holds the
    check mark, failed those whose status holds the cross and no check
    mark; none of the four counts is negative and completed, failed
    and running add up to the total. *)
Theorem summary_counts_add_up (models apps : list string)
    (updates : list (string * string * string * pyval)) :
  let tr := update_all (new_tracker models apps) updates in
  let pairs := model ← models; app ← apps; [(model, app)] in
  exists counts,
    get_summary tr = Some counts
    /\ count_total counts = (Z.of_nat (length models) * Z.of_nat (length apps))%Z
    /\ count_completed counts
       = Z.of_nat (length (List.filter (fun key => py_in "✅" (status_of tr key)) pairs))
    /\ count_failed counts
       = Z.of_nat (length (List.filter
                             (fun key => negb (py_in "✅" (status_of tr key))
                                         && py_in "❌" (status_of tr key)) pairs))
    /\ (0 <= count_completed counts)%Z
    /\ (0 <= count_failed counts)%Z
    /\ (0 <= count_running counts)%Z
    /\ (count_completed counts + count_failed counts + count_running counts
        = count_total counts)%Z.
Proof.
  intros tr pairs.
  destruct (update_all_tracked updates (new_tracker models apps)) as (Hm & Ha & Ht).
  fold tr in Hm, Ha, Ht. simpl in Hm, Ha.
  destruct (tally_counts (status_matrix tr) pairs 0 0) as (d & f & Htally & Hd & Hf & Hle).
  { intros [m a] Hin. subst pairs.
    apply list_elem_of_bind in Hin as (m' & Hin & Hm').
    apply list_elem_of_bind in Hin as (a' & Hin & Ha').
    apply list_elem_of_singleton in Hin as [= -> ->].
    specialize (Ht (m', a')). rewrite (new_tracker_tracked _ _ _ _ Hm' Ha') in Ht.
    by apply bool_decide_eq_true in Ht. }
  unfold get_summary. rewrite Hm, Ha. fold pairs. rewrite Htally.
  eexists. split; [reflexivity |]. cbn [count_total count_completed count_failed count_running].
  assert (Hlen := pairs_length models apps). fold pairs in Hlen.
  unfold status_of. rewrite <- Hd, <- Hf.
  conjuncts; lia.
Qed.

Lemma chunks_concat {A} (k : nat) :
  forall (pages : nat) (l : list A),
  (length l <= pages * k)%nat ->
  concat (map (fun p => take k (drop (p * k) l)) (seq 0 pages)) = l.
Proof.
  induction pages as [|pages IH]; intros l Hlen.
  { destruct l; [done | simpl in Hlen; lia]. }
  cbn [seq map concat]. rewrite <- seq_shift, map_map. simpl.
  rewrite drop_0. transitivity (take k l ++ drop k l)%list; [| apply take_drop]. f_equal.
  etransitivity; [| apply (IH (drop k l)); rewrite length_drop; lia].
  f_equal. apply map_ext. intros p. by rewrite drop_drop.
Qed.

Lemma take_min_length {A} (k : nat) (l : list A) :
  take (length l `min` k) l = take k l.
Proof.
  destruct (Nat.le_ge_cases (length l) k) as [Hle | Hge].
  - rewrite Nat.min_l by done. by rewrite !take_ge.
  - by rewrite Nat.min_r.
Qed.

Lemma ceil_bounds (n k : Z) :
  (0 < n)%Z -> (1 <= k)%Z ->
  (1 <= (n + k - 1) / k /\ n <= (n + k - 1) / k * k /\ ((n + k - 1) / k - 1) * k < n)%Z.
Proof.
  intros Hn Hk.
  pose proof (Z.div_mod (n + k - 1) k). pose proof (Z.mod_pos_bound (n + k - 1) k).
  nia.
Qed.

Lemma apps_per_page_pos term_cols : (1 <= apps_per_page term_cols)%Z.
Proof. unfold apps_per_page. lia. Qed.

Lemma total_pages_bounds term_cols apps :
  let n := Z.of_nat (length (display_apps_all apps)) in
  let k := apps_per_page term_cols in
  let pages := total_pages term_cols apps in
  (1 <= pages /\ n <= pages * k /\ (n <> 0 -> (pages - 1) * k < n))%Z.
Proof.
  intros n k pages. subst pages. unfold total_pages. fold n k.
  pose proof (apps_per_page_pos term_cols) as Hk. fold k in Hk.
  destruct (n =? 0)%Z eqn:Hn.
  - apply Z.eqb_eq in Hn. lia.
  - apply Z.eqb_neq in Hn. assert (0 < n)%Z by lia.
    destruct (ceil_bounds n k) as (H1 & H2 & H3); [done | done |].
    rewrite Z.max_r by lia. by conjuncts.
Qed.

(** The page as a chunk of the displayed apps. *)
Lemma visible_apps_chunk term_cols page_index apps :
  visible_apps term_cols page_index apps
  = take (Z.to_nat (apps_per_page term_cols))
      (drop ((page_index `mod` Z.to_nat (total_pages term_cols apps))
             * Z.to_nat (apps_per_page term_cols))
         (display_apps_all apps)).
Proof.
  destruct (total_pages_bounds term_cols apps) as (Hp & Hcover & _).
  pose proof (apps_per_page_pos term_cols) as Hk.
  unfold visible_apps, slice.
  set (k := apps_per_page term_cols) in *. set (pages := total_pages term_cols apps) in *.
  set (D := display_apps_all apps) in *.
  assert (Hpage : ((if (pages =? 1)%Z then 0 else Z.of_nat page_index) mod pages)%Z
                  = Z.of_nat (page_index `mod` Z.to_nat pages)).
  { destruct (pages =? 1)%Z eqn:H1.
    - apply Z.eqb_eq in H1. rewrite H1. change (Z.to_nat 1) with 1%nat.
      by rewrite Nat.mod_1_r.
    - rewrite Nat2Z.inj_mod, Z2Nat.id by lia. done. }
  rewrite Hpage. set (page := (page_index `mod` Z.to_nat pages)%nat).
  replace (Z.to_nat (Z.of_nat page * k)) with (page * Z.to_nat k)%nat by nia.
  replace (Z.to_nat (Z.of_nat (length D) `min` (Z.of_nat page * k + k))
           - page * Z.to_nat k)%nat
    with (length (drop (page * Z.to_nat k) D) `min` Z.to_nat k)%nat.
  - apply take_min_length.
  - rewrite length_drop. nia.
Qed.

(** X27: the pages of the grid show every app.  Whatever the width of
    the terminal, a page holds at least one column; the apps shown
    while the page counter runs through the pages are, in order,
    exactly the apps other than "BATCH"; no page holds more apps than
    fit, none is empty when there is an app to show, and the counter
    wraps around after the last page. *)
Theorem pages_show_every_app (term_cols : Z) (apps : list string) :
  let pages := Z.to_nat (total_pages term_cols apps) in
  let per_page := Z.to_nat (apps_per_page term_cols) in
  (1 <= per_page)%nat
  /\ (1 <= pages)%nat
  /\ concat (map (fun page_index => visible_apps term_cols page_index apps) (seq 0 pages))
     = display_apps_all apps
  /\ (forall app, app ∈ display_apps_all apps <-> app ∈ apps /\ app <> "BATCH")
  /\ (forall page_index,
        (length (visible_apps term_cols page_index apps) <= per_page)%nat
        /\ (display_apps_all apps <> [] -> visible_apps term_cols page_index apps <> [])
        /\ visible_apps term_cols (page_index + pages) apps
           = visible_apps term_cols page_index apps).
Proof.
  intros pages per_page.
  destruct (total_pages_bounds term_cols apps) as (Hp & Hcover & Hlast).
  pose proof (apps_per_page_pos term_cols) as Hk.
  conjuncts.
  - subst per_page. lia.
  - subst pages. lia.
  - rewrite <- (chunks_concat per_page pages (display_apps_all apps)) by (subst pages per_page; nia).
    f_equal. apply map_ext_in. intros p Hin%in_seq. rewrite visible_apps_chunk.
    fold pages per_page. by rewrite Nat.mod_small by lia.
  - intros app. unfold display_apps_all.
    rewrite list_elem_of_In, List.filter_In, <- list_elem_of_In.
    rewrite negb_true_iff, String.eqb_neq. done.
  - intros page_index. rewrite !visible_apps_chunk. fold pages per_page. conjuncts.
    + rewrite length_take. lia.
    + intros Hne Hnil.
      assert (Hlt : (page_index `mod` pages < pages)%nat) by (apply Nat.mod_upper_bound; lia).
      assert (Hlen : length (display_apps_all apps) <> 0%nat) by (by destruct (display_apps_all apps)).
      apply (f_equal length) in Hnil. rewrite length_take, length_drop in Hnil. simpl in Hnil.
      subst pages per_page. nia.
    + f_equal. f_equal. f_equal.
      rewrite <- (Nat.mul_1_l pages) at 1. rewrite Nat.Div0.mod_add. done.
Qed.

End ProgressViewsFacts.

Section BrowserFacts.
Import Browser.

Variable str_lower : string -> string.
Variable isdigit : string -> bool.
Variable int_of_str : string -> Exception + Z.
Variable keyboard : list key_call -> key_call -> option Exception.

Lemma perform_run calls :
  forall made made' raised,
  perform keyboard made calls = (made', raised) ->
  exists now,
    made' = (made ++ now)%list
    /\ now `prefix_of` calls
    /\ match raised with
       | None => now = calls
       | Some e =>
           exists before call,
             now = (before ++ [call])%list /\ keyboard (made ++ before)%list call = Some e
       end.
Proof.
  induction calls as [|call calls IH]; intros made made' raised H; simpl in H.
  { inversion H; subst. exists []. rewrite app_nil_r. by conjuncts. }
  destruct (keyboard made call) as [e |] eqn:Hk.
  - inversion H; subst. exists [call]. conjuncts.
    + done.
    + by apply prefix_cons, prefix_nil.
    + exists [], call. by rewrite app_nil_r.
  - destruct (IH _ _ _ H) as (now & -> & Hpre & Hr).
    exists (call :: now). conjuncts.
    + by rewrite <- app_assoc.
    + by apply prefix_cons.
    + destruct raised as [e |]; [| by subst].
      destruct Hr as (before & c & -> & Hc). exists (call :: before), c.
      split; [done |]. by rewrite <- app_assoc in Hc.
Qed.

Lemma held_after_app held calls calls' :
  held_after held (calls ++ calls') = held_after (held_after held calls) calls'.
Proof.
  revert held. induction calls as [|[k | k | k] calls IH]; intros held; simpl; by rewrite ?IH.
Qed.

Lemma held_after_downs keys : forall held,
  held_after held (map KeyDown keys) = (rev keys ++ held)%list.
Proof.
  induction keys as [|k keys IH]; intros held; simpl; [done |].
  by rewrite IH, <- app_assoc.
Qed.

Lemma held_after_ups keys : forall held,
  held_after (keys ++ held) (map KeyUp keys) = held.
Proof.
  induction keys as [|k keys IH]; intros held; simpl; [done |].
  by rewrite String.eqb_refl.
Qed.

(** X28: a key combination is pressed as a stack.  Without keys nothing
    is pressed and the result is a failure; a key whose name cannot be
    mapped raises before any call on the keyboard.  When no call
    raises, the calls are: every key but the last down in order, the
    last key pressed, the same keys up in the opposite order; no key is
    left down, and the result is a success.  When a call raises, the
    calls made are the calls up to that one, the exception is passed
    on, and the keys that went down stay down unless the raising call
    is one of the releases. *)
Theorem pressed_keys_are_released (keys : list string) :
  exists made r,
    press_keys str_lower isdigit int_of_str keyboard keys = (made, r)
    /\ (keys = [] ->
        made = []
        /\ r = inr {[ "success" := VBool false; "error" := VStr "No keys provided" ]})
    /\ (forall e, keys <> [] -> map_keys str_lower isdigit int_of_str keys = inl e ->
        made = [] /\ r = inl e)
    /\ (forall mapped_keys result,
          keys <> [] -> map_keys str_lower isdigit int_of_str keys = inr mapped_keys ->
          r = inr result ->
          made = key_calls mapped_keys
          /\ held_after [] made = []
          /\ result = {[ "success" := VBool true;
                         "message" := VStr ("Pressed keys: " ++ join " + " keys) ]})
    /\ (forall mapped_keys e,
          keys <> [] -> map_keys str_lower isdigit int_of_str keys = inr mapped_keys ->
          r = inl e ->
          exists before call,
            made = (before ++ [call])%list
            /\ made `prefix_of` key_calls mapped_keys
            /\ keyboard before call = Some e
            /\ (before `prefix_of` map KeyDown (modifiers mapped_keys) ->
                forall key, KeyUp key ∉ made)).
Proof.
  unfold press_keys. destruct keys as [|key keys]; [eexists _, _; by conjuncts |].
  set (ks := key :: keys).
  destruct (map_keys _ _ _ ks) as [e | mapped_keys] eqn:Hmap.
  { eexists _, _. split; [reflexivity |]. conjuncts; try done.
    intros e' _ [= <-]. done. }
  destruct (perform keyboard [] (key_calls mapped_keys)) as [made raised] eqn:Hrun.
  destruct (perform_run _ _ _ _ Hrun) as (now & Hmade & Hpre & Hr).
  simpl in Hmade. subst made.
  destruct raised as [e |].
  - eexists _, _. split; [reflexivity |]. conjuncts; try done.
    intros mapped' e' _ [= <-] [= <-].
    destruct Hr as (before & call & -> & Hc). exists before, call. conjuncts; try done.
    intros Hdowns k Hin. apply elem_of_app in Hin as [Hin | Hin].
    + destruct Hdowns as [rest Hrest].
      assert (Hin' : KeyUp k ∈ map KeyDown (modifiers mapped_keys)).
      { rewrite Hrest. apply elem_of_app. by left. }
      apply list_elem_of_In, in_map_iff in Hin' as (? & ? & _). done.
    + apply list_elem_of_singleton in Hin as <-.
      destruct Hpre as [rest Hrest]. destruct Hdowns as [rest' Hrest'].
      unfold key_calls in Hrest. rewrite Hrest' in Hrest.
      rewrite <- !app_assoc in Hrest. apply app_inv_head in Hrest.
      destruct rest' as [|c rest'']; simpl in Hrest; [by inversion Hrest |].
      inversion Hrest; subst c.
      assert (Hin' : KeyUp k ∈ map KeyDown (modifiers mapped_keys)).
      { rewrite Hrest'. apply elem_of_app. right. apply elem_of_cons. by left. }
      apply list_elem_of_In, in_map_iff in Hin' as (? & ? & _). done.
  - subst now. eexists _, _. split; [reflexivity |]. conjuncts; try done.
    intros mapped' result _ [= <-] [= <-]. conjuncts; try done.
    unfold key_calls. rewrite !held_after_app, held_after_downs. simpl.
    apply held_after_ups.
Qed.

End BrowserFacts.

Section StoryboardFacts.
Import Storyboard.

(** The layouts of 1 to 54 screenshots, computed. *)
Lemma grids_fit_upto_54 : grids_fit 54 1 = true.
Proof. vm_compute. reflexivity. Qed.

(** Both crop factors apply to every side of up to 10000 pixels. *)
Lemma sides_scale_upto_10000 : sides_scale (Z.to_nat 10001) 0 = true.
Proof. vm_compute. reflexivity. Qed.

Lemma grids_fit_each count : forall first n,
  grids_fit count first = true -> (first <= n < first + Z.of_nat count)%Z ->
  grid_fits n = true.
Proof.
  induction count as [|count IH]; intros first n Hall Hn; [lia |].
  simpl in Hall. apply andb_prop in Hall as [Hfirst Hrest].
  destruct (decide (n = first)) as [-> | Hne]; [done |].
  apply (IH (first + 1)%Z); [done | lia].
Qed.

Lemma sides_scale_each count : forall first n,
  sides_scale count first = true -> (first <= n < first + Z.of_nat count)%Z ->
  side_scales n = true.
Proof.
  induction count as [|count IH]; intros first n Hall Hn; [lia |].
  simpl in Hall. apply andb_prop in Hall as [Hfirst Hrest].
  destruct (decide (n = first)) as [-> | Hne]; [done |].
  apply (IH (first + 1)%Z); [done | lia].
Qed.

(** X29: the layout of 1 to 54 screenshots fits the canvas.  The grid
    has at most 9 columns and 6 rows and a cell for every screenshot;
    a screenshot is at least 50 by 28 pixels; the storyboard is at most
    1920 by 1080 pixels; and the cell of every step, screenshot and
    text area, lies within the storyboard. *)
Theorem grid_fits_the_canvas (num_screenshots : Z) :
  (1 <= num_screenshots <= 54)%Z ->
  exists l,
    _calculate_optimal_grid num_screenshots = inr l
    /\ (1 <= grid_cols l <= 9)%Z
    /\ (1 <= grid_rows l <= 6)%Z
    /\ (num_screenshots <= grid_cols l * grid_rows l)%Z
    /\ (50 <= screenshot_width l)%Z
    /\ (28 <= screenshot_height l)%Z
    /\ (total_width l <= 1920)%Z
    /\ (total_height l <= 1080)%Z
    /\ (forall step_idx,
          (0 <= step_idx < num_screenshots)%Z ->
          let row := (step_idx / grid_cols l)%Z in
          let col := (step_idx mod grid_cols l)%Z in
          let '(x, y) := cell_corner l row col in
          (0 <= row < grid_rows l)%Z
          /\ (0 <= col < grid_cols l)%Z
          /\ (row * grid_cols l + col = step_idx)%Z
          /\ (0 <= x)%Z /\ (x + screenshot_width l <= total_width l)%Z
          /\ (header_height <= y)%Z
          /\ (y + screenshot_height l + text_height <= total_height l)%Z).
Proof.
  intros Hn.
  pose proof (grids_fit_each _ _ num_screenshots grids_fit_upto_54 ltac:(lia)) as Hall.
  unfold grid_fits in Hall.
  destruct (_calculate_optimal_grid num_screenshots) as [e | l]; [done |].
  exists l. split; [done |].
  unfold layout_fits in Hall. repeat (apply andb_prop in Hall as [Hall ?]).
  repeat match goal with
         | H : (_ <=? _)%Z = true |- _ => apply Z.leb_le in H
         | H : (_ =? _)%Z = true |- _ => apply Z.eqb_eq in H
         end.
  unfold max_canvas_width, max_canvas_height in *.
  conjuncts; try lia.
  intros step_idx Hidx. unfold cell_corner. cbv zeta.
  unfold header_height, text_height, margin in *.
  set (cols := grid_cols l) in *. set (rows := grid_rows l) in *.
  set (w := screenshot_width l) in *. set (h := screenshot_height l) in *.
  assert (Hrow : (0 <= step_idx / cols < rows)%Z).
  { split; [apply Z.div_pos; lia |]. apply Z.div_lt_upper_bound; nia. }
  assert (Hcol : (0 <= step_idx mod cols < cols)%Z) by (apply Z.mod_pos_bound; lia).
  pose proof (Z.div_mod step_idx cols ltac:(lia)) as Hdm.
  set (row := (step_idx / cols)%Z) in *. set (col := (step_idx mod cols)%Z) in *.
  assert (Hx : (0 <= col * (w + 12) <= (cols - 1) * (w + 12))%Z).
  { split; [apply Z.mul_nonneg_nonneg; lia | apply Z.mul_le_mono_nonneg_r; lia]. }
  assert (Hy : (0 <= row * (h + 75 + 12) <= (rows - 1) * (h + 75 + 12))%Z).
  { split; [apply Z.mul_nonneg_nonneg; lia | apply Z.mul_le_mono_nonneg_r; lia]. }
  conjuncts; lia.
Qed.

Lemma int_times_defined (side : Z) :
  (0 <= side <= 10000)%Z ->
  forall large : bool,
  exists scaled,
    int_times side (if large then 0x1.3333333333333p-1%float else 0.5%float) = inr scaled.
Proof.
  intros Hside large.
  assert (Hs : side_scales side = true).
  { apply (sides_scale_each (Z.to_nat 10001) 0); [apply sides_scale_upto_10000 | lia]. }
  unfold side_scales in Hs.
  destruct large;
    destruct (int_times side 0x1.3333333333333p-1) as [? | s6]; try done;
    destruct (int_times side 0.5) as [? | s5]; try done; by eexists.
Qed.

(** The box of the crop, whenever the function returns one. *)
Lemma crop_box (self_screenshot_width self_screenshot_height width height : Z)
    (action_coord : option (Z * Z)) (info : crop_info) :
  (0 <= self_screenshot_width)%Z -> (0 <= self_screenshot_height)%Z ->
  (0 <= width)%Z -> (0 <= height)%Z ->
  _crop_viewport_screenshot_with_action self_screenshot_width self_screenshot_height
    width height action_coord = inr info ->
  (0 <= crop_left info)%Z /\ (crop_left info + crop_width info <= width)%Z
  /\ (0 <= crop_top info)%Z /\ (crop_top info + crop_height info <= height)%Z
  /\ (Z.min width (self_screenshot_width * 2) <= crop_width info)%Z
  /\ (Z.min height (self_screenshot_height * 2) <= crop_height info)%Z
  /\ (forall action_x action_y,
        action_coord = Some (action_x, action_y) ->
        (0 <= action_x <= width)%Z -> (0 <= action_y <= height)%Z ->
        in_crop info action_x action_y = true).
Proof.
  intros Hsw Hsh Hw Hh. unfold _crop_viewport_screenshot_with_action.
  destruct (int_times width _) as [e | scaled_width]; [done |]. cbn [mbind exn_bind].
  destruct (int_times height _) as [e | scaled_height]; [done |]. cbn [mbind exn_bind].
  set (cw := Z.min (Z.max (Z.min width (self_screenshot_width * 2)) scaled_width) width).
  set (ch := Z.min (Z.max (Z.min height (self_screenshot_height * 2)) scaled_height) height).
  assert (Hcw : (0 <= cw <= width)%Z) by lia.
  assert (Hch : (0 <= ch <= height)%Z) by lia.
  pose proof (Z.div_mod (width - cw) 2 ltac:(lia)) as Hl.
  pose proof (Z.mod_pos_bound (width - cw) 2 ltac:(lia)) as Hl'.
  pose proof (Z.div_mod (height - ch) 2 ltac:(lia)) as Ht.
  pose proof (Z.mod_pos_bound (height - ch) 2 ltac:(lia)) as Ht'.
  pose proof (Z.div_mod cw 2 ltac:(lia)) as Hc.
  pose proof (Z.mod_pos_bound cw 2 ltac:(lia)) as Hc'.
  pose proof (Z.div_mod ch 2 ltac:(lia)) as Hd.
  pose proof (Z.mod_pos_bound ch 2 ltac:(lia)) as Hd'.
  destruct action_coord as [[ax ay] |].
  - destruct (_ || _) eqn:Hout; intros [= <-]; cbn [crop_left crop_top crop_width crop_height];
      (conjuncts; try lia);
      intros action_x action_y [= <- <-] Hx Hy; unfold in_crop;
      cbn [crop_left crop_top crop_width crop_height].
    + repeat (apply andb_true_intro; split); apply Z.leb_le; lia.
    + repeat (apply orb_false_elim in Hout as [Hout ?]).
      repeat match goal with H : (_ <? _)%Z = false |- _ => apply Z.ltb_ge in H end.
      repeat (apply andb_true_intro; split); apply Z.leb_le; lia.
  - intros [= <-]; cbn [crop_left crop_top crop_width crop_height]. conjuncts; try lia.
    intros ? ? [=].
Qed.

(** X30: the crop of a screenshot keeps the click in view.  For an
    image of up to 10000 pixels a side the function returns a box that
    lies within the image and is no smaller than twice the size of the
    cell (or the image, when that is smaller); when the coordinate of
    the action lies within the image it lies within the box, so that
    the annotation is drawn and not reported as outside the crop. *)
Theorem crop_keeps_the_click_in_view (self_screenshot_width self_screenshot_height : Z)
    (width height : Z) (action_coord : option (Z * Z)) :
  (0 <= self_screenshot_width)%Z -> (0 <= self_screenshot_height)%Z ->
  (0 <= width <= 10000)%Z -> (0 <= height <= 10000)%Z ->
  exists info,
    _crop_viewport_screenshot_with_action self_screenshot_width self_screenshot_height
      width height action_coord = inr info
    /\ (0 <= crop_left info)%Z /\ (crop_left info + crop_width info <= width)%Z
    /\ (0 <= crop_top info)%Z /\ (crop_top info + crop_height info <= height)%Z
    /\ (Z.min width (self_screenshot_width * 2) <= crop_width info)%Z
    /\ (Z.min height (self_screenshot_height * 2) <= crop_height info)%Z
    /\ (forall action_x action_y,
          action_coord = Some (action_x, action_y) ->
          (0 <= action_x <= width)%Z -> (0 <= action_y <= height)%Z ->
          in_crop info action_x action_y = true).
Proof.
  intros Hsw Hsh Hw Hh.
  destruct (_crop_viewport_screenshot_with_action self_screenshot_width
              self_screenshot_height width height action_coord) as [e | info] eqn:Hcrop.
  - exfalso. unfold _crop_viewport_screenshot_with_action in Hcrop.
    destruct (int_times_defined width Hw (300 <? self_screenshot_width)%Z) as [w' Hw'].
    destruct (int_times_defined height Hh (300 <? self_screenshot_width)%Z) as [h' Hh'].
    rewrite Hw' in Hcrop. cbn [mbind exn_bind] in Hcrop.
    rewrite Hh' in Hcrop. cbn [mbind exn_bind] in Hcrop.
    destruct action_coord as [[ax ay] |]; [| done]. by destruct (_ || _).
  - exists info. split; [done |].
    apply (crop_box self_screenshot_width self_screenshot_height width height action_coord);
      [done | done | lia | lia | done].
Qed.

End StoryboardFacts.

(** * Further instances *)

Section MoreInstances.
Import ModelClient ParallelRunner.

(** Two models and two apps, the tasks of the first model raising a
    transport error: the four pairs have their entries, the first the
    failure result of its error and the third the success of its task. *)
Lemma task_errors_are_isolated_witness :
  map (fun r => (entry_model r, entry_app r))
    (results (run_parallel_tasks quote_repr (fun _ => "Traceback") ["gpt5"; "qwen"]
                ["timer"; "notes"] flaky_task "stage" None))
  = [("gpt5", "timer"); ("gpt5", "notes"); ("qwen", "timer"); ("qwen", "notes")]
  /\ total_tasks (run_parallel_tasks quote_repr (fun _ => "Traceback") ["gpt5"; "qwen"]
                    ["timer"; "notes"] flaky_task "stage" None) = 4%nat
  /\ (exists r,
        results (run_parallel_tasks quote_repr (fun _ => "Traceback") ["gpt5"; "qwen"]
                   ["timer"; "notes"] flaky_task "stage" None) !! 0%nat = Some r
        /\ entry_result r !! "error" = Some (VStr (exn_str transport_error))
        /\ truthy (get (entry_result r) "success") = false)
  /\ (exists i r,
        results (run_parallel_tasks quote_repr (fun _ => "Traceback") ["gpt5"; "qwen"]
                   ["timer"; "notes"] flaky_task "stage" None) !! i = Some r
        /\ entry_model r = "qwen" /\ entry_app r = "timer"
        /\ entry_result r = {[ "success" := VBool true ]}).
Proof.
  destruct (task_errors_are_isolated quote_repr (fun _ => "Traceback") ["gpt5"; "qwen"]
              ["timer"; "notes"] flaky_task "stage" None)
    as (Hpairs & Htotal & _ & Hraise & _ & Hall & _).
  split; [exact Hpairs |]. split; [exact Htotal |]. split.
  - destruct (Hraise 0%nat "gpt5" "timer" transport_error eq_refl eq_refl)
      as (r & Hr & _ & _ & _ & Herror & Hfalse).
    exists r. split; [exact Hr |]. split; [exact Herror | exact Hfalse].
  - destruct (Hall "qwen" "timer") as (i & r & Hr & Hm & Ha & _ & Hret).
    + apply elem_of_cons. right. apply elem_of_cons. left. reflexivity.
    + apply elem_of_cons. left. reflexivity.
    + exact I.
    + exists i, r. split; [exact Hr |]. split; [exact Hm |]. split; [exact Ha |].
      apply Hret; reflexivity.
Defined.

(** Two models on two apps with one task function that raises for one
    model only: its two errors are reported. *)
Lemma raised_errors_are_reported_witness :
  (("gpt5", "timer") ∈ matrix ["gpt5"; "qwen"] ["timer"; "notes"] None
   /\ (fun model_name _ : string =>
         if String.eqb model_name "gpt5" then TaskRaises transport_error
         else TaskReturns ∅) "gpt5" "timer" = TaskRaises transport_error)
  /\ mkError "gpt5" "timer" (failure_detail (fun _ => "Traceback") transport_error)
       (failure_status transport_error)
     ∈ errors (run_parallel_tasks quote_repr (fun _ => "Traceback") ["gpt5"; "qwen"]
                 ["timer"; "notes"]
                 (fun model_name _ =>
                    if String.eqb model_name "gpt5" then TaskRaises transport_error
                    else TaskReturns ∅)
                 "stage" None).
Proof.
  assert (Hin : ("gpt5", "timer") ∈ matrix ["gpt5"; "qwen"] ["timer"; "notes"] None).
  { apply elem_of_cons. by left. }
  split; [split; [exact Hin | reflexivity] |].
  apply (raised_errors_are_reported quote_repr (fun _ => "Traceback") ["gpt5"; "qwen"]
           ["timer"; "notes"] _ "stage" None "gpt5" "timer" transport_error Hin).
  reflexivity.
Defined.

End MoreInstances.

Section StoryboardInstances.
Import Storyboard.

(** Ten screenshots. *)
Lemma grid_fits_the_canvas_witness :
  exists l,
    _calculate_optimal_grid 10 = inr l
    /\ (1 <= grid_cols l <= 9)%Z
    /\ (1 <= grid_rows l <= 6)%Z
    /\ (10 <= grid_cols l * grid_rows l)%Z
    /\ (50 <= screenshot_width l)%Z
    /\ (28 <= screenshot_height l)%Z
    /\ (total_width l <= 1920)%Z
    /\ (total_height l <= 1080)%Z
    /\ (forall step_idx,
          (0 <= step_idx < 10)%Z ->
          let row := (step_idx / grid_cols l)%Z in
          let col := (step_idx mod grid_cols l)%Z in
          let '(x, y) := cell_corner l row col in
          (0 <= row < grid_rows l)%Z
          /\ (0 <= col < grid_cols l)%Z
          /\ (row * grid_cols l + col = step_idx)%Z
          /\ (0 <= x)%Z /\ (x + screenshot_width l <= total_width l)%Z
          /\ (header_height <= y)%Z
          /\ (y + screenshot_height l + text_height <= total_height l)%Z).
Proof. apply (grid_fits_the_canvas 10). lia. Defined.

(** A click near the corner of a 1280 by 720 screenshot, for cells of
    421 by 237 pixels. *)
Lemma crop_keeps_the_click_in_view_witness :
  exists info,
    _crop_viewport_screenshot_with_action 421 237 1280 720 (Some (1270, 15)%Z) = inr info
    /\ (0 <= crop_left info)%Z /\ (crop_left info + crop_width info <= 1280)%Z
    /\ (0 <= crop_top info)%Z /\ (crop_top info + crop_height info <= 720)%Z
    /\ (Z.min 1280 (421 * 2) <= crop_width info)%Z
    /\ (Z.min 720 (237 * 2) <= crop_height info)%Z
    /\ (forall action_x action_y,
          Some (1270, 15)%Z = Some (action_x, action_y) ->
          (0 <= action_x <= 1280)%Z -> (0 <= action_y <= 720)%Z ->
          in_crop info action_x action_y = true).
Proof. apply (crop_keeps_the_click_in_view 421 237 1280 720 (Some (1270, 15)%Z)); lia. Defined.

End StoryboardInstances.
